(** * Occupancy rates by vintage: a model of [streamlit_app.py]

    The script is one linear pass over a table read from a CSV file: derive
    the vintages from the deal names, filter by the selected vintage, clean
    the columns, group by reporting period and aggregate.  Each statement of
    the script is a definition below, under the name the script gives to the
    value it computes; the closing [script] chains them in the script's order.

    Conventions.
    - A frame is the list of its rows, in row order.
    - Names are strings of 8-bit characters, and every row has one; on
      them the class [\d] of Python's [re] is exactly ['0'..'9'].
    - A float64 cell is a rational number or NaN ([None]); arithmetic on the
      finite values is exact, rounding is not modelled.
    - An appraised value is a whole number of any size or missing; the
      cast to int64 is written out with its wrap-around and its refusal.
    - An exception raised by a statement ends the run: statements that can
      raise return a [result]. *)

From Stdlib Require Import ZArith QArith Qround Lqa String Ascii List Lia DecimalString.
From stdpp Require Import base list sorting strings gmap.

Set Warnings "-clear-no-such-hyp".

Open Scope string_scope.
Open Scope Z_scope.

(** ** Exceptions *)

Inductive Exception : Set :=
  | IndexError          (* [list][0] on an empty list *)
  | ValueError          (* a cell that cannot be cast; a frame without the
                           columns to be named *)
  | ZeroDivisionError   (* np.average: weights sum to zero *)
  | OverflowError       (* an integer too large for int64 *)
  | StreamlitAPIException. (* a widget whose default index has no option *)

Inductive result (A : Type) : Type :=
  | Ok (a : A)
  | Raise (e : Exception).
Arguments Ok {A} a.
Arguments Raise {A} e.

#[global] Instance result_ret : MRet result := @Ok.

#[global] Instance result_bind : MBind result := fun A B k r =>
  match r with
  | Ok a => k a
  | Raise e => Raise e
  end.

(** A comprehension or [apply] whose body can raise is stdpp's [mapM] in
    this monad: the elements are visited in order and the first exception
    ends the loop. *)

(** [Series.unique()]: the distinct values, in order of first appearance. *)
Fixpoint unique_from {A} `{EqDecision A} (seen l : list A) : list A :=
  match l with
  | [] => []
  | x :: l' =>
      if decide (x ∈ seen) then unique_from seen l'
      else x :: unique_from (x :: seen) l'
  end.

Definition unique {A} `{EqDecision A} (l : list A) : list A := unique_from [] l.

(** ** The table *)

(** A [datetime64[ns]] value: a calendar date and the time of day, in
    nanoseconds since midnight. *)
Record Timestamp : Set := mkTimestamp {
  year : Z;
  month : Z;
  day : Z;
  nanos : Z
}.

(** A cell of the date column as [read_csv] delivers it: empty, or a text
    that pandas will or will not be able to parse as a date. *)
Inductive DateCell : Set :=
  | Missing
  | Unparseable (text : string)
  | Parsed (t : Timestamp).

(** A row of [properties], the frame returned by [get_property_data], with
    the columns the script names, in the order of [column_types].  Every
    row has a name.  An empty cell of the other columns is [Missing] or
    [None]; the occupancy is a float; the value is a whole number of any
    size, as [read_csv] reads a column of integer numerals. *)
Record Row : Set := mkRow {
  COMPANY_NAME : string;
  REPORTINGPERIODENDDATE : DateCell;
  PHYSICALOCCUPANCYSECURITIZATIONPERCENTAGE : option Q;
  PROPERTYSTATE : string;
  MOST_RECENT_VALUE : option Z
}.

(** A row after [astype(column_types)]: the date column is datetime64 (NaT
    is [None]), the occupancy float64 (NaN is [None]), the value int64. *)
Record TypedRow : Set := mkTypedRow {
  company_name : string;
  reporting_date : option Timestamp;
  occupancy : option Q;
  property_state : string;
  most_recent_value : Z
}.

#[global] Instance Timestamp_eq_dec : EqDecision Timestamp.
Proof. solve_decision. Defined.

(** ** Line 31: the vintages *)

(** [\d] and [\D]. *)
Definition is_digit (c : ascii) : bool :=
  let n := N_of_ascii c in ((48 <=? n) && (n <=? 57))%N.

(** [(?=\D|$)]: the next character is not a digit, or there is none.  ([$]
    also matches before a final newline, which [\D] matches already.) *)
Definition lookahead (rest : string) : bool :=
  match rest with
  | EmptyString => true
  | String e _ => negb (is_digit e)
  end.

(** [(?<=\D)]: there is a character before the position and it is not a
    digit. *)
Definition lookbehind (prev : option ascii) : bool :=
  match prev with
  | Some p => negb (is_digit p)
  | None => false
  end.

(** The pattern [(?<=\D)\d{4}(?=\D|$)] tried at the head of [s], [prev]
    being the character before it. *)
Definition match_here (prev : option ascii) (s : string) : option string :=
  match s with
  | String a (String b (String c (String d rest))) =>
      if lookbehind prev
         && (is_digit a && is_digit b && is_digit c && is_digit d)
         && lookahead rest
      then Some (String a (String b (String c (String d EmptyString))))
      else None
  | _ => None
  end.

(** [re.findall]: the scan tries every position from left to right; after a
    match it resumes behind the matched text ([skip] counts the characters
    of the current match still to pass). *)
Fixpoint findall_from (skip : nat) (prev : option ascii) (s : string) : list string :=
  match s with
  | EmptyString => []
  | String c rest =>
      match skip with
      | S k => findall_from k (Some c) rest
      | O =>
          match match_here prev s with
          | Some m => m :: findall_from 3 (Some c) rest
          | None => findall_from 0 (Some c) rest
          end
      end
  end.

Definition findall (name : string) : list string := findall_from 0 None name.

(** [l[0]]. *)
Definition first_item {A} (l : list A) : result A :=
  match l with
  | x :: _ => Ok x
  | [] => Raise IndexError
  end.

Definition digit_value (c : ascii) : Z := Z.of_N (N_of_ascii c) - 48.

(** [int(m)] on a string of digits. *)
Fixpoint int_from (acc : Z) (m : string) : Z :=
  match m with
  | EmptyString => acc
  | String c rest => int_from (10 * acc + digit_value c) rest
  end.

Definition int (m : string) : Z := int_from 0 m.

(** [int(re.findall(r'(?<=\D)\d{4}(?=\D|$)', name)[0])]. *)
Definition vintage_of (name : string) : result Z :=
  m ← first_item (findall name); Ok (int m).

(** [sorted(list(set(ys)))]. *)
Definition sorted_set (ys : list Z) : list Z :=
  merge_sort Z.le (elements (list_to_set ys : gset Z)).

Definition unique_years (properties : list Row) : result (list Z) :=
  ys ← mapM vintage_of (unique (map COMPANY_NAME properties));
  Ok (sorted_set ys).

(** ** Line 40: the rows of the selected vintage *)

(** [str(n)]. *)
Definition str (n : Z) : string := NilZero.string_of_int (Z.to_int n).

(** [re.search(pat, s)] for a pattern of literal characters, as the decimal
    digits of [str(selected_year)] are: [pat] occurs somewhere in [s]. *)
Fixpoint contains (pat s : string) : bool :=
  String.prefix pat s
  || match s with
     | EmptyString => false
     | String _ rest => contains pat rest
     end.

Definition year_data (properties : list Row) (selected_year : Z) : list Row :=
  filter (fun r => contains (str selected_year) (COMPANY_NAME r) = true) properties.

(** Line 44. *)
Definition unique_companies (year_data : list Row) : list string :=
  unique (map COMPANY_NAME year_data).

(** ** Lines 51 to 62: cleaning *)

(** [Series.fillna(v)]. *)
Definition fillna {A} (v : A) (cell : option A) : option A :=
  match cell with
  | Some x => Some x
  | None => Some v
  end.

(** Line 52. *)
Definition fill_value (r : Row) : Row :=
  mkRow (COMPANY_NAME r) (REPORTINGPERIODENDDATE r)
        (PHYSICALOCCUPANCYSECURITIZATIONPERCENTAGE r) (PROPERTYSTATE r)
        (fillna 0 (MOST_RECENT_VALUE r)).

(** [lambda x: x / 100 if x > 1 else x]; on NaN the test [x > 1] is false. *)
Definition rescale (x : option Q) : option Q :=
  match x with
  | Some q => if negb (Qle_bool q 1) then Some (q / 100)%Q else Some q
  | None => None
  end.

(** Lines 55 and 56. *)
Definition normalize (r : Row) : Row :=
  mkRow (COMPANY_NAME r) (REPORTINGPERIODENDDATE r)
        (fillna 0%Q (rescale (PHYSICALOCCUPANCYSECURITIZATIONPERCENTAGE r)))
        (PROPERTYSTATE r) (MOST_RECENT_VALUE r).

Definition has_date (r : Row) : bool :=
  match REPORTINGPERIODENDDATE r with
  | Missing => false
  | _ => true
  end.

(** Line 59: [dropna(subset=['REPORTINGPERIODENDDATE'])]. *)
Definition dropna (rows : list Row) : list Row :=
  filter (fun r => has_date r = true) rows.

(** Line 62 casts the frame column by column, in the order of the
    columns, and the first cell that cannot be cast ends the run.  The
    columns that can raise are the date and the value. *)

(** [astype('datetime64[ns]')] on a cell of the date column: a text that
    is not a date raises; a missing date would become NaT. *)
Definition to_datetime64 (cell : DateCell) : result (option Timestamp) :=
  match cell with
  | Missing => Ok None
  | Unparseable _ => Raise ValueError
  | Parsed t => Ok (Some t)
  end.

(** [astype(int)] on a cell of the value column.  A number of the int64
    range is kept.  Larger numbers up to [2^64 - 1] sit in a uint64 column
    and the cast to int64 wraps them around; a number beyond either range
    is a Python int that the cast refuses.  NaN cannot be cast: the script
    has filled it before. *)
Definition to_int64 (cell : option Z) : result Z :=
  match cell with
  | None => Raise ValueError
  | Some v =>
      if (- 2 ^ 63 <=? v) && (v <? 2 ^ 63) then Ok v
      else if (2 ^ 63 <=? v) && (v <? 2 ^ 64) then Ok (v - 2 ^ 64)
      else Raise OverflowError
  end.

Definition astype (rows : list Row) : result (list TypedRow) :=
  dates ← mapM (fun r => to_datetime64 (REPORTINGPERIODENDDATE r)) rows;
  values ← mapM (fun r => to_int64 (MOST_RECENT_VALUE r)) rows;
  Ok (zip_with
        (fun r dv =>
           mkTypedRow (COMPANY_NAME r) dv.1
             (PHYSICALOCCUPANCYSECURITIZATIONPERCENTAGE r) (PROPERTYSTATE r) dv.2)
        rows (zip dates values)).

(** Lines 52 to 62 in the script's order. *)
Definition clean (year_data : list Row) : result (list TypedRow) :=
  astype (dropna (map normalize (map fill_value year_data))).

(** Line 65. *)
Definition bank_data (year_data : list TypedRow) (selected_company : string)
  : list TypedRow :=
  filter (fun r => company_name r = selected_company) year_data.

(** ** Lines 67 and 68: one MonthBegin back *)

(** pandas' [roll_convention]: the number of months to move once the day of
    the month has been compared with the offset's anchor day. *)
Definition roll_convention (other n compare : Z) : Z :=
  if (0 <? n) && (other <? compare) then n - 1
  else if (n <=? 0) && (compare <? other) then n + 1
  else n.

(** pandas' [shift_month] with [day_opt = "start"]; [/] and [mod] round
    down, as [//] and [%] do. *)
Definition shift_month (stamp : Timestamp) (months : Z) : Timestamp :=
  let dy := (month stamp + months) / 12 in
  let m := (month stamp + months) mod 12 in
  let '(m, dy) := if m =? 0 then (12, dy - 1) else (m, dy) in
  mkTimestamp (year stamp + dy) m 1 (nanos stamp).

(** [stamp + MonthBegin(n)]: the anchor day of MonthBegin is 1. *)
Definition add_MonthBegin (n : Z) (stamp : Timestamp) : Timestamp :=
  shift_month stamp (roll_convention (day stamp) n 1).

(** [stamp - pd.offsets.MonthBegin(1)]; NaT stays NaT. *)
Definition sub_MonthBegin (stamp : Timestamp) : Timestamp :=
  add_MonthBegin (-1) stamp.

Definition shift_row (r : TypedRow) : TypedRow :=
  mkTypedRow (company_name r) (sub_MonthBegin <$> reporting_date r)
             (occupancy r) (property_state r) (most_recent_value r).

Definition shift_dates (rows : list TypedRow) : list TypedRow :=
  map shift_row rows.

(** ** Lines 72 to 91: the two aggregations *)

(** Timestamps in time order. *)
Definition ts_compare (a b : Timestamp) : comparison :=
  match year a ?= year b with
  | Eq => match month a ?= month b with
          | Eq => match day a ?= day b with
                  | Eq => nanos a ?= nanos b
                  | c => c
                  end
          | c => c
          end
  | c => c
  end.

Definition ts_le (a b : Timestamp) : Prop := ts_compare a b <> Gt.

#[global] Instance ts_le_dec a b : Decision (ts_le a b).
Proof. unfold ts_le. apply _. Defined.

(** The keys of [groupby("REPORTINGPERIODENDDATE")]: the distinct dates in
    ascending order; rows without a date belong to no group. *)
Definition group_keys (df : list TypedRow) : list Timestamp :=
  merge_sort ts_le (unique (omap reporting_date df)).

Definition group (df : list TypedRow) (k : Timestamp) : list TypedRow :=
  filter (fun r => reporting_date r = Some k) df.

(** [df.groupby("REPORTINGPERIODENDDATE", as_index=False).apply(f)]: one
    result row per key, [f] applied to the groups in key order. *)
Definition groupby_apply {B} (f : list TypedRow -> result B) (df : list TypedRow)
  : result (list (Timestamp * B)) :=
  mapM (fun k => v ← f (group df k); Ok (k, v)) (group_keys df).

(** Sum of a float64 array: NaN as soon as one entry is NaN. *)
Fixpoint fsum (l : list (option Q)) : option Q :=
  match l with
  | [] => Some 0%Q
  | x :: l' => q ← x; s ← fsum l'; Some (q + s)%Q
  end.

(** [np.average(a, weights=w)]: the weights are summed first and a zero sum
    raises; otherwise the sum of the products is divided by it. *)
Definition np_average (a : list (option Q)) (weights : list Z) : result (option Q) :=
  let scl := foldr Z.add 0 weights in
  if scl =? 0 then Raise ZeroDivisionError
  else Ok (s ← fsum (zip_with (fun x w => (fun q => q * inject_Z w)%Q <$> x) a weights);
           Some (s / inject_Z scl)%Q).

(** Line 79: [frame.columns = [name, name]].  With at least one group the
    frame that [apply] returns has the two columns named here.  Without
    any it is an empty frame that still has the columns of the grouped
    frame, and giving it two names raises. *)
Definition set_columns {A} (frame : list A) : result (list A) :=
  match frame with
  | [] => Raise ValueError
  | _ :: _ => Ok frame
  end.

(** Lines 72 to 79. *)
Definition bank_weighted_occupancy (bank_data : list TypedRow)
  : result (list (Timestamp * option Q)) :=
  frame ← groupby_apply
            (fun x => np_average (map occupancy x) (map most_recent_value x))
            bank_data;
  set_columns frame.

#[global] Instance Qle_dec (x y : Q) : Decision (x <= y)%Q.
Proof.
  destruct (Qle_bool x y) eqn:E.
  - left. apply Qle_bool_iff, E.
  - right. intros H. apply Qle_bool_iff in H. congruence.
Defined.

(** [l[i]] with Python's negative indices. *)
Definition item (l : list Q) (i : Z) : Q :=
  nth (Z.to_nat (if i <? 0 then Z.of_nat (length l) + i else i)) l 0%Q.

(** numpy's [_lerp]. *)
Definition lerp (a b t : Q) : Q :=
  let diff_b_a := (b - a)%Q in
  if Qle_bool (1 # 2) t then (b - diff_b_a * (1 - t))%Q
  else (a + diff_b_a * t)%Q.

(** numpy's [_quantile] with the default method on an array without NaN:
    the virtual index [(n - 1) * q], the two neighbouring indices (both the
    last one at or past the end, both the first one before the start), the
    values there once the array is ordered, and their interpolation. *)
Definition quantile (arr : list Q) (q : Q) : Q :=
  let n := Z.of_nat (length arr) in
  let virtual_index := (inject_Z (n - 1) * q)%Q in
  let previous_index := Qfloor virtual_index in
  let next_index := previous_index + 1 in
  let above := Qle_bool (inject_Z (n - 1)) virtual_index in
  let previous_index := if above then -1 else previous_index in
  let next_index := if above then -1 else next_index in
  let below := negb (Qle_bool 0 virtual_index) in
  let previous_index := if below then 0 else previous_index in
  let next_index := if below then 0 else next_index in
  let sorted := merge_sort Qle arr in
  let gamma := (virtual_index - inject_Z previous_index)%Q in
  lerp (item sorted previous_index) (item sorted next_index) gamma.

(** [np.percentile(a, q)]: NaN when an entry is NaN. *)
Definition np_percentile (a : list (option Q)) (q : Q) : option Q :=
  arr ← mapM id a; Some (quantile arr (q / 100)%Q).

Record Bands : Set := mkBands { p25 : option Q; p50 : option Q; p75 : option Q }.

Definition percentiles (year_data : list TypedRow)
  : result (list (Timestamp * Bands)) :=
  groupby_apply
    (fun x =>
       let a := map occupancy x in
       Ok (mkBands (np_percentile a 25) (np_percentile a 50) (np_percentile a 75)))
    year_data.

(** ** The script *)

(** [st.selectbox(label, options, index=i)].  When there are options and
    the default index [i] is not the index of one of them, the call raises.
    Otherwise the widget returns the option selected in the dropdown, which
    is an input of the run.  (Without options, which takes a table without
    rows, the widget has nothing to return; the frames stay empty and the
    run ends at line 79.) *)
Definition selectbox {A} (options : list A) (index : nat) (selected : A) : result A :=
  if bool_decide (options ≠ [] ∧ (length options ≤ index)%nat)
  then Raise StreamlitAPIException
  else Ok selected.

Record Output : Type := mkOutput {
  out_unique_years : list Z;
  out_unique_companies : list string;
  out_bank_weighted_occupancy : list (Timestamp * option Q);
  out_percentiles : list (Timestamp * Bands)
}.

(** The run for a table and the two selections made in the dropdowns, up to
    the frames handed to the chart. *)
Definition script (properties : list Row) (selected_year : Z)
    (selected_company : string) : result Output :=
  years ← unique_years properties;
  selected_year ← selectbox years 2 selected_year;
  let yd := year_data properties selected_year in
  let companies := unique_companies yd in
  selected_company ← selectbox companies 0 selected_company;
  cleaned ← clean yd;
  let bank := bank_data cleaned selected_company in
  let yd := shift_dates cleaned in
  let bank := shift_dates bank in
  bwo ← bank_weighted_occupancy bank;
  pct ← percentiles yd;
  Ok (mkOutput years companies bwo pct).

(** ** Lines 93 and 94: the domain of the chart's y axis *)

(** [Series.min()]: the smallest entry that is not NaN, NaN when there is
    none. *)
Definition series_min (col : list (option Q)) : option Q :=
  foldr (λ x acc, match x, acc with
                  | Some q, Some m => Some (if Qle_bool q m then q else m)
                  | Some q, None => Some q
                  | None, _ => acc
                  end) None col.

(** [Series.max()]. *)
Definition series_max (col : list (option Q)) : option Q :=
  foldr (λ x acc, match x, acc with
                  | Some q, Some m => Some (if Qle_bool m q then q else m)
                  | Some q, None => Some q
                  | None, _ => acc
                  end) None col.

(** [percentiles['p25'].min() - 0.01]; the decimal literal is read as the
    rational it writes. *)
Definition min_occupancy (percentiles : list (Timestamp * Bands)) : option Q :=
  (λ m, m - (1 # 100))%Q <$> series_min (map (λ row, p25 row.2) percentiles).

(** [percentiles['p75'].max() + 0.001]. *)
Definition max_occupancy (percentiles : list (Timestamp * Bands)) : option Q :=
  (λ m, m + (1 # 1000))%Q <$> series_max (map (λ row, p75 row.2) percentiles).

(** ** Reference definitions

    The definitions of this section follow the words of the specification,
    not the code; the theorems below compare the script with them. *)

(** The decimal digits 0 to 9 in counting order, the only digits [str]
    writes. *)
Definition digits : list ascii :=
  ["0"; "1"; "2"; "3"; "4"; "5"; "6"; "7"; "8"; "9"]%char.

(** What a decimal digit counts: its place among the ten.  No other
    character is a digit. *)
Definition decimal_digit (c : ascii) : option Z :=
  (λ found : nat * ascii, Z.of_nat found.1) <$> list_find (λ d, d = c) digits.

(** A four-digit run at index [i] of [name]: preceded by a non-digit and
    followed by a non-digit or the end of the string. *)
Definition four_digit_run (name : string) (i : nat) : Prop :=
  (∃ c, (1 ≤ i)%nat ∧ get (i - 1) name = Some c ∧ decimal_digit c = None) ∧
  (∀ k, (k < 4)%nat → ∃ d, get (i + k) name = Some d ∧ is_Some (decimal_digit d)) ∧
  (get (i + 4) name = None ∨ ∃ e, get (i + 4) name = Some e ∧ decimal_digit e = None).

(** The number that the four digits at index [i] of [name] write. *)
Definition number_at (name : string) (i : nat) (y : Z) : Prop :=
  ∃ a b c d,
    (get i name ≫= decimal_digit) = Some a
    ∧ (get (i + 1) name ≫= decimal_digit) = Some b
    ∧ (get (i + 2) name ≫= decimal_digit) = Some c
    ∧ (get (i + 3) name ≫= decimal_digit) = Some d
    ∧ y = 1000 * a + 100 * b + 10 * c + d.

(** The vintage embedded in a deal name: the number written by the first
    such run. *)
Definition vintage (name : string) (y : Z) : Prop :=
  ∃ i, four_digit_run name i
       ∧ (∀ j, (j < i)%nat → ¬ four_digit_run name j)
       ∧ number_at name i y.

(** The first day of the month of [t], at the time of day of [t]. *)
Definition first_of_month (t : Timestamp) : Timestamp :=
  mkTimestamp (year t) (month t) 1 (nanos t).

(** The first day of the month before the month of [t]. *)
Definition first_of_previous_month (t : Timestamp) : Timestamp :=
  if month t =? 1 then mkTimestamp (year t - 1) 12 1 (nanos t)
  else mkTimestamp (year t) (month t - 1) 1 (nanos t).

(** A date of the calendar, as far as the offset looks at it. *)
Definition valid_date (t : Timestamp) : Prop :=
  1 ≤ month t ≤ 12 ∧ 1 ≤ day t.

(** Two dates that fall in the same month. *)
Definition same_month (a b : Timestamp) : Prop :=
  year a = year b ∧ month a = month b.

(** The mean of the occupancies [x] weighted by the values [w], over rows
    given as pairs [(w, x)]: the sum of the products [w * x] divided by the
    sum of the [w]. *)
Definition weighted_mean (rows : list (Z * Q)) : Q :=
  (foldr Qplus 0%Q (map (λ row, inject_Z row.1 * row.2) rows)
   / inject_Z (foldr Z.add 0%Z (map fst rows)))%Q.

(** The reporting period of a cleaned row: its reporting date, one
    MonthBegin back. *)
Definition period_of (r : TypedRow) : option Timestamp :=
  sub_MonthBegin <$> reporting_date r.

(** The rows of reporting period [p] among cleaned rows, in row order. *)
Definition period_rows (rows : list TypedRow) (p : Timestamp) : list TypedRow :=
  filter (λ r, period_of r = Some p) rows.

(** The cleaned rows of a deal, in row order. *)
Definition deal_rows (rows : list TypedRow) (deal : string) : list TypedRow :=
  filter (λ r, company_name r = deal) rows.

(** The [p]-th percentile of a sample by linear interpolation.  With the
    sample in ascending order [x_0 <= ... <= x_(n-1)], it is the value at
    the fractional rank [h = (n - 1) * p / 100]: [x_j] plus the fraction
    [h - j] of the step to the next value, [j] being [h] rounded down (at
    the last rank there is no next value and no step). *)
Definition percentile_reference (ascending : list Q) (p : Q) : Q :=
  let h := (inject_Z (Z.of_nat (length ascending) - 1) * (p / 100))%Q in
  let j := Z.to_nat (Qfloor h) in
  let x_j := nth j ascending 0%Q in
  let x_next := nth (S j) ascending x_j in
  (x_j + (h - inject_Z (Qfloor h)) * (x_next - x_j))%Q.

(** ** Auxiliary definitions for the proofs *)

(** The first match of the scan, without the later ones. *)
Fixpoint first_match (prev : option ascii) (s : string) : option string :=
  match s with
  | EmptyString => None
  | String c rest =>
      match match_here prev s with
      | Some m => Some m
      | None => first_match (Some c) rest
      end
  end.

(** [four_digit_run] in the middle of a scan: [prev] is the character before
    the rest [s] of the name. *)
Definition run_at (prev : option ascii) (s : string) (i : nat) : Prop :=
  (∃ c, match i with O => prev | S j => get j s end = Some c ∧ is_digit c = false) ∧
  (∀ k, (k < 4)%nat → ∃ d, get (i + k) s = Some d ∧ is_digit d = true) ∧
  (get (i + 4) s = None ∨ ∃ e, get (i + 4) s = Some e ∧ is_digit e = false).

(** What cleaning makes of a row that has a date: the columns of the typed
    row [r'] obtained from the row [r] of the table. *)
Definition cleaned_from (r : Row) (r' : TypedRow) : Prop :=
  company_name r' = COMPANY_NAME r
  ∧ (∃ t, REPORTINGPERIODENDDATE r = Parsed t ∧ reporting_date r' = Some t)
  ∧ occupancy r' = fillna 0%Q (rescale (PHYSICALOCCUPANCYSECURITIZATIONPERCENTAGE r))
  ∧ property_state r' = PROPERTYSTATE r
  ∧ to_int64 (Some (default 0 (MOST_RECENT_VALUE r))) = Ok (most_recent_value r').

(** The weights of a group and their sum. *)
Definition weights (rows : list TypedRow) : list Z := map most_recent_value rows.

Definition total_weight (rows : list TypedRow) : Z := foldr Z.add 0 (weights rows).

(** The two frames that are grouped: the cleaned rows of the selected deal
    and the cleaned rows of the whole vintage, with their dates shifted. *)
Definition deal_series (cleaned : list TypedRow) (selected_company : string)
  : list TypedRow :=
  shift_dates (bank_data cleaned selected_company).

Definition vintage_series (cleaned : list TypedRow) : list TypedRow :=
  shift_dates cleaned.

(** Strictly earlier, in time order. *)
Definition ts_lt (a b : Timestamp) : Prop := ts_compare a b = Lt.

(** The first day of the month after the month of [t]. *)
Definition first_of_next_month (t : Timestamp) : Timestamp :=
  if month t =? 12 then mkTimestamp (year t + 1) 1 1 (nanos t)
  else mkTimestamp (year t) (month t + 1) 1 (nanos t).

(** The time order spelled out field by field. *)
Definition lex_le (a b : Timestamp) : Prop :=
  year a < year b
  ∨ (year a = year b
     ∧ (month a < month b
        ∨ (month a = month b
           ∧ (day a < day b ∨ (day a = day b ∧ nanos a ≤ nanos b))))).

Definition lex_lt (a b : Timestamp) : Prop :=
  year a < year b
  ∨ (year a = year b
     ∧ (month a < month b
        ∨ (month a = month b
           ∧ (day a < day b ∨ (day a = day b ∧ nanos a < nanos b))))).

(** The value at the fractional rank [h] of an ascending sample, as
    [percentile_reference] interpolates it. *)
Definition interpolate (ascending : list Q) (h : Q) : Q :=
  let j := Z.to_nat (Qfloor h) in
  let x_j := nth j ascending 0%Q in
  let x_next := nth (S j) ascending x_j in
  (x_j + (h - inject_Z (Qfloor h)) * (x_next - x_j))%Q.

(** Two deals of earlier vintages, for the sample tables below: with them
    a table has the three vintages the vintage dropdown needs. *)
Definition older_deals : list Row :=
  [mkRow "COMM 2019-GC11" (Parsed (mkTimestamp 2020 3 31 0)) (Some (1 # 4)) "NY" None;
   mkRow "CSAIL 2018-C14" (Parsed (mkTimestamp 2020 3 31 0)) (Some (70 # 1)) "IL" (Some 40)].

(** * Theorems *)

(** ** The result monad and [unique] *)

Section result_monad.
Context {A B : Type} (f : A → result B).

Lemma mapM_result (l : list A) :
  match mapM f l with
  | Ok ys => Forall2 (λ x y, f x = Ok y) l ys
  | Raise e => ∃ x, x ∈ l ∧ f x = Raise e
  end.
Proof.
  induction l as [|x l IH]; simpl.
  - constructor.
  - destruct (f x) as [y|e] eqn:Hx; simpl.
    + destruct (mapM f l) as [ys|e]; simpl.
      * constructor; assumption.
      * destruct IH as (x' & Hin & Hx'). exists x'. split; [by right | done].
    + exists x. split; [by left | done].
Qed.

(** The loop completes when its body does on every element. *)
Lemma mapM_result_Ok (l : list A) :
  (∀ x, x ∈ l → ∃ y, f x = Ok y) → ∃ ys, mapM f l = Ok ys.
Proof.
  intros H. pose proof (mapM_result l) as M.
  destruct (mapM f l) as [ys|e]; [by eexists|].
  destruct M as (x & Hin & Hx). destruct (H x Hin) as [y Hy]. congruence.
Qed.

(** A body that raises nothing but [e], and does so on some element, makes
    the loop raise [e]. *)
Lemma mapM_result_Raise (l : list A) (e : Exception) :
  (∀ x e', x ∈ l → f x = Raise e' → e' = e) →
  (∃ x, x ∈ l ∧ f x = Raise e) →
  mapM f l = Raise e.
Proof.
  intros Hall (x & Hin & Hx). pose proof (mapM_result l) as M.
  destruct (mapM f l) as [ys|e'].
  - apply list_elem_of_lookup in Hin as [i Hi].
    destruct (Forall2_lookup_l _ _ _ _ _ M Hi) as (y & _ & Hy). congruence.
  - destruct M as (x' & Hin' & Hx'). f_equal. eauto.
Qed.

End result_monad.

Lemma Forall2_impl_elem {A B} (P Q : A → B → Prop) (l : list A) (k : list B) :
  Forall2 P l k → (∀ x y, x ∈ l → P x y → Q x y) → Forall2 Q l k.
Proof.
  induction 1 as [|x y l k Hxy _ IH]; intros H; constructor.
  - apply H; [by left | done].
  - apply IH. intros x' y' Hx'. apply H. by right.
Qed.

Lemma elem_of_unique_from {A} `{EqDecision A} (seen l : list A) (x : A) :
  x ∈ unique_from seen l ↔ x ∈ l ∧ x ∉ seen.
Proof.
  revert seen. induction l as [|a l IH]; intros seen; simpl.
  - set_solver.
  - destruct (decide (a ∈ seen)).
    + rewrite IH. set_solver.
    + rewrite elem_of_cons, IH. destruct (decide (x = a)); set_solver.
Qed.

Lemma elem_of_unique {A} `{EqDecision A} (l : list A) (x : A) :
  x ∈ unique l ↔ x ∈ l.
Proof. unfold unique. rewrite elem_of_unique_from. set_solver. Qed.

Lemma NoDup_unique_from {A} `{EqDecision A} (seen l : list A) :
  NoDup (unique_from seen l).
Proof.
  revert seen. induction l as [|a l IH]; intros seen; simpl.
  - constructor.
  - destruct (decide (a ∈ seen)); [apply IH|].
    constructor; [|apply IH]. rewrite elem_of_unique_from. set_solver.
Qed.

Lemma NoDup_unique {A} `{EqDecision A} (l : list A) : NoDup (unique l).
Proof. apply NoDup_unique_from. Qed.

(** ** The pattern and the scan *)

Lemma head_findall_from (prev : option ascii) (s : string) :
  head (findall_from 0 prev s) = first_match prev s.
Proof.
  revert prev. induction s as [|c rest IH]; intros prev; [done|].
  cbn [findall_from first_match].
  destruct (match_here prev (String c rest)); [done | apply IH].
Qed.

Lemma match_here_substring (prev : option ascii) (s m : string) :
  match_here prev s = Some m → m = substring 0 4 s.
Proof.
  unfold match_here.
  destruct s as [|a [|b [|c [|d rest]]]]; try discriminate.
  destruct (_ && _ && _); [|discriminate]. intros [= <-]. by destruct rest.
Qed.

Lemma run_at_here (prev : option ascii) (s : string) :
  run_at prev s 0 ↔ is_Some (match_here prev s).
Proof.
  unfold run_at, match_here, lookbehind, lookahead. split.
  - intros ((p & Hp & Hpd) & Hd & Hf). subst prev. rewrite Hpd. cbn [negb andb].
    destruct (Hd 0%nat) as (d0 & G0 & D0); [lia|].
    destruct (Hd 1%nat) as (d1 & G1 & D1); [lia|].
    destruct (Hd 2%nat) as (d2 & G2 & D2); [lia|].
    destruct (Hd 3%nat) as (d3 & G3 & D3); [lia|].
    destruct s as [|a [|b [|c [|d rest]]]]; try discriminate.
    cbn in G0, G1, G2, G3, Hf.
    injection G0 as ->. injection G1 as ->. injection G2 as ->. injection G3 as ->.
    rewrite D0, D1, D2, D3. cbn [andb].
    destruct rest as [|e rest]; [by eexists|].
    cbn in Hf. destruct Hf as [?|(e' & [= <-] & ->)]; [done | by eexists].
  - intros [m Hm].
    destruct s as [|a [|b [|c [|d rest]]]]; try discriminate.
    destruct prev as [p|]; [|discriminate].
    destruct (is_digit p) eqn:Pd; [discriminate|].
    destruct (is_digit a) eqn:D0; [|discriminate].
    destruct (is_digit b) eqn:D1; [|discriminate].
    destruct (is_digit c) eqn:D2; [|discriminate].
    destruct (is_digit d) eqn:D3; [|discriminate].
    cbn [negb andb] in Hm. split; [by exists p|]. split.
    + intros k Hk.
      destruct k as [|[|[|[|k]]]]; [by eexists ..|lia].
    + cbn. destruct rest as [|e rest]; [by left|].
      right. exists e. split; [done|]. by destruct (is_digit e).
Qed.

Lemma run_at_step (prev : option ascii) (c : ascii) (rest : string) (i : nat) :
  run_at prev (String c rest) (S i) ↔ run_at (Some c) rest i.
Proof.
  unfold run_at. cbn [get Nat.add].
  destruct i as [|i]; cbn [get]; reflexivity.
Qed.

(** The characters [\d] matches are the ten decimal digits, and
    [digit_value] reads each of them as what it counts. *)
Lemma decimal_digit_spec (c : ascii) :
  match decimal_digit c with
  | Some n => is_digit c = true ∧ digit_value c = n
  | None => is_digit c = false
  end.
Proof. destruct c as [[] [] [] [] [] [] [] []]; vm_compute; done. Qed.

Lemma is_digit_true (c : ascii) : is_digit c = true ↔ is_Some (decimal_digit c).
Proof.
  pose proof (decimal_digit_spec c) as H.
  destruct (decimal_digit c); [split; [by eexists | tauto]|].
  rewrite H. split; [done | by intros [? ?]].
Qed.

Lemma is_digit_false (c : ascii) : is_digit c = false ↔ decimal_digit c = None.
Proof.
  pose proof (decimal_digit_spec c) as H.
  destruct (decimal_digit c); [destruct H as [-> _]; split; done | done].
Qed.

Lemma four_digit_run_run_at (name : string) (i : nat) :
  four_digit_run name i ↔ run_at None name i.
Proof.
  unfold four_digit_run, run_at.
  setoid_rewrite <- is_digit_true. setoid_rewrite <- is_digit_false.
  destruct i as [|i].
  - split.
    + intros ((c & Hi & _) & _). lia.
    + intros ((c & Hc & _) & _). discriminate.
  - replace (S i - 1)%nat with i by lia. split.
    + intros ((c & _ & Hc) & H). split; [by exists c | done].
    + intros ((c & Hc) & H). split; [exists c; split; [lia | done] | done].
Qed.

(** [int] reads the four digits of a run as the number they write. *)
Lemma int_number_at (name : string) (i : nat) :
  (∀ k, (k < 4)%nat → ∃ d, get (i + k) name = Some d ∧ is_Some (decimal_digit d)) →
  number_at name i (int (substring i 4 name)).
Proof.
  revert name. induction i as [|i IH]; intros name Hd.
  - destruct (Hd 0%nat) as (d0 & G0 & [n0 D0]); [lia|].
    destruct (Hd 1%nat) as (d1 & G1 & [n1 D1]); [lia|].
    destruct (Hd 2%nat) as (d2 & G2 & [n2 D2]); [lia|].
    destruct (Hd 3%nat) as (d3 & G3 & [n3 D3]); [lia|].
    destruct name as [|a [|b [|c [|d rest]]]]; try discriminate.
    cbn in G0, G1, G2, G3.
    injection G0 as ->. injection G1 as ->. injection G2 as ->. injection G3 as ->.
    exists n0, n1, n2, n3. cbn [get Nat.add mbind option_bind].
    rewrite D0, D1, D2, D3. repeat (split; [done|]).
    pose proof (decimal_digit_spec d0) as S0. rewrite D0 in S0.
    pose proof (decimal_digit_spec d1) as S1. rewrite D1 in S1.
    pose proof (decimal_digit_spec d2) as S2. rewrite D2 in S2.
    pose proof (decimal_digit_spec d3) as S3. rewrite D3 in S3.
    replace (substring 0 4 (String d0 (String d1 (String d2 (String d3 rest)))))
      with (String d0 (String d1 (String d2 (String d3 EmptyString))))
      by (by destruct rest).
    unfold int. cbn [int_from]. lia.
  - destruct name as [|c rest].
    + destruct (Hd 0%nat) as (d & G & _); [lia | discriminate].
    + destruct (IH rest) as (a & b & c' & d & Ha & Hb & Hc & Hdd & Hy).
      { intros k Hk. destruct (Hd k Hk) as (d & G & D). by exists d. }
      exists a, b, c', d. cbn [get Nat.add substring]. done.
Qed.

Lemma number_at_unique (name : string) (i : nat) (y y' : Z) :
  number_at name i y → number_at name i y' → y' = y.
Proof.
  intros (a & b & c & d & Ha & Hb & Hc & Hd & ->)
         (a' & b' & c' & d' & Ha' & Hb' & Hc' & Hd' & ->).
  congruence.
Qed.

(** The first match of the scan is the leftmost run, and there is no match
    exactly when there is no run. *)
Lemma first_match_spec (s : string) (prev : option ascii) :
  match first_match prev s with
  | Some m => ∃ i, run_at prev s i ∧ (∀ j, (j < i)%nat → ¬ run_at prev s j)
                   ∧ m = substring i 4 s
  | None => ∀ i, ¬ run_at prev s i
  end.
Proof.
  revert prev. induction s as [|c rest IH]; intros prev.
  - cbn. intros i (_ & Hd & _). destruct (Hd 0%nat) as (d & Hg & _); [lia|].
    destruct i; discriminate.
  - cbn [first_match]. destruct (match_here prev (String c rest)) as [m|] eqn:Hm.
    + exists 0%nat. split; [apply run_at_here; by eexists|].
      split; [intros j Hj; lia | by eapply match_here_substring].
    + specialize (IH (Some c)). destruct (first_match (Some c) rest) as [m|].
      * destruct IH as (i & Hrun & Hmin & ->). exists (S i).
        split; [by apply run_at_step|]. split; [|done].
        intros [|j] Hj.
        -- rewrite run_at_here, Hm. by intros [? ?].
        -- rewrite run_at_step. apply Hmin. lia.
      * intros [|i].
        -- rewrite run_at_here, Hm. by intros [? ?].
        -- rewrite run_at_step. apply IH.
Qed.

(** The vintage the script extracts from a name is the one the name
    embeds; [IndexError] is raised exactly for the names that embed none. *)
Lemma vintage_of_spec (name : string) :
  match vintage_of name with
  | Ok y => vintage name y ∧ ∀ y', vintage name y' → y' = y
  | Raise e => e = IndexError ∧ ∀ y, ¬ vintage name y
  end.
Proof.
  unfold vintage_of, findall.
  pose proof (head_findall_from None name) as Hh.
  pose proof (first_match_spec name None) as Hs.
  destruct (findall_from 0 None name) as [|m l]; cbn in Hh; rewrite <- Hh in Hs; cbn.
  - split; [done|]. intros y (i & Hrun & _). apply (Hs i).
    by apply four_digit_run_run_at.
  - destruct Hs as (i & Hrun & Hmin & ->).
    apply four_digit_run_run_at in Hrun.
    assert (number_at name i (int (substring i 4 name))) as Hnum
      by (apply int_number_at, Hrun).
    split.
    + exists i. split; [done|]. split; [|done].
      intros j Hj. rewrite four_digit_run_run_at. by apply Hmin.
    + intros y' (i' & Hrun' & Hmin' & Hnum').
      destruct (Nat.lt_trichotomy i i') as [Hlt|[->|Hlt]].
      * exfalso. by apply (Hmin' i Hlt).
      * by eapply number_at_unique.
      * exfalso. apply (Hmin i' Hlt). by apply four_digit_run_run_at.
Qed.

(** ** Line 31: [unique_years] *)

Lemma sorted_set_spec (ys : list Z) :
  Sorted Z.le (sorted_set ys) ∧ NoDup (sorted_set ys)
  ∧ ∀ y, y ∈ sorted_set ys ↔ y ∈ ys.
Proof.
  unfold sorted_set.
  pose proof (merge_sort_Permutation Z.le (elements (list_to_set ys : gset Z))) as P.
  split; [apply (Sorted_merge_sort Z.le)|].
  split.
  - rewrite P. apply NoDup_elements.
  - intros y. rewrite P, elem_of_elements. apply elem_of_list_to_set.
Qed.

Lemma elem_of_names (properties : list Row) (name : string) :
  name ∈ unique (map COMPANY_NAME properties)
  ↔ ∃ r, r ∈ properties ∧ COMPANY_NAME r = name.
Proof.
  rewrite elem_of_unique. change (map COMPANY_NAME properties) with (COMPANY_NAME <$> properties).
  rewrite list_elem_of_fmap. naive_solver.
Qed.

(** C5.  When every deal name embeds a vintage, the list offered in the
    vintage dropdown is ascending and free of duplicates, and a year is on
    it exactly when it is the vintage of a name of the table: the number
    written by the first four-digit run of the name that is preceded by a
    non-digit and followed by a non-digit or the end of the name.  When
    some name embeds none, no list is produced and [IndexError] is raised. *)
Theorem unique_years_spec (properties : list Row) :
  match unique_years properties with
  | Ok years =>
      Sorted Z.le years ∧ NoDup years
      ∧ ∀ y, y ∈ years ↔ ∃ r, r ∈ properties ∧ vintage (COMPANY_NAME r) y
  | Raise e =>
      e = IndexError ∧ ∃ r, r ∈ properties ∧ ∀ y, ¬ vintage (COMPANY_NAME r) y
  end.
Proof.
  unfold unique_years.
  pose proof (mapM_result vintage_of (unique (map COMPANY_NAME properties))) as M.
  destruct (mapM vintage_of _) as [ys|e]; cbn.
  - destruct (sorted_set_spec ys) as (Hs & Hn & Hin).
    split; [done|]. split; [done|]. intros y. rewrite Hin. split.
    + intros Hy. apply list_elem_of_lookup in Hy as [i Hi].
      destruct (Forall2_lookup_r _ _ _ _ _ M Hi) as (name & Hname & Hv).
      apply list_elem_of_lookup_2, elem_of_names in Hname as (r & Hr & <-).
      exists r. split; [done|].
      pose proof (vintage_of_spec (COMPANY_NAME r)) as V. rewrite Hv in V. apply V.
    + intros (r & Hr & Hv).
      assert (COMPANY_NAME r ∈ unique (map COMPANY_NAME properties)) as Hname
        by (apply elem_of_names; eauto).
      apply list_elem_of_lookup in Hname as [i Hi].
      destruct (Forall2_lookup_l _ _ _ _ _ M Hi) as (y' & Hy' & Hv').
      pose proof (vintage_of_spec (COMPANY_NAME r)) as V. rewrite Hv' in V.
      destruct V as [_ Huniq]. rewrite (Huniq y Hv).
      by eapply list_elem_of_lookup_2.
  - destruct M as (name & Hname & Hv).
    apply elem_of_names in Hname as (r & Hr & <-).
    pose proof (vintage_of_spec (COMPANY_NAME r)) as V. rewrite Hv in V.
    destruct V as [-> Hno]. split; [done|]. by exists r.
Qed.

Lemma unique_years_spec_witness :
  let row name := mkRow name Missing None "NY" None in
  let properties :=
    [row "BANK 2020-BNK25"; row "COMM 2019-GC2020"; row "DEAL 0007-A";
     row "BANK 2020-BNK25"; row "CSAIL 2018-C14"; row "WFCM 51234 2021"] in
  let unreadable := [row "BANK 2020-BNK25"; row "2019 COMM"] in
  unique_years properties = Ok [7; 2018; 2019; 2020; 2021]
  ∧ (Sorted Z.le [7; 2018; 2019; 2020; 2021] ∧ NoDup [7; 2018; 2019; 2020; 2021]
     ∧ ∀ y, y ∈ [7; 2018; 2019; 2020; 2021]
            ↔ ∃ r, r ∈ properties ∧ vintage (COMPANY_NAME r) y)
  ∧ unique_years unreadable = Raise IndexError
  ∧ ∃ r, r ∈ unreadable ∧ ∀ y, ¬ vintage (COMPANY_NAME r) y.
Proof.
  intros row properties unreadable.
  pose proof (unique_years_spec properties) as H.
  pose proof (unique_years_spec unreadable) as H'.
  assert (unique_years properties = Ok [7; 2018; 2019; 2020; 2021]) as E
    by (vm_compute; reflexivity).
  assert (unique_years unreadable = Raise IndexError) as E'
    by (vm_compute; reflexivity).
  rewrite E in H. rewrite E' in H'.
  split; [exact E|]. split; [exact H|]. split; [exact E' | exact (proj2 H')].
Defined.

(** C8.  A table with a deal name in which the pattern has no match makes
    line 31 raise [IndexError]; nothing handles it, so the run ends with
    that exception and produces no output, whatever is selected. *)
Theorem missing_pattern_is_fatal (properties : list Row) (r : Row)
    (selected_year : Z) (selected_company : string) :
  r ∈ properties →
  findall (COMPANY_NAME r) = [] →
  unique_years properties = Raise IndexError
  ∧ script properties selected_year selected_company = Raise IndexError.
Proof.
  intros Hr Hnone.
  assert (unique_years properties = Raise IndexError) as E.
  { unfold unique_years.
    rewrite (mapM_result_Raise vintage_of _ IndexError); [done| |].
    - intros name e _. unfold vintage_of.
      destruct (findall name); cbn; congruence.
    - exists (COMPANY_NAME r). split; [apply elem_of_names; eauto|].
      unfold vintage_of. by rewrite Hnone. }
  split; [done|]. unfold script. by rewrite E.
Qed.

Lemma missing_pattern_is_fatal_witness :
  let r := mkRow "Unnamed deal 20-1" Missing None "NY" None in
  let properties := [mkRow "BANK 2020-BNK25" Missing None "NY" None; r] in
  r ∈ properties
  ∧ findall (COMPANY_NAME r) = []
  ∧ unique_years properties = Raise IndexError
  ∧ script properties 2020 "BANK 2020-BNK25" = Raise IndexError.
Proof.
  intros r properties.
  assert (r ∈ properties) as Hr by (right; left).
  assert (findall (COMPANY_NAME r) = []) as Hnone by reflexivity.
  split; [exact Hr|]. split; [exact Hnone|].
  exact (missing_pattern_is_fatal properties r 2020 "BANK 2020-BNK25" Hr Hnone).
Defined.

(** ** Lines 51 to 62: cleaning *)

Lemma dropna_cleaning (rows : list Row) :
  dropna (map normalize (map fill_value rows))
  = map (fun r => normalize (fill_value r)) (dropna rows).
Proof.
  unfold dropna. induction rows as [|r rows IH]; [done|].
  cbn [map]. rewrite !filter_cons.
  change (has_date (normalize (fill_value r))) with (has_date r).
  destruct (decide (has_date r = true)); cbn [map]; by rewrite IH.
Qed.

(** A cast that goes through has cast every cell of the two columns and
    kept the other columns. *)
Lemma astype_rows (rows : list Row) (typed : list TypedRow) :
  astype rows = Ok typed →
  Forall2 (λ r r',
             company_name r' = COMPANY_NAME r
             ∧ to_datetime64 (REPORTINGPERIODENDDATE r) = Ok (reporting_date r')
             ∧ occupancy r' = PHYSICALOCCUPANCYSECURITIZATIONPERCENTAGE r
             ∧ property_state r' = PROPERTYSTATE r
             ∧ to_int64 (MOST_RECENT_VALUE r) = Ok (most_recent_value r'))
    rows typed.
Proof.
  unfold astype.
  pose proof (mapM_result (λ r, to_datetime64 (REPORTINGPERIODENDDATE r)) rows) as D.
  pose proof (mapM_result (λ r, to_int64 (MOST_RECENT_VALUE r)) rows) as V.
  destruct (mapM _ rows) as [dates|]; cbn; [|done].
  destruct (mapM _ rows) as [values|]; cbn; [|done].
  intros [= <-]. revert values V.
  induction D as [|r d rows dates Hd _ IH]; intros values V.
  - inversion V. constructor.
  - inversion V as [|? v ? values' Hv V']; subst. cbn. constructor; [done|].
    by apply IH.
Qed.

(** The date column is cast first: a date that cannot be parsed ends the
    cast in [ValueError], whatever the values are. *)
Lemma astype_unparseable (rows : list Row) (r : Row) (text : string) :
  r ∈ rows → REPORTINGPERIODENDDATE r = Unparseable text →
  astype rows = Raise ValueError.
Proof.
  intros Hr Ht. unfold astype.
  rewrite (mapM_result_Raise (λ r, to_datetime64 (REPORTINGPERIODENDDATE r)) rows
             ValueError); [done| |].
  - intros x e _. destruct (REPORTINGPERIODENDDATE x); cbn; congruence.
  - exists r. split; [done|]. by rewrite Ht.
Qed.

Lemma fillna_default {A} (v : A) (cell : option A) :
  fillna v cell = Some (default v cell).
Proof. by destruct cell. Qed.

(** The cleaned frame has one row for each row of the vintage that has a
    date, in the same order. *)
Lemma clean_rows (year_data : list Row) (cleaned : list TypedRow) :
  clean year_data = Ok cleaned →
  Forall2 cleaned_from (dropna year_data) cleaned.
Proof.
  unfold clean. rewrite dropna_cleaning. intros H.
  apply astype_rows in H.
  change (map ?f ?l) with (f <$> l) in H.
  apply Forall2_fmap_l in H.
  eapply Forall2_impl_elem; [exact H|].
  intros r r' Hr. cbn. intros (Hn & Hd & Ho & Hs & Hv).
  unfold dropna in Hr. apply list_elem_of_filter in Hr as [Hhas _].
  unfold cleaned_from, has_date in *. rewrite <- fillna_default.
  split; [done|]. split; [|done].
  destruct (REPORTINGPERIODENDDATE r) as [| |t]; [done|done|].
  exists t. split; [done|]. cbn in Hd. congruence.
Qed.

Lemma elem_of_shift_dates (rows : list TypedRow) (r' : TypedRow) :
  r' ∈ shift_dates rows ↔ ∃ r, r' = shift_row r ∧ r ∈ rows.
Proof. unfold shift_dates. change (map ?f ?l) with (f <$> l). apply list_elem_of_fmap. Qed.

Lemma elem_of_bank_data (rows : list TypedRow) (c : string) (r : TypedRow) :
  r ∈ bank_data rows c ↔ company_name r = c ∧ r ∈ rows.
Proof. unfold bank_data. by rewrite list_elem_of_filter. Qed.

(** The rows that reach an aggregation, in the deal series or in the
    vintage series, are cleaned rows with their dates shifted. *)
Lemma aggregated_rows (cleaned : list TypedRow) (c : string) (r' : TypedRow) :
  r' ∈ shift_dates cleaned ∨ r' ∈ shift_dates (bank_data cleaned c) →
  ∃ r, r' = shift_row r ∧ r ∈ cleaned.
Proof.
  rewrite !elem_of_shift_dates. intros [H|(r & -> & H)]; [done|].
  apply elem_of_bank_data in H. naive_solver.
Qed.

(** C6.  Line 59 removes from the rows of the vintage exactly those whose
    reporting date is missing.  The cast and the two aggregations come
    after it: the cleaned frame has one row, with the parsed date, for each
    row that had a date, and every row of the deal series and of the
    vintage series has a date. *)
Theorem rows_without_date_are_dropped (year_data : list Row) (cleaned : list TypedRow) :
  clean year_data = Ok cleaned →
  (∀ r, r ∈ dropna year_data ↔ r ∈ year_data ∧ REPORTINGPERIODENDDATE r ≠ Missing)
  ∧ Forall2 (λ r r', ∃ t, REPORTINGPERIODENDDATE r = Parsed t
                          ∧ reporting_date r' = Some t)
      (dropna year_data) cleaned
  ∧ ∀ c r', r' ∈ shift_dates cleaned ∨ r' ∈ shift_dates (bank_data cleaned c) →
            is_Some (reporting_date r').
Proof.
  intros H. pose proof (clean_rows _ _ H) as F. split; [|split].
  - intros r. unfold dropna, has_date. rewrite list_elem_of_filter.
    destruct (REPORTINGPERIODENDDATE r); naive_solver.
  - eapply Forall2_impl; [exact F|]. unfold cleaned_from. naive_solver.
  - intros c r' Hr'. apply aggregated_rows in Hr' as (r & -> & Hr).
    apply list_elem_of_lookup in Hr as [i Hi].
    destruct (Forall2_lookup_r _ _ _ _ _ F Hi) as (r0 & _ & _ & (t & _ & Ht) & _).
    cbn. rewrite Ht. by eexists.
Qed.

Lemma rows_without_date_are_dropped_witness :
  let t := mkTimestamp 2020 3 31 0 in
  let year_data :=
    [mkRow "BANK 2020-BNK25" (Parsed t) (Some (95 # 1)) "NY" (Some 100);
     mkRow "BANK 2020-BNK25" Missing (Some (1 # 2)) "CA" (Some 300)] in
  let cleaned := [mkTypedRow "BANK 2020-BNK25" (Some t) (Some ((95 # 1) / 100)%Q) "NY" 100] in
  clean year_data = Ok cleaned
  ∧ (∀ r, r ∈ dropna year_data ↔ r ∈ year_data ∧ REPORTINGPERIODENDDATE r ≠ Missing)
  ∧ Forall2 (λ r r', ∃ t, REPORTINGPERIODENDDATE r = Parsed t
                          ∧ reporting_date r' = Some t)
      (dropna year_data) cleaned
  ∧ ∀ c r', r' ∈ shift_dates cleaned ∨ r' ∈ shift_dates (bank_data cleaned c) →
            is_Some (reporting_date r').
Proof.
  intros t year_data cleaned.
  assert (clean year_data = Ok cleaned) as H by reflexivity.
  split; [exact H|].
  exact (rows_without_date_are_dropped year_data cleaned H).
Defined.

(** C7, as amended.  Line 52 puts 0 where MOST_RECENT_VALUE is missing and
    keeps every value that is present.  The cast of line 62 then keeps 0
    and every value of the int64 range: in the cleaned frame the row has 0
    in the first case and, when its value lies in that range, its original
    value in the second. *)
Theorem missing_value_defaults_to_zero (year_data : list Row) (cleaned : list TypedRow) :
  clean year_data = Ok cleaned →
  (∀ r, (MOST_RECENT_VALUE r = None → MOST_RECENT_VALUE (fill_value r) = Some 0)
        ∧ ∀ v, MOST_RECENT_VALUE r = Some v → MOST_RECENT_VALUE (fill_value r) = Some v)
  ∧ Forall2 (λ r r', (MOST_RECENT_VALUE r = None → most_recent_value r' = 0)
                     ∧ ∀ v, MOST_RECENT_VALUE r = Some v →
                            - 2 ^ 63 ≤ v < 2 ^ 63 → most_recent_value r' = v)
      (dropna year_data) cleaned.
Proof.
  intros H. split.
  - intros r. cbn. split; [intros ->; done | intros v ->; done].
  - eapply Forall2_impl; [exact (clean_rows _ _ H)|].
    intros r r' (_ & _ & _ & _ & Hv). split.
    + intros E. rewrite E in Hv.
      change (to_int64 (Some (default 0 None))) with (Ok 0 : result Z) in Hv.
      congruence.
    + intros v E Hrange. rewrite E in Hv.
      change (default 0 (Some v)) with v in Hv. unfold to_int64 in Hv.
      destruct (Z.leb_spec (- 2 ^ 63) v); [|lia].
      destruct (Z.ltb_spec v (2 ^ 63)); [|lia].
      cbn in Hv. congruence.
Qed.

Lemma missing_value_defaults_to_zero_witness :
  let t := mkTimestamp 2020 3 31 0 in
  let year_data :=
    [mkRow "BANK 2020-BNK25" (Parsed t) (Some (1 # 2)) "NY" None;
     mkRow "BANK 2020-BNK25" (Parsed t) (Some (1 # 2)) "CA" (Some 300);
     mkRow "BANK 2020-BNK25" (Parsed t) (Some (1 # 2)) "TX" (Some (-7));
     mkRow "BANK 2020-BNK25" (Parsed t) (Some (1 # 2)) "IL" (Some 4611686018427387904)] in
  let cleaned :=
    [mkTypedRow "BANK 2020-BNK25" (Some t) (Some (1 # 2)) "NY" 0;
     mkTypedRow "BANK 2020-BNK25" (Some t) (Some (1 # 2)) "CA" 300;
     mkTypedRow "BANK 2020-BNK25" (Some t) (Some (1 # 2)) "TX" (-7);
     mkTypedRow "BANK 2020-BNK25" (Some t) (Some (1 # 2)) "IL" 4611686018427387904] in
  clean year_data = Ok cleaned
  ∧ (∀ r, (MOST_RECENT_VALUE r = None → MOST_RECENT_VALUE (fill_value r) = Some 0)
          ∧ ∀ v, MOST_RECENT_VALUE r = Some v → MOST_RECENT_VALUE (fill_value r) = Some v)
  ∧ Forall2 (λ r r', (MOST_RECENT_VALUE r = None → most_recent_value r' = 0)
                     ∧ ∀ v, MOST_RECENT_VALUE r = Some v →
                            - 2 ^ 63 ≤ v < 2 ^ 63 → most_recent_value r' = v)
      (dropna year_data) cleaned.
Proof.
  intros t year_data cleaned.
  assert (clean year_data = Ok cleaned) as H by (vm_compute; reflexivity).
  split; [exact H|].
  exact (missing_value_defaults_to_zero year_data cleaned H).
Defined.

(** C7 as stated fails.  A value that is present but lies outside the
    int64 range does not keep its value through the cleaning: the cast of
    line 62 turns [2^63] into [-2^63], and on [3 * 10^19] it raises, so
    that no cleaned frame is left at all. *)
Lemma value_beyond_int64_is_not_kept :
  let t := mkTimestamp 2020 3 31 0 in
  let wrapped :=
    [mkRow "BANK 2020-BNK25" (Parsed t) (Some (1 # 2)) "NY" (Some 9223372036854775808);
     mkRow "BANK 2020-BNK25" (Parsed t) (Some (1 # 2)) "CA" (Some 300)] in
  let refused :=
    [mkRow "BANK 2020-BNK25" (Parsed t) (Some (1 # 2)) "NY" (Some 30000000000000000000);
     mkRow "BANK 2020-BNK25" (Parsed t) (Some (1 # 2)) "CA" (Some 300)] in
  clean wrapped
  = Ok [mkTypedRow "BANK 2020-BNK25" (Some t) (Some (1 # 2)) "NY" (-9223372036854775808);
        mkTypedRow "BANK 2020-BNK25" (Some t) (Some (1 # 2)) "CA" 300]
  ∧ ¬ (∀ cleaned, clean wrapped = Ok cleaned →
         Forall2 (λ r r', ∀ v, MOST_RECENT_VALUE r = Some v → most_recent_value r' = v)
           (dropna wrapped) cleaned)
  ∧ clean refused = Raise OverflowError.
Proof.
  intros t wrapped refused.
  assert (clean wrapped
          = Ok [mkTypedRow "BANK 2020-BNK25" (Some t) (Some (1 # 2)) "NY"
                  (-9223372036854775808);
                mkTypedRow "BANK 2020-BNK25" (Some t) (Some (1 # 2)) "CA" 300]) as H
    by (vm_compute; reflexivity).
  split; [exact H|]. split; [|vm_compute; reflexivity].
  intros Hall. specialize (Hall _ H).
  assert (dropna wrapped = wrapped) as E by reflexivity.
  rewrite E in Hall. unfold wrapped in Hall.
  apply Forall2_cons_1 in Hall as [Hv _].
  specialize (Hv _ eq_refl). discriminate Hv.
Qed.

(** The lambda of line 55 followed by [fillna(0)], on a value that is
    missing or lies between 0 and 100. *)
Lemma rescale_in_unit_interval (x : option Q) :
  (∀ q, x = Some q → 0 <= q <= 100)%Q →
  ∃ v, fillna 0%Q (rescale x) = Some v ∧ (0 <= v <= 1)%Q.
Proof.
  intros H. destruct x as [q|]; cbn.
  - destruct (H q eq_refl) as [H0 H100].
    destruct (Qle_bool q 1) eqn:E; cbn.
    + apply Qle_bool_iff in E. by exists q.
    + exists (q / 100)%Q. split; [done|]. split.
      * apply Qle_shift_div_l; [reflexivity|]. by rewrite Qmult_0_l.
      * apply Qle_shift_div_r; [reflexivity|]. by rewrite Qmult_1_l.
  - exists 0%Q. split; [done|]. split; discriminate.
Qed.

(** C3, as amended.  When the occupancy of every row of the vintage is
    missing or lies between 0 and 100, every row that reaches an
    aggregation has an occupancy between 0 and 1. *)
Theorem normalized_occupancy_in_unit_interval (year_data : list Row)
    (cleaned : list TypedRow) :
  clean year_data = Ok cleaned →
  (∀ r q, r ∈ year_data →
          PHYSICALOCCUPANCYSECURITIZATIONPERCENTAGE r = Some q → 0 <= q <= 100)%Q →
  ∀ c r', r' ∈ shift_dates cleaned ∨ r' ∈ shift_dates (bank_data cleaned c) →
          ∃ v, occupancy r' = Some v ∧ (0 <= v <= 1)%Q.
Proof.
  intros H Hrange c r' Hr'. apply aggregated_rows in Hr' as (r & -> & Hr).
  apply list_elem_of_lookup in Hr as [i Hi].
  destruct (Forall2_lookup_r _ _ _ _ _ (clean_rows _ _ H) Hi)
    as (r0 & Hr0 & _ & _ & Hocc & _).
  cbn. rewrite Hocc. apply rescale_in_unit_interval. intros q Hq.
  apply (Hrange r0); [|done].
  apply list_elem_of_lookup_2 in Hr0. unfold dropna in Hr0.
  apply list_elem_of_filter in Hr0. tauto.
Qed.

Lemma normalized_occupancy_in_unit_interval_witness :
  let t := mkTimestamp 2020 3 31 0 in
  let year_data :=
    [mkRow "BANK 2020-BNK25" (Parsed t) (Some (95 # 1)) "NY" (Some 100);
     mkRow "BANK 2020-BNK25" (Parsed t) None "TX" (Some 200);
     mkRow "BANK 2020-BNK25" (Parsed t) (Some (1 # 2)) "CA" (Some 300)] in
  let cleaned :=
    [mkTypedRow "BANK 2020-BNK25" (Some t) (Some ((95 # 1) / 100)%Q) "NY" 100;
     mkTypedRow "BANK 2020-BNK25" (Some t) (Some 0%Q) "TX" 200;
     mkTypedRow "BANK 2020-BNK25" (Some t) (Some (1 # 2)) "CA" 300] in
  clean year_data = Ok cleaned
  ∧ (∀ r q, r ∈ year_data →
            PHYSICALOCCUPANCYSECURITIZATIONPERCENTAGE r = Some q → 0 <= q <= 100)%Q
  ∧ ∀ c r', r' ∈ shift_dates cleaned ∨ r' ∈ shift_dates (bank_data cleaned c) →
            ∃ v, occupancy r' = Some v ∧ (0 <= v <= 1)%Q.
Proof.
  intros t year_data cleaned.
  assert (clean year_data = Ok cleaned) as H by reflexivity.
  assert (∀ r q, r ∈ year_data →
            PHYSICALOCCUPANCYSECURITIZATIONPERCENTAGE r = Some q → 0 <= q <= 100)%Q
    as Hrange.
  { intros r q Hr. unfold year_data in Hr.
    rewrite !elem_of_cons, elem_of_nil in Hr.
    destruct Hr as [->|[->|[->|[]]]]; cbn; intros [= <-]; split; discriminate. }
  split; [exact H|]. split; [exact Hrange|].
  exact (normalized_occupancy_in_unit_interval year_data cleaned H Hrange).
Defined.

(** C3 as stated fails: an occupancy of 250 is divided by 100 once and
    reaches both aggregations as 5/2, and a negative occupancy is kept as
    it is. *)
Lemma normalization_leaves_unit_interval :
  let t := mkTimestamp 2020 3 31 0 in
  let year_data :=
    [mkRow "BANK 2020-BNK25" (Parsed t) (Some (250 # 1)) "NY" (Some 100);
     mkRow "BANK 2020-BNK25" (Parsed t) (Some (-3 # 1)) "CA" (Some 300)] in
  ∃ cleaned r1 r2,
    clean year_data = Ok cleaned
    ∧ r1 ∈ shift_dates cleaned ∧ r1 ∈ shift_dates (bank_data cleaned "BANK 2020-BNK25")
    ∧ r2 ∈ shift_dates cleaned ∧ r2 ∈ shift_dates (bank_data cleaned "BANK 2020-BNK25")
    ∧ occupancy r1 = Some ((250 # 1) / 100)%Q ∧ ¬ ((250 # 1) / 100 <= 1)%Q
    ∧ occupancy r2 = Some (-3 # 1)%Q ∧ ¬ (0 <= -3 # 1)%Q.
Proof.
  intros t year_data.
  eexists _, (mkTypedRow _ _ _ "NY" _), (mkTypedRow _ _ _ "CA" _).
  split; [reflexivity|].
  split; [by left|]. split; [by left|].
  split; [by right; left|]. split; [by right; left|].
  split; [reflexivity|]. split; [by intros H; vm_compute in H|].
  split; [reflexivity|]. by intros H; vm_compute in H.
Qed.

(** ** Lines 67 to 91: grouping by the shifted date *)

Lemma sub_MonthBegin_later_day (t : Timestamp) :
  valid_date t → day t ≠ 1 → sub_MonthBegin t = first_of_month t.
Proof.
  destruct t as [y m d n]. unfold valid_date. cbn. intros [Hm Hd] Hd1.
  unfold sub_MonthBegin, add_MonthBegin, roll_convention, shift_month, first_of_month.
  cbn.
  destruct (Z.ltb_spec 1 d) as [_|?]; [|lia]. cbn.
  rewrite Z.add_0_r.
  destruct (Z.eq_dec m 12) as [->|Hne]; [vm_compute; by destruct y|].
  rewrite Z.div_small, Z.mod_small by lia.
  destruct (Z.eqb_spec m 0) as [?|_]; [lia|].
  by rewrite Z.add_0_r.
Qed.

Lemma sub_MonthBegin_first_day (t : Timestamp) :
  valid_date t → day t = 1 → sub_MonthBegin t = first_of_previous_month t.
Proof.
  destruct t as [y m d n]. unfold valid_date. cbn. intros [Hm _] ->.
  unfold sub_MonthBegin, add_MonthBegin, roll_convention, shift_month,
    first_of_previous_month.
  cbn.
  destruct (Z.eq_dec m 1) as [->|Hne]; [change (1 + -1) with 0; change (0 `mod` 12) with 0;
    change (0 `div` 12) with 0; cbn; f_equal; lia|].
  replace (m + -1) with (m - 1) by lia.
  rewrite Z.div_small, Z.mod_small by lia.
  destruct (Z.eqb_spec (m - 1) 0) as [?|_]; [lia|].
  destruct (Z.eqb_spec m 1) as [?|_]; [lia|].
  by rewrite Z.add_0_r.
Qed.

Lemma Timestamp_eq (a b : Timestamp) :
  a = b ↔ year a = year b ∧ month a = month b ∧ day a = day b ∧ nanos a = nanos b.
Proof.
  split; [by intros ->|].
  destruct a, b. cbn. by intros (-> & -> & -> & ->).
Qed.

Lemma ts_compare_spec (a b : Timestamp) :
  match ts_compare a b with
  | Lt => lex_lt a b
  | Eq => a = b
  | Gt => lex_lt b a
  end.
Proof.
  unfold ts_compare, lex_lt.
  destruct (Z.compare_spec (year a) (year b)); [|lia|lia].
  destruct (Z.compare_spec (month a) (month b)); [|lia|lia].
  destruct (Z.compare_spec (day a) (day b)); [|lia|lia].
  destruct (Z.compare_spec (nanos a) (nanos b)); [|lia|lia].
  by apply Timestamp_eq.
Qed.

Lemma lex_lt_irrefl (a b : Timestamp) : lex_lt a b → a ≠ b.
Proof. unfold lex_lt. intros H ->. lia. Qed.

Lemma lex_lt_asym (a b : Timestamp) : lex_lt a b → ¬ lex_lt b a.
Proof. unfold lex_lt. lia. Qed.

Lemma ts_lt_lex (a b : Timestamp) : ts_lt a b ↔ lex_lt a b.
Proof.
  unfold ts_lt. pose proof (ts_compare_spec a b) as H.
  destruct (ts_compare a b); split; try done.
  - intros L. subst. by apply lex_lt_irrefl in L.
  - intros L. by apply lex_lt_asym in L.
Qed.

Lemma ts_le_lex (a b : Timestamp) : ts_le a b ↔ lex_le a b.
Proof.
  unfold ts_le. pose proof (ts_compare_spec a b) as H.
  destruct (ts_compare a b); split; try done.
  - intros _. subst. unfold lex_le. lia.
  - intros _. revert H. unfold lex_lt, lex_le. lia.
  - intros L. exfalso. revert H L. unfold lex_lt, lex_le. lia.
Qed.

Lemma elem_of_group_keys (df : list TypedRow) (p : Timestamp) :
  p ∈ group_keys df ↔ ∃ r, r ∈ df ∧ reporting_date r = Some p.
Proof.
  unfold group_keys. rewrite merge_sort_Permutation, elem_of_unique.
  apply list_elem_of_omap.
Qed.

Lemma NoDup_group_keys (df : list TypedRow) : NoDup (group_keys df).
Proof. unfold group_keys. rewrite merge_sort_Permutation. apply NoDup_unique. Qed.

#[local] Instance ts_le_transitive : Transitive ts_le.
Proof. intros a b c. rewrite !ts_le_lex. unfold lex_le. lia. Qed.

#[local] Instance ts_le_total : Total ts_le.
Proof. intros a b. rewrite !ts_le_lex. unfold lex_le. lia. Qed.

Lemma group_keys_ascending (df : list TypedRow) : StronglySorted ts_lt (group_keys df).
Proof.
  pose proof (NoDup_group_keys df) as N.
  assert (StronglySorted ts_le (group_keys df)) as S
    by apply (StronglySorted_merge_sort ts_le).
  induction S as [|k ks _ IH Hk]; [constructor|].
  apply NoDup_cons in N as [Hnotin N]. constructor; [by apply IH|].
  rewrite Forall_forall in Hk. apply Forall_forall. intros k' Hk'.
  apply ts_lt_lex. specialize (Hk k' Hk'). apply ts_le_lex in Hk.
  assert (k ≠ k') as Hne by (intros ->; done).
  rewrite Timestamp_eq in Hne. revert Hk Hne. unfold lex_le, lex_lt. lia.
Qed.

Lemma elem_of_group (df : list TypedRow) (p : Timestamp) (r : TypedRow) :
  r ∈ group df p ↔ reporting_date r = Some p ∧ r ∈ df.
Proof. unfold group. by rewrite list_elem_of_filter. Qed.

(** The frame [apply] returns has one row per key, in key order, holding
    what the function returned for the group of the key. *)
Lemma groupby_apply_Ok {B} (f : list TypedRow → result B) (df : list TypedRow)
    (res : list (Timestamp * B)) :
  groupby_apply f df = Ok res →
  Forall2 (λ k kv, kv.1 = k ∧ f (group df k) = Ok kv.2) (group_keys df) res.
Proof.
  unfold groupby_apply. intros H.
  pose proof (mapM_result (λ k, v ← f (group df k); Ok (k, v)) (group_keys df)) as M.
  rewrite H in M. eapply Forall2_impl; [exact M|].
  intros k [k' v]. cbn. destruct (f (group df k)); cbn; [|done].
  by intros [= <- <-].
Qed.

Lemma groupby_apply_keys {B} (f : list TypedRow → result B) (df : list TypedRow)
    (res : list (Timestamp * B)) :
  groupby_apply f df = Ok res → map fst res = group_keys df.
Proof.
  intros H. apply groupby_apply_Ok in H.
  induction H as [|k kv ks res [Hk _] _ IH]; [done|].
  cbn. by rewrite Hk, IH.
Qed.

Lemma groupby_apply_lookup {B} (f : list TypedRow → result B) (df : list TypedRow)
    (res : list (Timestamp * B)) (p : Timestamp) :
  groupby_apply f df = Ok res →
  p ∈ group_keys df →
  ∃ v, (p, v) ∈ res ∧ f (group df p) = Ok v.
Proof.
  intros H Hp. apply groupby_apply_Ok in H.
  apply list_elem_of_lookup in Hp as [i Hi].
  destruct (Forall2_lookup_l _ _ _ _ _ H Hi) as ([k v] & Hkv & Hk & Hv).
  cbn in Hk, Hv. subst k. exists v. split; [|done].
  by eapply list_elem_of_lookup_2.
Qed.

Lemma groupby_apply_elem {B} (f : list TypedRow → result B) (df : list TypedRow)
    (res : list (Timestamp * B)) (p : Timestamp) (v : B) :
  groupby_apply f df = Ok res →
  (p, v) ∈ res →
  p ∈ group_keys df ∧ f (group df p) = Ok v.
Proof.
  intros H Hin. apply groupby_apply_Ok in H.
  apply list_elem_of_lookup in Hin as [i Hi].
  destruct (Forall2_lookup_r _ _ _ _ _ H Hi) as (k & Hk & Hk1 & Hk2).
  cbn in Hk1, Hk2. subst k. split; [by eapply list_elem_of_lookup_2 | done].
Qed.

(** Line 79 goes through exactly on a frame that has a row. *)
Lemma set_columns_Ok {A} (frame res : list A) :
  set_columns frame = Ok res ↔ res = frame ∧ frame ≠ [].
Proof. destruct frame; cbn; split; [done|intros [_ ?]; done|intros [= <-]; done|]. by intros [-> _]. Qed.

(** Lines 72 to 79 go through when the grouped average does and there is
    a group. *)
Lemma bank_weighted_occupancy_inv (df : list TypedRow)
    (res : list (Timestamp * option Q)) :
  bank_weighted_occupancy df = Ok res
  ↔ groupby_apply
      (λ x, np_average (map occupancy x) (map most_recent_value x)) df = Ok res
    ∧ group_keys df ≠ [].
Proof.
  unfold bank_weighted_occupancy.
  destruct (groupby_apply _ df) as [frame|e] eqn:E; cbn.
  - pose proof (groupby_apply_keys _ _ _ E) as K.
    rewrite set_columns_Ok. split.
    + intros [-> Hne]. split; [done|]. rewrite <- K. by destruct frame.
    + intros [[= ->] Hne]. split; [done|]. intros ->. by apply Hne.
  - split; [done | by intros [? _]].
Qed.

(** The dates of a shifted series: the dates of the series, each one
    MonthBegin back. *)
Lemma shifted_group_keys (rows : list TypedRow) (p : Timestamp) :
  p ∈ group_keys (shift_dates rows)
  ↔ ∃ r t, r ∈ rows ∧ reporting_date r = Some t ∧ p = sub_MonthBegin t.
Proof.
  rewrite elem_of_group_keys. split.
  - intros (r' & Hr' & Hd). apply elem_of_shift_dates in Hr' as (r & -> & Hr).
    cbn in Hd. destruct (reporting_date r) as [t|] eqn:E; [|done].
    cbn in Hd. injection Hd as <-. by exists r, t.
  - intros (r & t & Hr & Hd & ->). exists (shift_row r). split.
    + apply elem_of_shift_dates. by exists r.
    + cbn. by rewrite Hd.
Qed.

(** C10, as amended.  One MonthBegin back, a date that is not on the first
    of its month becomes the first of that month and a date on the first of
    a month becomes the first of the month before.  The keys of both
    aggregations, for the deal series and for the vintage series, are these
    shifted dates.  Two dates of the same month, neither of them on the
    first and both at the same time of day, get the same key and so fall
    into one period. *)
Theorem periods_are_shifted_month_starts (cleaned : list TypedRow) (c : string) :
  (∀ t, valid_date t →
        (day t ≠ 1 → sub_MonthBegin t = first_of_month t)
        ∧ (day t = 1 → sub_MonthBegin t = first_of_previous_month t))
  ∧ (∀ p, p ∈ group_keys (shift_dates (bank_data cleaned c))
          ↔ ∃ r t, r ∈ bank_data cleaned c ∧ reporting_date r = Some t
                   ∧ p = sub_MonthBegin t)
  ∧ (∀ p, p ∈ group_keys (shift_dates cleaned)
          ↔ ∃ r t, r ∈ cleaned ∧ reporting_date r = Some t ∧ p = sub_MonthBegin t)
  ∧ (∀ res, bank_weighted_occupancy (shift_dates (bank_data cleaned c)) = Ok res →
            map fst res = group_keys (shift_dates (bank_data cleaned c)))
  ∧ (∀ res, percentiles (shift_dates cleaned) = Ok res →
            map fst res = group_keys (shift_dates cleaned))
  ∧ (∀ a b, valid_date a → valid_date b → same_month a b → nanos a = nanos b →
            day a ≠ 1 → day b ≠ 1 → sub_MonthBegin a = sub_MonthBegin b).
Proof.
  split; [|split; [|split; [|split; [|split]]]].
  - intros t Ht. split; intros Hd.
    + by apply sub_MonthBegin_later_day.
    + by apply sub_MonthBegin_first_day.
  - intros p. apply shifted_group_keys.
  - intros p. apply shifted_group_keys.
  - intros res [Hres _]%bank_weighted_occupancy_inv. by eapply groupby_apply_keys.
  - intros res. apply groupby_apply_keys.
  - intros a b Ha Hb (Hy & Hm) Hn Hda Hdb.
    rewrite !sub_MonthBegin_later_day by done.
    unfold first_of_month. by rewrite Hy, Hm, Hn.
Qed.

Lemma periods_are_shifted_month_starts_witness :
  let a := mkTimestamp 2020 3 15 0 in
  let b := mkTimestamp 2020 3 31 0 in
  let cleaned :=
    [mkTypedRow "BANK 2020-BNK25" (Some a) (Some (1 # 2)) "NY" 100;
     mkTypedRow "BANK 2020-BNK25" (Some b) (Some (3 # 4)) "CA" 300] in
  (valid_date a ∧ valid_date b ∧ same_month a b ∧ nanos a = nanos b
   ∧ day a ≠ 1 ∧ day b ≠ 1)
  ∧ sub_MonthBegin a = sub_MonthBegin b
  ∧ bank_weighted_occupancy (shift_dates (bank_data cleaned "BANK 2020-BNK25"))
    = Ok [(mkTimestamp 2020 3 1 0, Some (((1 # 2) * 100 + ((3 # 4) * 300 + 0)) / 400)%Q)].
Proof.
  intros a b cleaned.
  assert (valid_date a) as Ha by (unfold valid_date; cbn; lia).
  assert (valid_date b) as Hb by (unfold valid_date; cbn; lia).
  assert (same_month a b) as Hs by done.
  assert (nanos a = nanos b) as Hn by done.
  assert (day a ≠ 1) as Hda by (cbn; lia).
  assert (day b ≠ 1) as Hdb by (cbn; lia).
  split; [done|]. split; [|reflexivity].
  apply (periods_are_shifted_month_starts cleaned "BANK 2020-BNK25"); assumption.
Defined.

(** C10 as stated fails.  The first and the fifteenth of March 2020 are
    two dates of the same month, yet one MonthBegin back they are the first
    of February and the first of March, and their rows form two periods.
    The offset also keeps the time of day: the fifteenth at midnight and the
    twentieth at noon become the first of March at midnight and at noon, two
    keys again. *)
Lemma same_month_dates_not_merged :
  let a := mkTimestamp 2020 3 1 0 in
  let b := mkTimestamp 2020 3 15 0 in
  let b' := mkTimestamp 2020 3 20 43200000000000 in
  let frame x y :=
    [mkTypedRow "BANK 2020-BNK25" (Some x) (Some (1 # 2)) "NY" 100;
     mkTypedRow "BANK 2020-BNK25" (Some y) (Some (3 # 4)) "CA" 300] in
  (a ≠ b ∧ valid_date a ∧ valid_date b ∧ same_month a b
   ∧ group_keys (vintage_series (frame a b))
     = [mkTimestamp 2020 2 1 0; mkTimestamp 2020 3 1 0]
   ∧ group_keys (deal_series (frame a b) "BANK 2020-BNK25")
     = [mkTimestamp 2020 2 1 0; mkTimestamp 2020 3 1 0])
  ∧ (b ≠ b' ∧ valid_date b' ∧ same_month b b' ∧ day b ≠ 1 ∧ day b' ≠ 1
     ∧ group_keys (vintage_series (frame b b'))
       = [mkTimestamp 2020 3 1 0; mkTimestamp 2020 3 1 43200000000000]
     ∧ group_keys (deal_series (frame b b') "BANK 2020-BNK25")
       = [mkTimestamp 2020 3 1 0; mkTimestamp 2020 3 1 43200000000000]).
Proof.
  intros a b b' frame. unfold valid_date, same_month.
  split; (split; [discriminate|]); cbn [year month day nanos];
    repeat split; first [lia | discriminate | vm_compute; reflexivity].
Qed.

(** ** Lines 72 to 79: the weighted occupancy of the deal *)

Lemma all_Some_map {A} (l : list (option A)) :
  (∀ x, x ∈ l → is_Some x) → ∃ xs, l = map Some xs.
Proof.
  induction l as [|x l IH]; intros H.
  - by exists [].
  - destruct (H x) as [a ->]; [by left|].
    destruct IH as [xs ->]; [intros y Hy; apply H; by right|].
    by exists (a :: xs).
Qed.

(** The products summed by [np.average], on an array without NaN. *)
Lemma fsum_products (xs : list Q) (ws : list Z) :
  length xs = length ws →
  ∃ s, fsum (zip_with (λ x w, (λ q, q * inject_Z w)%Q <$> x) (map Some xs) ws) = Some s
       ∧ (s == foldr Qplus 0 (map (λ row, inject_Z row.1 * row.2) (zip ws xs)))%Q.
Proof.
  revert ws. induction xs as [|x xs IH]; intros [|w ws] Hlen; try discriminate.
  - exists 0%Q. split; reflexivity.
  - destruct (IH ws) as (s & Hs & Es); [by injection Hlen|].
    exists (x * inject_Z w + s)%Q. split.
    + cbn. cbn in Hs. by rewrite Hs.
    + cbn. rewrite Es. ring.
Qed.

Lemma np_average_weighted_mean (xs : list Q) (ws : list Z) :
  length xs = length ws →
  foldr Z.add 0 ws ≠ 0 →
  ∃ v, np_average (map Some xs) ws = Ok (Some v) ∧ (v == weighted_mean (zip ws xs))%Q.
Proof.
  intros Hlen Hsum. unfold np_average.
  destruct (Z.eqb_spec (foldr Z.add 0 ws) 0) as [?|_]; [done|].
  destruct (fsum_products xs ws Hlen) as (s & -> & Es).
  eexists. split; [reflexivity|].
  unfold weighted_mean. rewrite Es.
  replace (map fst (zip ws xs)) with ws; [reflexivity|].
  symmetry. change (map fst (zip ws xs)) with ((zip ws xs).*1).
  apply fst_zip. lia.
Qed.

Lemma np_average_zero_weights (a : list (option Q)) (ws : list Z) :
  foldr Z.add 0 ws = 0 → np_average a ws = Raise ZeroDivisionError.
Proof. intros H. unfold np_average. by rewrite H. Qed.

Lemma np_average_raises (a : list (option Q)) (ws : list Z) (e : Exception) :
  np_average a ws = Raise e → e = ZeroDivisionError.
Proof. unfold np_average. destruct (_ =? 0); congruence. Qed.

(** After cleaning no occupancy is NaN, whatever the series. *)
Lemma cleaned_occupancy (year_data : list Row) (cleaned : list TypedRow) (r : TypedRow) :
  clean year_data = Ok cleaned → r ∈ cleaned → is_Some (occupancy r).
Proof.
  intros H Hr. apply list_elem_of_lookup in Hr as [i Hi].
  destruct (Forall2_lookup_r _ _ _ _ _ (clean_rows _ _ H) Hi)
    as (r0 & _ & _ & _ & -> & _).
  destruct (rescale _); by eexists.
Qed.

Lemma group_occupancies (year_data : list Row) (cleaned series : list TypedRow)
    (c : string) (p : Timestamp) :
  clean year_data = Ok cleaned →
  series = shift_dates cleaned ∨ series = shift_dates (bank_data cleaned c) →
  ∃ xs, map occupancy (group series p) = map Some xs.
Proof.
  intros H Hs. apply all_Some_map. intros x Hx.
  change (map ?f ?l) with (f <$> l) in Hx.
  apply list_elem_of_fmap in Hx as (r' & -> & Hr').
  apply elem_of_group in Hr' as [_ Hr'].
  destruct (aggregated_rows cleaned c r') as (r & -> & Hr).
  { destruct Hs as [->| ->]; [by left | by right]. }
  cbn. by eapply cleaned_occupancy.
Qed.

Lemma percentiles_Ok (df : list TypedRow) : ∃ res, percentiles df = Ok res.
Proof.
  unfold percentiles, groupby_apply. apply mapM_result_Ok.
  intros k _. by eexists.
Qed.

Lemma cleaned_row_origin (year_data : list Row) (cleaned : list TypedRow) (r' : TypedRow) :
  clean year_data = Ok cleaned → r' ∈ cleaned →
  ∃ r, r ∈ year_data ∧ cleaned_from r r'.
Proof.
  intros H Hr'. apply list_elem_of_lookup in Hr' as [i Hi].
  destruct (Forall2_lookup_r _ _ _ _ _ (clean_rows _ _ H) Hi) as (r & Hr & Hc).
  exists r. split; [|done].
  apply list_elem_of_lookup_2 in Hr. unfold dropna in Hr.
  apply list_elem_of_filter in Hr. tauto.
Qed.

Lemma cleaned_row_exists (year_data : list Row) (cleaned : list TypedRow)
    (r : Row) (t : Timestamp) :
  clean year_data = Ok cleaned → r ∈ year_data →
  REPORTINGPERIODENDDATE r = Parsed t →
  ∃ r', r' ∈ cleaned ∧ cleaned_from r r'.
Proof.
  intros H Hr Ht.
  assert (r ∈ dropna year_data) as Hd.
  { unfold dropna, has_date. apply list_elem_of_filter. by rewrite Ht. }
  apply list_elem_of_lookup in Hd as [i Hi].
  destruct (Forall2_lookup_l _ _ _ _ _ (clean_rows _ _ H) Hi) as (r' & Hr' & Hc).
  exists r'. split; [by eapply list_elem_of_lookup_2 | done].
Qed.

Lemma total_weight_zero (rows : list TypedRow) :
  (∀ r, r ∈ rows → most_recent_value r = 0) → total_weight rows = 0.
Proof.
  unfold total_weight, weights. induction rows as [|r rows IH]; intros H; [done|].
  cbn. rewrite (H r), IH; [done| |by left].
  intros r' Hr'. apply H. by right.
Qed.

(** The vintage dropdown, with its default index 2, needs three vintages. *)
Lemma selectbox_default_2 {A} (options : list A) (selected : A) :
  (3 ≤ length options)%nat → selectbox options 2 selected = Ok selected.
Proof.
  intros H. unfold selectbox. rewrite bool_decide_eq_false_2; [done|]. lia.
Qed.

(** The company dropdown, with the default index 0, never raises. *)
Lemma selectbox_default_0 {A} (options : list A) (selected : A) :
  selectbox options 0 selected = Ok selected.
Proof.
  unfold selectbox. rewrite bool_decide_eq_false_2; [done|].
  intros [Hne Hlen]. destruct options; [by apply Hne | cbn in Hlen; lia].
Qed.

Lemma selectbox_Ok {A} (options : list A) (index : nat) (selected x : A) :
  selectbox options index selected = Ok x → x = selected.
Proof. unfold selectbox. destruct (bool_decide _); congruence. Qed.

(** The run, once line 31, the dropdowns and the cleaning have gone
    through: it ends as the weighted occupancy of the deal series does. *)
Lemma script_after_cleaning (properties : list Row) (selected_year : Z)
    (selected_company : string) (years : list Z) (cleaned : list TypedRow) :
  unique_years properties = Ok years →
  (3 ≤ length years)%nat →
  clean (year_data properties selected_year) = Ok cleaned →
  match bank_weighted_occupancy (deal_series cleaned selected_company) with
  | Ok bwo =>
      ∃ out, script properties selected_year selected_company = Ok out
             ∧ out_bank_weighted_occupancy out = bwo
             ∧ percentiles (vintage_series cleaned) = Ok (out_percentiles out)
  | Raise e => script properties selected_year selected_company = Raise e
  end.
Proof.
  intros Hy H3 Hc. unfold script. rewrite Hy. cbn.
  rewrite (selectbox_default_2 years selected_year H3). cbn.
  rewrite selectbox_default_0. cbn. rewrite Hc. cbn.
  fold (deal_series cleaned selected_company). fold (vintage_series cleaned).
  destruct (bank_weighted_occupancy _) as [bwo|e]; cbn; [|done].
  destruct (percentiles_Ok (vintage_series cleaned)) as [pct ->]. cbn.
  by eexists.
Qed.

(** What a completed run has computed. *)
Lemma script_Ok (properties : list Row) (selected_year : Z)
    (selected_company : string) (out : Output) :
  script properties selected_year selected_company = Ok out →
  ∃ cleaned,
    unique_years properties = Ok (out_unique_years out)
    ∧ clean (year_data properties selected_year) = Ok cleaned
    ∧ bank_weighted_occupancy (deal_series cleaned selected_company)
      = Ok (out_bank_weighted_occupancy out)
    ∧ percentiles (vintage_series cleaned) = Ok (out_percentiles out).
Proof.
  unfold script.
  destruct (unique_years properties) as [years|]; cbn; [|done].
  destruct (selectbox years 2 selected_year) as [y|] eqn:Hy; cbn; [|done].
  apply selectbox_Ok in Hy as ->.
  rewrite selectbox_default_0. cbn.
  destruct (clean (year_data properties selected_year)) as [cleaned|]; cbn; [|done].
  fold (deal_series cleaned selected_company). fold (vintage_series cleaned).
  destruct (bank_weighted_occupancy _) as [bwo|] eqn:Hb; cbn; [|done].
  destruct (percentiles _) as [pct|] eqn:Hp; cbn; [|done].
  intros [= <-]. by exists cleaned.
Qed.

(** The rows of a period in a shifted series are the rows of the series
    whose date, one MonthBegin back, is the period. *)
Lemma group_shift_dates (rows : list TypedRow) (p : Timestamp) :
  group (shift_dates rows) p = shift_dates (period_rows rows p).
Proof.
  unfold group, shift_dates, period_rows.
  induction rows as [|r rows IH]; [done|].
  cbn [map]. rewrite !filter_cons.
  change (reporting_date (shift_row r)) with (period_of r).
  destruct (decide (period_of r = Some p)); cbn [map]; by rewrite IH.
Qed.

Lemma occupancy_shift_dates (rows : list TypedRow) :
  map occupancy (shift_dates rows) = map occupancy rows.
Proof. unfold shift_dates. by rewrite map_map. Qed.

Lemma weights_shift_dates (rows : list TypedRow) :
  map most_recent_value (shift_dates rows) = map most_recent_value rows.
Proof. unfold shift_dates. by rewrite map_map. Qed.

Lemma elem_of_period_keys (rows : list TypedRow) (p : Timestamp) :
  p ∈ group_keys (shift_dates rows) ↔ ∃ r, r ∈ rows ∧ period_of r = Some p.
Proof.
  rewrite shifted_group_keys. unfold period_of. split.
  - intros (r & t & Hr & Ht & ->). exists r. by rewrite Ht.
  - intros (r & Hr & Hp). destruct (reporting_date r) as [t|] eqn:E; [|done].
    injection Hp as <-. by exists r, t.
Qed.

Lemma elem_of_period_rows (rows : list TypedRow) (p : Timestamp) (r : TypedRow) :
  r ∈ period_rows rows p ↔ period_of r = Some p ∧ r ∈ rows.
Proof. unfold period_rows. by rewrite list_elem_of_filter. Qed.

Lemma period_rows_nonempty (rows : list TypedRow) (p : Timestamp) :
  period_rows rows p ≠ [] ↔ ∃ r, r ∈ rows ∧ period_of r = Some p.
Proof.
  split.
  - intros Hne. destruct (period_rows rows p) as [|r l] eqn:E; [done|].
    assert (r ∈ period_rows rows p) as Hr by (rewrite E; left).
    apply elem_of_period_rows in Hr. exists r. tauto.
  - intros (r & Hr & Hp) E.
    assert (r ∈ period_rows rows p) as Hin by (by apply elem_of_period_rows).
    rewrite E in Hin. by apply elem_of_nil in Hin.
Qed.

(** The occupancies of the cleaned rows are numbers. *)
Lemma period_occupancies (year_data : list Row) (cleaned rows : list TypedRow)
    (p : Timestamp) :
  clean year_data = Ok cleaned →
  (∀ r, r ∈ rows → r ∈ cleaned) →
  ∃ xs, map occupancy (period_rows rows p) = map Some xs.
Proof.
  intros H Hsub. apply all_Some_map. intros x Hx.
  change (map ?f ?l) with (f <$> l) in Hx.
  apply list_elem_of_fmap in Hx as (r & -> & Hr).
  apply elem_of_period_rows in Hr as [_ Hr].
  eapply cleaned_occupancy; [done | by apply Hsub].
Qed.

(** A cleaned row has a date, hence a period. *)
Lemma cleaned_period (year_data : list Row) (cleaned : list TypedRow) (r : TypedRow) :
  clean year_data = Ok cleaned → r ∈ cleaned → is_Some (period_of r).
Proof.
  intros H Hr. apply list_elem_of_lookup in Hr as [i Hi].
  destruct (Forall2_lookup_r _ _ _ _ _ (clean_rows _ _ H) Hi)
    as (r0 & _ & _ & (t & _ & Ht) & _).
  unfold period_of. rewrite Ht. by eexists.
Qed.

(** C1, as amended.  When the selected deal has a cleaned row and in no
    reporting period of the deal the weights sum to zero, lines 72 to 79
    produce one weighted occupancy for every reporting period of the
    deal's cleaned rows, the periods in ascending order, and it is the sum
    over the period's rows of MOST_RECENT_VALUE times the normalized
    occupancy, divided by the sum of MOST_RECENT_VALUE.  This frame is the
    one a completed run hands to the chart, and with three vintages to
    choose from the run does complete. *)
Theorem weighted_occupancy_is_weighted_mean (properties : list Row)
    (selected_year : Z) (selected_company : string) (cleaned : list TypedRow) :
  clean (year_data properties selected_year) = Ok cleaned →
  deal_rows cleaned selected_company ≠ [] →
  (∀ p, period_rows (deal_rows cleaned selected_company) p ≠ [] →
        total_weight (period_rows (deal_rows cleaned selected_company) p) ≠ 0) →
  ∃ res,
    bank_weighted_occupancy (deal_series cleaned selected_company) = Ok res
    ∧ (∀ out, script properties selected_year selected_company = Ok out →
              out_bank_weighted_occupancy out = res)
    ∧ (∀ years, unique_years properties = Ok years → (3 ≤ length years)%nat →
                ∃ out, script properties selected_year selected_company = Ok out)
    ∧ StronglySorted ts_lt (map fst res)
    ∧ (∀ p, p ∈ map fst res
            ↔ ∃ r, r ∈ deal_rows cleaned selected_company ∧ period_of r = Some p)
    ∧ ∀ p v, (p, v) ∈ res →
        ∃ xs q,
          map occupancy (period_rows (deal_rows cleaned selected_company) p)
          = map Some xs
          ∧ v = Some q
          ∧ (q == weighted_mean
                    (zip (weights (period_rows (deal_rows cleaned selected_company) p))
                         xs))%Q.
Proof.
  intros Hc Hne Hw.
  set (deal := deal_rows cleaned selected_company) in *.
  set (bank := deal_series cleaned selected_company).
  assert (bank = shift_dates deal) as Hbank by reflexivity.
  assert (∀ r, r ∈ deal → r ∈ cleaned) as Hsub.
  { intros r Hr. unfold deal, deal_rows in Hr. apply list_elem_of_filter in Hr. tauto. }
  assert (∀ p, p ∈ group_keys bank ↔ ∃ r, r ∈ deal ∧ period_of r = Some p) as Hkeys.
  { intros p. rewrite Hbank. apply elem_of_period_keys. }
  assert (∀ p, p ∈ group_keys bank →
            ∃ xs q, map occupancy (period_rows deal p) = map Some xs
                    ∧ np_average (map occupancy (group bank p))
                        (map most_recent_value (group bank p)) = Ok (Some q)
                    ∧ (q == weighted_mean (zip (weights (period_rows deal p)) xs))%Q)
    as Havg.
  { intros p Hp.
    destruct (period_occupancies _ cleaned deal p Hc Hsub) as [xs Hxs].
    rewrite Hbank, group_shift_dates, occupancy_shift_dates, weights_shift_dates, Hxs.
    destruct (np_average_weighted_mean xs (weights (period_rows deal p))) as (q & Hq & Eq).
    - unfold weights. rewrite <- (length_map Some xs), <- Hxs. by rewrite !length_map.
    - apply Hw, period_rows_nonempty, Hkeys, Hp.
    - by exists xs, q. }
  assert (∃ res, groupby_apply
                   (λ x, np_average (map occupancy x) (map most_recent_value x)) bank
                 = Ok res) as [res Hg].
  { unfold groupby_apply. apply mapM_result_Ok.
    intros p Hp. destruct (Havg p Hp) as (xs & q & _ & -> & _). by eexists. }
  assert (bank_weighted_occupancy bank = Ok res) as Hb.
  { apply bank_weighted_occupancy_inv. split; [done|].
    destruct deal as [|r l] eqn:E; [done|].
    destruct (cleaned_period _ _ r Hc) as [p Hp]; [apply Hsub; left|].
    assert (p ∈ group_keys bank) as Hin by (apply Hkeys; exists r; split; [left|done]).
    intros E'. rewrite E' in Hin. by apply elem_of_nil in Hin. }
  pose proof (groupby_apply_keys _ _ _ Hg) as Hk.
  exists res. split; [done|]. split; [|split; [|split; [|split]]].
  - intros out Hout. apply script_Ok in Hout as (cleaned' & _ & Hc' & Hb' & _).
    rewrite Hc in Hc'. injection Hc' as <-. fold bank in Hb'. congruence.
  - intros years Hy H3.
    pose proof (script_after_cleaning _ selected_year selected_company _ _ Hy H3 Hc) as S.
    fold bank in S. rewrite Hb in S. destruct S as (out & Hout & _). by exists out.
  - rewrite Hk. apply group_keys_ascending.
  - intros p. rewrite Hk. apply Hkeys.
  - intros p v Hin.
    destruct (groupby_apply_elem _ _ _ p v Hg Hin) as [Hp Hv].
    destruct (Havg p Hp) as (xs & q & Hxs & Hq & Eq).
    rewrite Hq in Hv. injection Hv as <-. by exists xs, q.
Qed.

Lemma weighted_occupancy_is_weighted_mean_witness :
  let c := "BANK 2020-BNK25" in
  let properties :=
    ([mkRow c (Parsed (mkTimestamp 2020 4 30 0)) None "TX" (Some 50);
      mkRow c (Parsed (mkTimestamp 2020 3 31 0)) (Some (95 # 1)) "NY" (Some 100);
      mkRow "COMM 2020-X1" (Parsed (mkTimestamp 2020 3 31 0)) (Some (10 # 1)) "NY" (Some 7);
      mkRow c (Parsed (mkTimestamp 2020 4 1 0)) (Some (1 # 2)) "CA" (Some 300);
      mkRow c (Parsed (mkTimestamp 2020 4 15 0)) (Some (80 # 1)) "IL" (Some 150)]
     ++ older_deals)%list in
  let cleaned :=
    [mkTypedRow c (Some (mkTimestamp 2020 4 30 0)) (Some 0%Q) "TX" 50;
     mkTypedRow c (Some (mkTimestamp 2020 3 31 0)) (Some ((95 # 1) / 100)%Q) "NY" 100;
     mkTypedRow "COMM 2020-X1" (Some (mkTimestamp 2020 3 31 0))
       (Some ((10 # 1) / 100)%Q) "NY" 7;
     mkTypedRow c (Some (mkTimestamp 2020 4 1 0)) (Some (1 # 2)) "CA" 300;
     mkTypedRow c (Some (mkTimestamp 2020 4 15 0)) (Some ((80 # 1) / 100)%Q) "IL" 150] in
  let march := mkTimestamp 2020 3 1 0 in
  let april := mkTimestamp 2020 4 1 0 in
  clean (year_data properties 2020) = Ok cleaned
  ∧ deal_rows cleaned c ≠ []
  ∧ (∀ p, period_rows (deal_rows cleaned c) p ≠ [] →
          total_weight (period_rows (deal_rows cleaned c) p) ≠ 0)
  ∧ unique_years properties = Ok [2018; 2019; 2020]
  ∧ ∃ res v_march v_april,
      bank_weighted_occupancy (deal_series cleaned c) = Ok res
      ∧ res = [(march, Some v_march); (april, Some v_april)]
      ∧ (v_march == 6125 # 10000)%Q ∧ (v_april == 6 # 10)%Q
      ∧ (∃ out, script properties 2020 c = Ok out
                ∧ out_bank_weighted_occupancy out = res)
      ∧ StronglySorted ts_lt (map fst res)
      ∧ (∀ p, p ∈ map fst res ↔ ∃ r, r ∈ deal_rows cleaned c ∧ period_of r = Some p)
      ∧ ∀ p v, (p, v) ∈ res →
          ∃ xs q,
            map occupancy (period_rows (deal_rows cleaned c) p) = map Some xs
            ∧ v = Some q
            ∧ (q == weighted_mean (zip (weights (period_rows (deal_rows cleaned c) p)) xs))%Q.
Proof.
  intros c properties cleaned march april.
  assert (clean (year_data properties 2020) = Ok cleaned) as Hc by (vm_compute; reflexivity).
  assert (deal_rows cleaned c ≠ []) as Hne by (by vm_compute).
  assert (∀ p, period_rows (deal_rows cleaned c) p ≠ [] →
               total_weight (period_rows (deal_rows cleaned c) p) ≠ 0) as Hw.
  { intros p Hp. apply period_rows_nonempty in Hp as (r & Hr & Hp).
    assert (deal_rows cleaned c
            = [mkTypedRow c (Some (mkTimestamp 2020 4 30 0)) (Some 0%Q) "TX" 50;
               mkTypedRow c (Some (mkTimestamp 2020 3 31 0)) (Some ((95 # 1) / 100)%Q)
                 "NY" 100;
               mkTypedRow c (Some (mkTimestamp 2020 4 1 0)) (Some (1 # 2)) "CA" 300;
               mkTypedRow c (Some (mkTimestamp 2020 4 15 0)) (Some ((80 # 1) / 100)%Q)
                 "IL" 150]) as E by (vm_compute; reflexivity).
    rewrite E in Hr |- *. rewrite !elem_of_cons, elem_of_nil in Hr.
    destruct Hr as [->|[->|[->|[->|[]]]]]; vm_compute in Hp; injection Hp as <-;
      vm_compute; discriminate. }
  assert (unique_years properties = Ok [2018; 2019; 2020]) as Hy
    by (vm_compute; reflexivity).
  split; [exact Hc|]. split; [exact Hne|]. split; [exact Hw|]. split; [exact Hy|].
  destruct (weighted_occupancy_is_weighted_mean properties 2020 c cleaned Hc Hne Hw)
    as (res & Hres & Hout & Hrun & Hsorted & Hkeys & Hmean).
  assert (bank_weighted_occupancy (deal_series cleaned c)
          = Ok [(march, Some ((((95 # 1) / 100) * 100 + ((1 # 2) * 300 + 0)) / 400)%Q);
                (april, Some ((0 * 50 + (((80 # 1) / 100) * 150 + 0)) / 200)%Q)]) as E
    by (vm_compute; reflexivity).
  rewrite Hres in E. injection E as E.
  exists res, ((((95 # 1) / 100) * 100 + ((1 # 2) * 300 + 0)) / 400)%Q,
    ((0 * 50 + (((80 # 1) / 100) * 150 + 0)) / 200)%Q.
  split; [exact Hres|]. split; [exact E|].
  split; [reflexivity|]. split; [reflexivity|].
  split.
  { destruct (Hrun [2018; 2019; 2020] Hy) as [out Ho]; [cbn; lia|].
    exists out. split; [exact Ho | exact (Hout out Ho)]. }
  split; [exact Hsorted|]. split; [exact Hkeys | exact Hmean].
Defined.

(** C1 as stated fails.  In the first table the deal has a period whose
    weight is 100 and a later period whose only value is missing: no
    weighted occupancy is computed for the first period either, the run
    ends in [ZeroDivisionError].  In the second table the two weights of
    the only period are not all zero but sum to zero, and the run ends the
    same way. *)
Lemma weights_not_all_zero_do_not_suffice :
  let c := "BANK 2020-BNK25" in
  let first :=
    ([mkRow c (Parsed (mkTimestamp 2020 3 31 0)) (Some (95 # 1)) "NY" (Some 100);
     mkRow c (Parsed (mkTimestamp 2020 4 30 0)) (Some (90 # 1)) "CA" None]
     ++ older_deals)%list in
  let second :=
    ([mkRow c (Parsed (mkTimestamp 2020 3 31 0)) (Some (95 # 1)) "NY" (Some 5);
     mkRow c (Parsed (mkTimestamp 2020 3 31 0)) (Some (90 # 1)) "CA" (Some (-5))]
     ++ older_deals)%list in
  (∃ cleaned,
     clean (year_data first 2020) = Ok cleaned
     ∧ weights (group (deal_series cleaned c) (mkTimestamp 2020 3 1 0)) = [100]
     ∧ bank_weighted_occupancy (deal_series cleaned c) = Raise ZeroDivisionError
     ∧ script first 2020 c = Raise ZeroDivisionError)
  ∧ (∃ cleaned,
       clean (year_data second 2020) = Ok cleaned
       ∧ weights (group (deal_series cleaned c) (mkTimestamp 2020 3 1 0)) = [5; -5]
       ∧ bank_weighted_occupancy (deal_series cleaned c) = Raise ZeroDivisionError
       ∧ script second 2020 c = Raise ZeroDivisionError).
Proof.
  intros c first second.
  split; eexists; (split; [vm_compute; reflexivity|]); repeat split;
    vm_compute; reflexivity.
Qed.

(** ** The unguarded division *)

(** C9.  When line 31, the dropdowns and the cleaning go through and, in
    some reporting period, every row of the selected deal has a missing or
    zero MOST_RECENT_VALUE, the weights of that period sum to zero after
    the fill, [np.average] raises and, nothing guarding the call, the run
    ends in [ZeroDivisionError] instead of returning a value. *)
Theorem zero_weights_raise (properties : list Row) (selected_year : Z)
    (selected_company : string) (years : list Z) (cleaned : list TypedRow)
    (p : Timestamp) :
  unique_years properties = Ok years →
  (3 ≤ length years)%nat →
  clean (year_data properties selected_year) = Ok cleaned →
  (∃ r t, r ∈ year_data properties selected_year
          ∧ COMPANY_NAME r = selected_company
          ∧ REPORTINGPERIODENDDATE r = Parsed t ∧ sub_MonthBegin t = p) →
  (∀ r t, r ∈ year_data properties selected_year →
          COMPANY_NAME r = selected_company →
          REPORTINGPERIODENDDATE r = Parsed t → sub_MonthBegin t = p →
          MOST_RECENT_VALUE r = None ∨ MOST_RECENT_VALUE r = Some 0) →
  p ∈ group_keys (deal_series cleaned selected_company)
  ∧ total_weight (group (deal_series cleaned selected_company) p) = 0
  ∧ bank_weighted_occupancy (deal_series cleaned selected_company)
    = Raise ZeroDivisionError
  ∧ script properties selected_year selected_company = Raise ZeroDivisionError.
Proof.
  intros Hy H3 Hc (r & t & Hr & Hname & Ht & Hp) Hzero.
  set (bank := deal_series cleaned selected_company).
  assert (p ∈ group_keys bank) as Hkey.
  { apply shifted_group_keys.
    destruct (cleaned_row_exists _ _ r t Hc Hr Ht)
      as (r' & Hr' & Hn' & (t' & Ht' & Hd') & _).
    exists r', t'. split; [apply elem_of_bank_data; split; congruence|].
    split; [done|]. congruence. }
  assert (total_weight (group bank p) = 0) as Hsum.
  { apply total_weight_zero. intros r2 Hr2.
    apply elem_of_group in Hr2 as [Hd2 Hr2].
    apply elem_of_shift_dates in Hr2 as (r1 & -> & Hr1).
    apply elem_of_bank_data in Hr1 as [Hn1 Hr1].
    destruct (cleaned_row_origin _ _ r1 Hc Hr1)
      as (r0 & Hr0 & Hn0 & (t0 & Ht0 & Hd0) & _ & _ & Hv0).
    cbn in Hd2. rewrite Hd0 in Hd2. cbn in Hd2. injection Hd2 as Hd2.
    cbn.
    assert (to_int64 (Some (default 0 (MOST_RECENT_VALUE r0))) = Ok 0) as E.
    { destruct (Hzero r0 t0 Hr0) as [-> | ->]; [congruence|done|done|done|done]. }
    congruence. }
  assert (bank_weighted_occupancy bank = Raise ZeroDivisionError) as Hb.
  { unfold bank_weighted_occupancy, groupby_apply.
    rewrite (mapM_result_Raise _ _ ZeroDivisionError); [done| |].
    - intros k e _. destruct (np_average _ _) eqn:E; cbn; [done|].
      intros [= <-]. by eapply np_average_raises.
    - exists p. split; [done|].
      rewrite np_average_zero_weights; [done|]. exact Hsum. }
  split; [done|]. split; [done|]. split; [done|].
  pose proof (script_after_cleaning _ selected_year selected_company _ _ Hy H3 Hc) as S.
  fold bank in S. by rewrite Hb in S.
Qed.

Lemma zero_weights_raise_witness :
  let c := "BANK 2020-BNK25" in
  let properties :=
    ([mkRow c (Parsed (mkTimestamp 2020 3 31 0)) (Some (95 # 1)) "NY" (Some 100);
     mkRow c (Parsed (mkTimestamp 2020 4 30 0)) (Some (90 # 1)) "CA" None;
     mkRow c (Parsed (mkTimestamp 2020 4 15 0)) (Some (80 # 1)) "TX" (Some 0)]
     ++ older_deals)%list in
  let cleaned :=
    [mkTypedRow c (Some (mkTimestamp 2020 3 31 0)) (Some ((95 # 1) / 100)%Q) "NY" 100;
     mkTypedRow c (Some (mkTimestamp 2020 4 30 0)) (Some ((90 # 1) / 100)%Q) "CA" 0;
     mkTypedRow c (Some (mkTimestamp 2020 4 15 0)) (Some ((80 # 1) / 100)%Q) "TX" 0] in
  let p := mkTimestamp 2020 4 1 0 in
  unique_years properties = Ok [2018; 2019; 2020]
  ∧ clean (year_data properties 2020) = Ok cleaned
  ∧ (∃ r t, r ∈ year_data properties 2020 ∧ COMPANY_NAME r = c
            ∧ REPORTINGPERIODENDDATE r = Parsed t ∧ sub_MonthBegin t = p)
  ∧ (∀ r t, r ∈ year_data properties 2020 → COMPANY_NAME r = c →
            REPORTINGPERIODENDDATE r = Parsed t → sub_MonthBegin t = p →
            MOST_RECENT_VALUE r = None ∨ MOST_RECENT_VALUE r = Some 0)
  ∧ script properties 2020 c = Raise ZeroDivisionError.
Proof.
  intros c properties cleaned p.
  assert (unique_years properties = Ok [2018; 2019; 2020]) as Hy
    by (vm_compute; reflexivity).
  assert (3 ≤ length [2018; 2019; 2020])%nat as H3 by (cbn; lia).
  assert (clean (year_data properties 2020) = Ok cleaned) as Hc by (vm_compute; reflexivity).
  assert (year_data properties 2020
          = [mkRow c (Parsed (mkTimestamp 2020 3 31 0)) (Some (95 # 1)) "NY" (Some 100);
             mkRow c (Parsed (mkTimestamp 2020 4 30 0)) (Some (90 # 1)) "CA" None;
             mkRow c (Parsed (mkTimestamp 2020 4 15 0)) (Some (80 # 1)) "TX" (Some 0)])
    as Hyd by (vm_compute; reflexivity).
  assert (∃ r t, r ∈ year_data properties 2020 ∧ COMPANY_NAME r = c
            ∧ REPORTINGPERIODENDDATE r = Parsed t ∧ sub_MonthBegin t = p) as Hex.
  { rewrite Hyd. eexists _, _. split; [right; left|]. by vm_compute. }
  assert (∀ r t, r ∈ year_data properties 2020 → COMPANY_NAME r = c →
            REPORTINGPERIODENDDATE r = Parsed t → sub_MonthBegin t = p →
            MOST_RECENT_VALUE r = None ∨ MOST_RECENT_VALUE r = Some 0) as Hzero.
  { intros r t Hr _. rewrite Hyd in Hr.
    rewrite !elem_of_cons, elem_of_nil in Hr.
    destruct Hr as [->|[->|[->|[]]]]; cbn; intros [= <-]; vm_compute; intros E;
      (discriminate E || (by left) || (by right)). }
  split; [exact Hy|]. split; [exact Hc|]. split; [exact Hex|]. split; [exact Hzero|].
  apply (zero_weights_raise properties 2020 c [2018; 2019; 2020] cleaned p
           Hy H3 Hc Hex Hzero).
Defined.

(** ** Lines 84 to 91: the percentile bands of the vintage *)

#[local] Instance Qle_transitive : Transitive Qle := Qle_trans.

#[local] Instance Qle_total : Total Qle.
Proof.
  intros x y. destruct (Qlt_le_dec x y); [left; by apply Qlt_le_weak | by right].
Qed.

Lemma Forall2_Qeq_refl (l : list Q) : Forall2 Qeq l l.
Proof. induction l; constructor; [reflexivity | done]. Qed.

Lemma Forall2_Qeq_trans (l1 l2 l3 : list Q) :
  Forall2 Qeq l1 l2 → Forall2 Qeq l2 l3 → Forall2 Qeq l1 l3.
Proof.
  intros H. revert l3. induction H as [|x y l1 l2 Hxy _ IH]; intros l3 H3.
  - by inversion H3.
  - inversion H3 as [|y' z l2' l3' Hyz H3']; subst. constructor.
    + by rewrite Hxy.
    + by apply IH.
Qed.

(** Moving an element through a run of elements equal to it. *)
Lemma Forall2_Qeq_shift (l l' : list Q) (a b : Q) :
  b == a → (∀ x, x ∈ l → x == a) →
  Forall2 Qeq (b :: l ++ l') (l ++ a :: l').
Proof.
  revert b. induction l as [|x l IH]; intros b Hb Hl; cbn.
  - constructor; [done | apply Forall2_Qeq_refl].
  - assert (x == a) as Hx by (apply Hl; by left).
    constructor; [by rewrite Hb, Hx|].
    apply IH; [done|]. intros y Hy. apply Hl. by right.
Qed.

(** The ascending arrangements of a sample agree rank by rank. *)
Lemma ascending_unique (s1 s2 : list Q) :
  StronglySorted Qle s1 → StronglySorted Qle s2 → s1 ≡ₚ s2 →
  Forall2 Qeq s1 s2.
Proof.
  revert s2. induction s1 as [|a s1 IH]; intros s2 H1 H2 P.
  - apply Permutation_nil_l in P as <-. constructor.
  - destruct s2 as [|b s2]; [by apply Permutation_nil_r in P|].
    apply StronglySorted_cons in H1 as [Ha H1].
    pose proof H2 as H2'. apply StronglySorted_cons in H2' as [Hb H2'].
    rewrite Forall_forall in Ha, Hb.
    assert (a ∈ b :: s2) as Hab by (rewrite <- P; by left).
    assert (b ∈ a :: s1) as Hba by (rewrite P; by left).
    assert (a == b) as Eab.
    { apply elem_of_cons in Hab as [->|Hab]; [reflexivity|].
      apply elem_of_cons in Hba as [->|Hba]; [reflexivity|].
      apply Qle_antisym; auto. }
    apply elem_of_cons in Hab as [->|Hab].
    + constructor; [reflexivity|]. apply IH; [done|done|].
      by apply Permutation_cons_inv in P.
    + apply list_elem_of_split in Hab as (l & l' & ->).
      assert (s1 ≡ₚ b :: l ++ l') as P'.
      { apply (Permutation_cons_inv (a := a)). rewrite P.
        rewrite (Permutation_middle (b :: l) l' a). done. }
      assert (StronglySorted Qle (b :: l ++ l')) as H3.
      { apply StronglySorted_cons. apply StronglySorted_app in H2' as (Hll' & Hl & Hl').
        apply StronglySorted_cons in Hl' as [Hal' Hl'].
        split.
        - rewrite Forall_forall. intros x Hx. apply Hb.
          rewrite elem_of_app in Hx. rewrite elem_of_app, elem_of_cons. tauto.
        - apply StronglySorted_app. split; [|done].
          intros x1 x2 Hx1 Hx2. apply Hll'; [done|]. by right. }
      constructor; [done|].
      eapply Forall2_Qeq_trans; [apply (IH _ H1 H3 P')|].
      apply Forall2_Qeq_shift; [by symmetry|].
      intros x Hx. apply Qle_antisym.
      * apply StronglySorted_app in H2' as (Hll' & _ & _).
        apply Hll'; [done | by left].
      * rewrite Eab. apply Hb. rewrite elem_of_app. by left.
Qed.

Lemma nth_Forall2_Qeq (l1 l2 : list Q) (i : nat) (d1 d2 : Q) :
  Forall2 Qeq l1 l2 → (i < length l1)%nat → nth i l1 d1 == nth i l2 d2.
Proof.
  intros H. revert i. induction H as [|x y l1 l2 Hxy _ IH]; intros i Hi; cbn in Hi.
  - lia.
  - destruct i as [|i]; cbn; [done|]. apply IH. lia.
Qed.

Lemma lerp_linear (a b t : Q) : lerp a b t == a + t * (b - a).
Proof. unfold lerp. destruct (Qle_bool (1 # 2) t); ring. Qed.

Lemma virtual_index_bounds (n : Z) (p : Q) :
  1 ≤ n → (0 <= p <= 100)%Q →
  (0 <= inject_Z (n - 1) * (p / 100) <= inject_Z (n - 1))%Q.
Proof.
  intros Hn [H0 H100].
  assert (0 <= inject_Z (n - 1))%Q as Hn'.
  { change 0%Q with (inject_Z 0). rewrite <- Zle_Qle. lia. }
  assert (0 <= p / 100 <= 1)%Q as [Hq0 Hq1].
  { split; [apply Qle_shift_div_l | apply Qle_shift_div_r]; try reflexivity; lra. }
  split; nra.
Qed.

(** numpy's quantile is the percentile by linear interpolation, whichever
    ascending arrangement of the sample the latter is read from. *)
Lemma quantile_percentile_reference (xs s : list Q) (p : Q) :
  xs ≠ [] → (0 <= p <= 100)%Q → Sorted Qle s → s ≡ₚ xs →
  quantile xs (p / 100) == percentile_reference s p.
Proof.
  intros Hne Hp Hs P.
  assert (Forall2 Qeq (merge_sort Qle xs) s) as F.
  { apply ascending_unique.
    - apply (StronglySorted_merge_sort Qle).
    - apply Sorted_StronglySorted; [exact Qle_trans | done].
    - by rewrite merge_sort_Permutation. }
  assert (length (merge_sort Qle xs) = length xs) as Lm
    by (apply Permutation_length, merge_sort_Permutation).
  assert (length s = length xs) as Ls by (by apply Permutation_length).
  assert (1 ≤ Z.of_nat (length xs)) as Hn by (destruct xs; [done | cbn; lia]).
  unfold quantile, percentile_reference. rewrite Ls.
  set (n := Z.of_nat (length xs)) in *.
  destruct (virtual_index_bounds n p Hn Hp) as [Hh0 Hhn].
  set (h := (inject_Z (n - 1) * (p / 100))%Q) in *.
  assert (0 ≤ Qfloor h) as Hj0.
  { change 0 with (Qfloor 0). by apply Qfloor_resp_le. }
  rewrite lerp_linear.
  assert (Qle_bool 0 h = true) as -> by (by apply Qle_bool_iff).
  cbn [negb].
  destruct (Qle_bool (inject_Z (n - 1)) h) eqn:A.
  - apply Qle_bool_iff in A.
    assert (h == inject_Z (n - 1)) as Eh by (by apply Qle_antisym).
    assert (Qfloor h = n - 1) as Ej by (rewrite Eh; apply Qfloor_Z).
    rewrite Ej.
    unfold item. rewrite Lm. fold n. cbn [Z.ltb Z.compare].
    replace (n + -1) with (n - 1) by lia.
    rewrite (nth_overflow s (n := S (Z.to_nat (n - 1)))) by lia.
    rewrite (nth_Forall2_Qeq _ _ _ 0%Q 0%Q F) by lia.
    ring.
  - assert (h < inject_Z (n - 1))%Q as A'.
    { apply Qnot_le_lt. intros H. apply Qle_bool_iff in H. congruence. }
    assert (Qfloor h < n - 1) as Hj.
    { rewrite Zlt_Qlt. eapply Qle_lt_trans; [apply Qfloor_le | done]. }
    unfold item.
    destruct (Z.ltb_spec (Qfloor h) 0) as [?|_]; [lia|].
    destruct (Z.ltb_spec (Qfloor h + 1) 0) as [?|_]; [lia|].
    replace (Z.to_nat (Qfloor h + 1)) with (S (Z.to_nat (Qfloor h))) by lia.
    rewrite (nth_indep s (n := S (Z.to_nat (Qfloor h))) _ 0%Q) by lia.
    rewrite (nth_Forall2_Qeq _ _ (Z.to_nat (Qfloor h)) 0%Q 0%Q F) by lia.
    rewrite (nth_Forall2_Qeq _ _ (S (Z.to_nat (Qfloor h))) 0%Q 0%Q F) by lia.
    reflexivity.
Qed.

Lemma np_percentile_reference (xs s : list Q) (p : Q) :
  xs ≠ [] → (0 <= p <= 100)%Q → Sorted Qle s → s ≡ₚ xs →
  ∃ v, np_percentile (map Some xs) p = Some v ∧ v == percentile_reference s p.
Proof.
  intros Hne Hp Hs P. exists (quantile xs (p / 100)). split.
  - unfold np_percentile. change (map Some xs) with (Some <$> xs).
    by rewrite (mapM_fmap_Some id Some xs).
  - by apply quantile_percentile_reference.
Qed.

(** C2.  Once the rows of the selected vintage are cleaned, lines 84 to 91
    yield one row of bands for every reporting period of the cleaned rows,
    the periods in ascending order, and its p25, p50 and p75 are the 25th,
    50th and 75th percentiles, by linear interpolation, of the normalized
    occupancies of the period's rows; a completed run hands exactly this
    frame to the chart. *)
Theorem percentile_bands_match_reference (properties : list Row)
    (selected_year : Z) (cleaned : list TypedRow) :
  clean (year_data properties selected_year) = Ok cleaned →
  ∃ res,
    percentiles (vintage_series cleaned) = Ok res
    ∧ (∀ selected_company out,
         script properties selected_year selected_company = Ok out →
         out_percentiles out = res)
    ∧ StronglySorted ts_lt (map fst res)
    ∧ (∀ p, p ∈ map fst res ↔ ∃ r, r ∈ cleaned ∧ period_of r = Some p)
    ∧ ∀ p bands, (p, bands) ∈ res →
        ∃ xs a b c,
          map occupancy (period_rows cleaned p) = map Some xs
          ∧ bands = mkBands (Some a) (Some b) (Some c)
          ∧ ∀ s, Sorted Qle s → s ≡ₚ xs →
                 a == percentile_reference s 25
                 ∧ b == percentile_reference s 50
                 ∧ c == percentile_reference s 75.
Proof.
  intros Hc. set (series := vintage_series cleaned).
  assert (series = shift_dates cleaned) as Hseries by reflexivity.
  destruct (percentiles_Ok series) as [res Hres]. exists res.
  pose proof (groupby_apply_keys _ _ _ Hres) as Hk.
  split; [done|]. split; [|split; [|split]].
  - intros c out Hout. apply script_Ok in Hout as (cleaned' & _ & Hc' & _ & Hp').
    rewrite Hc in Hc'. injection Hc' as <-. fold series in Hp'. congruence.
  - rewrite Hk. apply group_keys_ascending.
  - intros p. rewrite Hk, Hseries. apply elem_of_period_keys.
  - intros p bands Hin.
    destruct (groupby_apply_elem _ _ _ p bands Hres Hin) as [Hp Hb].
    rewrite Hseries, group_shift_dates, occupancy_shift_dates in Hb.
    destruct (period_occupancies _ cleaned cleaned p Hc) as [xs Hxs]; [done|].
    assert (xs ≠ []) as Hne.
    { rewrite Hseries in Hp. apply elem_of_period_keys, period_rows_nonempty in Hp.
      intros ->. by destruct (period_rows cleaned p). }
    rewrite Hxs in Hb. injection Hb as <-.
    exists xs, (quantile xs (25 / 100)), (quantile xs (50 / 100)),
      (quantile xs (75 / 100)).
    split; [done|]. split.
    + unfold np_percentile. change (map Some xs) with (Some <$> xs).
      by rewrite (mapM_fmap_Some id Some xs).
    + intros s Hs P.
      split; [|split]; apply quantile_percentile_reference; try done;
        split; discriminate.
Qed.

Lemma percentile_bands_match_reference_witness :
  let properties :=
    [mkRow "BANK 2020-BNK25" (Parsed (mkTimestamp 2020 4 30 0)) (Some (60 # 1)) "NY" (Some 5);
     mkRow "BANK 2020-BNK25" (Parsed (mkTimestamp 2020 3 31 0)) (Some (95 # 1)) "NY" (Some 100);
     mkRow "BANK 2020-BNK25" (Parsed (mkTimestamp 2020 3 31 0)) (Some (1 # 2)) "CA" (Some 300);
     mkRow "COMM 2020-X1" (Parsed (mkTimestamp 2020 3 15 0)) None "TX" (Some 50);
     mkRow "COMM 2020-X1" (Parsed (mkTimestamp 2020 4 1 0)) (Some (80 # 1)) "TX" None;
     mkRow "COMM 2020-X1" (Parsed (mkTimestamp 2020 4 2 0)) (Some (20 # 1)) "TX" None;
     mkRow "COMM 2019-X1" (Parsed (mkTimestamp 2020 3 31 0)) (Some (1 # 4)) "NY" None;
     mkRow "CSAIL 2018-C14" (Parsed (mkTimestamp 2020 3 31 0)) (Some (70 # 1)) "IL"
       (Some 40)] in
  let cleaned :=
    [mkTypedRow "BANK 2020-BNK25" (Some (mkTimestamp 2020 4 30 0))
       (Some ((60 # 1) / 100)%Q) "NY" 5;
     mkTypedRow "BANK 2020-BNK25" (Some (mkTimestamp 2020 3 31 0))
       (Some ((95 # 1) / 100)%Q) "NY" 100;
     mkTypedRow "BANK 2020-BNK25" (Some (mkTimestamp 2020 3 31 0)) (Some (1 # 2)) "CA" 300;
     mkTypedRow "COMM 2020-X1" (Some (mkTimestamp 2020 3 15 0)) (Some 0%Q) "TX" 50;
     mkTypedRow "COMM 2020-X1" (Some (mkTimestamp 2020 4 1 0))
       (Some ((80 # 1) / 100)%Q) "TX" 0;
     mkTypedRow "COMM 2020-X1" (Some (mkTimestamp 2020 4 2 0))
       (Some ((20 # 1) / 100)%Q) "TX" 0] in
  let march := mkTimestamp 2020 3 1 0 in
  let april := mkTimestamp 2020 4 1 0 in
  clean (year_data properties 2020) = Ok cleaned
  ∧ ∃ res a b c a' b' c',
      percentiles (vintage_series cleaned) = Ok res
      ∧ res = [(march, mkBands (Some a) (Some b) (Some c));
               (april, mkBands (Some a') (Some b') (Some c'))]
      ∧ (a == 375 # 1000 ∧ b == 65 # 100 ∧ c == 8375 # 10000)
      ∧ (a' == 3 # 10 ∧ b' == 4 # 10 ∧ c' == 5 # 10)
      ∧ (∀ selected_company out,
           script properties 2020 selected_company = Ok out →
           out_percentiles out = res)
      ∧ StronglySorted ts_lt (map fst res)
      ∧ (∀ p, p ∈ map fst res ↔ ∃ r, r ∈ cleaned ∧ period_of r = Some p)
      ∧ ∀ p bands, (p, bands) ∈ res →
          ∃ xs a b c,
            map occupancy (period_rows cleaned p) = map Some xs
            ∧ bands = mkBands (Some a) (Some b) (Some c)
            ∧ ∀ s, Sorted Qle s → s ≡ₚ xs →
                   a == percentile_reference s 25
                   ∧ b == percentile_reference s 50
                   ∧ c == percentile_reference s 75.
Proof.
  intros properties cleaned march april.
  assert (clean (year_data properties 2020) = Ok cleaned) as Hc by (vm_compute; reflexivity).
  split; [exact Hc|].
  destruct (percentile_bands_match_reference properties 2020 cleaned Hc)
    as (res & Hres & Hout & Hsorted & Hkeys & Hbands).
  set (xs := [((95 # 1) / 100)%Q; 1 # 2; 0%Q; ((80 # 1) / 100)%Q]).
  set (ys := [((60 # 1) / 100)%Q; ((20 # 1) / 100)%Q]).
  assert (percentiles (vintage_series cleaned)
          = Ok [(march, mkBands (Some (quantile xs (25 / 100)))
                                (Some (quantile xs (50 / 100)))
                                (Some (quantile xs (75 / 100))));
                (april, mkBands (Some (quantile ys (25 / 100)))
                                (Some (quantile ys (50 / 100)))
                                (Some (quantile ys (75 / 100))))]) as E
    by (vm_compute; reflexivity).
  rewrite Hres in E. injection E as E.
  exists res, (quantile xs (25 / 100)), (quantile xs (50 / 100)),
    (quantile xs (75 / 100)), (quantile ys (25 / 100)), (quantile ys (50 / 100)),
    (quantile ys (75 / 100)).
  split; [exact Hres|]. split; [exact E|].
  split; [repeat split; vm_compute; reflexivity|].
  split; [repeat split; vm_compute; reflexivity|].
  split; [exact Hout|]. split; [exact Hsorted|]. split; [exact Hkeys | exact Hbands].
Defined.

(** The bands of that run, computed: over the occupancies 0.95, 0.5, 0 and
    0.8 of March 2020 they are 0.375, 0.65 and 0.8375. *)
Example percentile_bands_computed :
  let xs : list Q := [95 # 100; 1 # 2; 0%Q; 8 # 10] in
  percentiles
    [mkTypedRow "BANK 2020-BNK25" (Some (mkTimestamp 2020 3 1 0)) (Some (95 # 100)) "NY" 100;
     mkTypedRow "BANK 2020-BNK25" (Some (mkTimestamp 2020 3 1 0)) (Some (1 # 2)) "CA" 300;
     mkTypedRow "COMM 2020-X1" (Some (mkTimestamp 2020 3 1 0)) (Some 0%Q) "TX" 50;
     mkTypedRow "COMM 2020-X1" (Some (mkTimestamp 2020 3 1 0)) (Some (8 # 10)) "TX" 0]
  = Ok [(mkTimestamp 2020 3 1 0,
         mkBands (Some (quantile xs (25 / 100)))
                 (Some (quantile xs (50 / 100)))
                 (Some (quantile xs (75 / 100))))]
  ∧ quantile xs (25 / 100) == 375 # 1000
  ∧ quantile xs (50 / 100) == 65 # 100
  ∧ quantile xs (75 / 100) == 8375 # 10000.
Proof. repeat split; vm_compute; reflexivity. Qed.

(** ** Line 40: the rows of the selected vintage *)

(** What line 40 keeps: the rows whose name contains the digits of the
    selected year, wherever they stand in the name. *)
Lemma elem_of_year_data (properties : list Row) (selected_year : Z) (r : Row) :
  r ∈ year_data properties selected_year
  ↔ r ∈ properties ∧ contains (str selected_year) (COMPANY_NAME r) = true.
Proof. unfold year_data. rewrite list_elem_of_filter. tauto. Qed.

(** C4 fails on the code.  The vintage of "COMM 2019-GC2020" is 2019, by
    line 31 and by the reference definition alike, and 2018, 2019 and 2020
    are offered in the dropdown; with 2020 selected, line 40 keeps the row
    all the same, because its name contains "2020": the deal is listed
    among the companies of vintage 2020 and its row enters the percentile
    bands of that vintage. *)
Theorem substring_filter_keeps_other_vintage :
  let r := mkRow "COMM 2019-GC2020" (Parsed (mkTimestamp 2020 3 31 0))
             (Some (80 # 1)) "NY" (Some 5) in
  let properties :=
    [mkRow "BANK 2020-BNK25" (Parsed (mkTimestamp 2020 3 31 0))
       (Some (95 # 1)) "NY" (Some 100);
     r;
     mkRow "CSAIL 2018-C14" (Parsed (mkTimestamp 2020 3 31 0))
       (Some (70 # 1)) "IL" (Some 40)] in
  unique_years properties = Ok [2018; 2019; 2020]
  ∧ vintage_of (COMPANY_NAME r) = Ok 2019
  ∧ vintage (COMPANY_NAME r) 2019
  ∧ ¬ vintage (COMPANY_NAME r) 2020
  ∧ r ∈ year_data properties 2020
  ∧ ∃ out,
      script properties 2020 "BANK 2020-BNK25" = Ok out
      ∧ out_unique_companies out = ["BANK 2020-BNK25"; "COMM 2019-GC2020"]
      ∧ map fst (out_percentiles out) = [mkTimestamp 2020 3 1 0]
      ∧ ∃ cleaned,
          clean (year_data properties 2020) = Ok cleaned
          ∧ map company_name (group (vintage_series cleaned) (mkTimestamp 2020 3 1 0))
            = ["BANK 2020-BNK25"; "COMM 2019-GC2020"].
Proof.
  intros r properties.
  assert (vintage_of (COMPANY_NAME r) = Ok 2019) as Hv by (vm_compute; reflexivity).
  pose proof (vintage_of_spec (COMPANY_NAME r)) as V. rewrite Hv in V.
  destruct V as [V1 V2].
  split; [vm_compute; reflexivity|]. split; [exact Hv|]. split; [exact V1|].
  split; [intros H; by apply V2 in H|].
  split.
  - apply elem_of_year_data. split; [right; left | vm_compute; reflexivity].
  - eexists. split; [vm_compute; reflexivity|]. cbn [out_unique_companies out_percentiles].
    split; [reflexivity|]. split; [reflexivity|].
    eexists. split; vm_compute; reflexivity.
Qed.

(** *** What the substring test does keep *)

Lemma prefix_inv (pat s : string) :
  String.prefix pat s = true → ∃ post, s = pat +:+ post.
Proof.
  revert s. induction pat as [|a pat IH]; intros s H.
  - by exists s.
  - destruct s as [|b s]; [done|]. cbn in H.
    destruct (ascii_dec a b) as [->|]; [|done].
    destruct (IH s H) as [post ->]. by exists post.
Qed.

Lemma prefix_app (pat post : string) : String.prefix pat (pat +:+ post) = true.
Proof.
  induction pat as [|a pat IH].
  - by destruct post.
  - change (String a pat +:+ post) with (String a (pat +:+ post)).
    cbn [String.prefix]. by destruct (ascii_dec a a).
Qed.

Lemma contains_spec (pat s : string) :
  contains pat s = true ↔ ∃ pre post, s = pre +:+ (pat +:+ post).
Proof.
  split.
  - induction s as [|c s IH]; cbn [contains]; intros H;
      apply orb_true_iff in H as [H|H]; try done.
    + apply prefix_inv in H as [post ->]. by exists "", post.
    + apply prefix_inv in H as [post ->]. by exists "", post.
    + destruct (IH H) as (pre & post & ->). by exists (String c pre), post.
  - intros (pre & post & ->). induction pre as [|c pre IH].
    + change ("" +:+ (pat +:+ post)) with (pat +:+ post).
      destruct (pat +:+ post) eqn:E; cbn [contains]; rewrite <- E, prefix_app; done.
    + change (String c pre +:+ (pat +:+ post)) with (String c (pre +:+ (pat +:+ post))).
      cbn [contains]. rewrite IH. apply orb_true_r.
Qed.

Lemma append_assoc (a b c : string) : (a +:+ b) +:+ c = a +:+ (b +:+ c).
Proof.
  induction a as [|x a IH]; [done|].
  change (String x a +:+ b) with (String x (a +:+ b)).
  change (String x (a +:+ b) +:+ c) with (String x ((a +:+ b) +:+ c)).
  by rewrite IH.
Qed.

Lemma contains_trans (a b c : string) :
  contains a b = true → contains b c = true → contains a c = true.
Proof.
  rewrite !contains_spec. intros (p1 & q1 & ->) (p2 & q2 & ->).
  exists (p2 +:+ p1), (q1 +:+ q2). by rewrite !append_assoc.
Qed.

Lemma first_match_contains (prev : option ascii) (s m : string) :
  first_match prev s = Some m → contains m s = true.
Proof.
  revert prev. induction s as [|c s IH]; intros prev; [done|].
  cbn [first_match contains].
  destruct (match_here prev (String c s)) as [m'|] eqn:E.
  - intros [= ->]. apply orb_true_iff. left. revert E. unfold match_here.
    destruct s as [|b [|c' [|d rest]]]; try done.
    destruct (_ && _ && _); [|done]. intros [= <-]. cbn.
    repeat (destruct (ascii_dec _ _); [|done]). by destruct rest.
  - intros H. rewrite (IH _ H). apply orb_true_r.
Qed.

Lemma is_digit_digits (c : ascii) : is_digit c = true → In c digits.
Proof.
  destruct c as [[] [] [] [] [] [] [] []]; vm_compute; intros H;
    first [discriminate H | tauto].
Qed.

(** [str(int(m))] drops the leading zeros of [m] and is found in [m]. *)
Lemma str_int_contained (a b c d : ascii) :
  In a digits → In b digits → In c digits → In d digits →
  contains (str (int (String a (String b (String c (String d ""))))))
    (String a (String b (String c (String d "")))) = true.
Proof.
  intros Ha Hb Hc Hd.
  assert (forallb (λ a, forallb (λ b, forallb (λ c, forallb (λ d,
            contains (str (int (String a (String b (String c (String d ""))))))
              (String a (String b (String c (String d "")))))
            digits) digits) digits) digits = true) as H by (vm_compute; reflexivity).
  rewrite forallb_forall in H. specialize (H a Ha).
  rewrite forallb_forall in H. specialize (H b Hb).
  rewrite forallb_forall in H. specialize (H c Hc).
  rewrite forallb_forall in H. exact (H d Hd).
Qed.

(** A match of the pattern is four characters long. *)
Lemma first_match_four (prev : option ascii) (s m : string) :
  first_match prev s = Some m →
  ∃ a b c d, m = String a (String b (String c (String d ""))).
Proof.
  revert prev. induction s as [|c s IH]; intros prev; [done|].
  cbn [first_match].
  destruct (match_here prev (String c s)) as [m'|] eqn:E; [|apply IH].
  intros [= ->]. revert E. unfold match_here.
  destruct s as [|b [|c' [|d rest]]]; try done.
  destruct (_ && _ && _); [|done]. intros [= <-]. by eexists _, _, _, _.
Qed.

(** The first match of a name, when it is written with the digits 0 to 9,
    contains the decimal writing of the number it reads as, and so does the
    name. *)
Lemma first_match_kept (name m : string) :
  first_item (findall name) = Ok m →
  (∀ c, In c (list_ascii_of_string m) → In c digits) →
  contains (str (int m)) name = true.
Proof.
  unfold findall. intros Hm Hdigits.
  pose proof (head_findall_from None name) as Hh.
  destruct (findall_from 0 None name) as [|m' l]; [done|].
  cbn in Hm, Hh. injection Hm as ->. symmetry in Hh.
  eapply contains_trans; [|by eapply first_match_contains].
  destruct (first_match_four _ _ _ Hh) as (a & b & c & d & ->).
  apply str_int_contained; apply Hdigits; cbn; tauto.
Qed.

(** X1.  A row is among the rows line 40 keeps for the selected year when
    the first match of the pattern in its name is written with the digits
    0 to 9 and reads as that year.  ([\d] and [int] also accept the decimal
    digits of other scripts, which [str(selected_year)] never writes.) *)
Theorem rows_of_vintage_are_kept (properties : list Row) (selected_year : Z)
    (r : Row) (m : string) :
  r ∈ properties →
  first_item (findall (COMPANY_NAME r)) = Ok m →
  (∀ c, In c (list_ascii_of_string m) → In c digits) →
  int m = selected_year →
  r ∈ year_data properties selected_year.
Proof.
  intros Hr Hm Hdigits <-. apply elem_of_year_data. split; [done|].
  by apply first_match_kept.
Qed.

Lemma rows_of_vintage_are_kept_witness :
  let r := mkRow "BANK 0720-BNK25" Missing None "NY" None in
  let properties := [mkRow "COMM 2019-GC11" Missing None "NY" None; r] in
  r ∈ properties
  ∧ first_item (findall (COMPANY_NAME r)) = Ok "0720"
  ∧ (∀ c, In c (list_ascii_of_string "0720") → In c digits)
  ∧ int "0720" = 720
  ∧ str 720 = "720"
  ∧ r ∈ year_data properties 720.
Proof.
  intros r properties.
  assert (r ∈ properties) as Hr by (right; left).
  assert (first_item (findall (COMPANY_NAME r)) = Ok "0720") as Hm
    by (vm_compute; reflexivity).
  assert (∀ c, In c (list_ascii_of_string "0720") → In c digits) as Hd
    by (intros c Hc; cbn in Hc |- *; tauto).
  assert (int "0720" = 720) as Hi by (vm_compute; reflexivity).
  split; [exact Hr|]. split; [exact Hm|]. split; [exact Hd|]. split; [exact Hi|].
  split; [vm_compute; reflexivity|].
  exact (rows_of_vintage_are_kept properties 720 r "0720" Hr Hm Hd Hi).
Defined.

(** ** Line 62: a date that cannot be parsed *)

(** X2.  A row of the selected vintage whose date is a text pandas cannot
    parse survives line 59 and makes the cast of line 62 raise: with three
    vintages on offer the run ends in [ValueError], whichever deal is
    selected. *)
Theorem unparseable_date_is_fatal (properties : list Row) (selected_year : Z)
    (selected_company : string) (years : list Z) (r : Row) (text : string) :
  unique_years properties = Ok years →
  (3 ≤ length years)%nat →
  r ∈ year_data properties selected_year →
  REPORTINGPERIODENDDATE r = Unparseable text →
  clean (year_data properties selected_year) = Raise ValueError
  ∧ script properties selected_year selected_company = Raise ValueError.
Proof.
  intros Hy H3 Hr Ht.
  assert (clean (year_data properties selected_year) = Raise ValueError) as Hc.
  { unfold clean. rewrite dropna_cleaning.
    apply (astype_unparseable _ (normalize (fill_value r)) text); [|exact Ht].
    change (map ?f ?l) with (f <$> l). apply list_elem_of_fmap.
    exists r. split; [done|]. unfold dropna, has_date.
    apply list_elem_of_filter. by rewrite Ht. }
  split; [done|]. unfold script. rewrite Hy. cbn.
  rewrite (selectbox_default_2 years selected_year H3). cbn.
  rewrite selectbox_default_0. cbn. by rewrite Hc.
Qed.

Lemma unparseable_date_is_fatal_witness :
  let r := mkRow "BANK 2020-BNK25" (Unparseable "31st of March") (Some (1 # 2)) "NY"
             (Some 100) in
  let properties :=
    ([mkRow "BANK 2020-BNK25" (Parsed (mkTimestamp 2020 3 31 0)) (Some (1 # 2)) "NY"
        (Some 100);
      r] ++ older_deals)%list in
  unique_years properties = Ok [2018; 2019; 2020]
  ∧ r ∈ year_data properties 2020
  ∧ script properties 2020 "BANK 2020-BNK25" = Raise ValueError.
Proof.
  intros r properties.
  assert (unique_years properties = Ok [2018; 2019; 2020]) as Hy
    by (vm_compute; reflexivity).
  assert (3 ≤ length [2018; 2019; 2020])%nat as H3 by (cbn; lia).
  assert (r ∈ year_data properties 2020) as Hr.
  { apply elem_of_year_data. split; [right; left | vm_compute; reflexivity]. }
  split; [exact Hy|]. split; [exact Hr|].
  exact (proj2 (unparseable_date_is_fatal properties 2020 "BANK 2020-BNK25"
                  [2018; 2019; 2020] r "31st of March" Hy H3 Hr eq_refl)).
Defined.

(** * Further properties of the script *)

(** ** The periods: which dates a key stands for *)

Lemma sub_MonthBegin_cases (t : Timestamp) :
  valid_date t →
  sub_MonthBegin t
  = if decide (day t = 1) then first_of_previous_month t else first_of_month t.
Proof.
  intros Ht. destruct (decide (day t = 1)).
  - by apply sub_MonthBegin_first_day.
  - by apply sub_MonthBegin_later_day.
Qed.

(** X3.  The key of a period is the first of a month, strictly earlier than
    every date it stands for, and the dates that get the key [k] are those
    of the month of [k] from the second day on, together with the first day
    of the following month (all at the time of day of [k]). *)
Theorem period_key_covers (t k : Timestamp) :
  valid_date t → valid_date k → day k = 1 →
  (day (sub_MonthBegin t) = 1 ∧ valid_date (sub_MonthBegin t)
   ∧ ts_lt (sub_MonthBegin t) t)
  ∧ (sub_MonthBegin t = k
     ↔ (year t = year k ∧ month t = month k ∧ nanos t = nanos k ∧ 2 ≤ day t)
       ∨ t = first_of_next_month k).
Proof.
  intros Ht Hk Hk1. rewrite (sub_MonthBegin_cases t Ht).
  destruct Ht as [Hm Hd], Hk as [Hkm _].
  rewrite ts_lt_lex, !Timestamp_eq.
  unfold first_of_previous_month, first_of_month, first_of_next_month, valid_date, lex_lt.
  destruct (decide (day t = 1)) as [H1|H1];
    destruct (Z.eqb_spec (month t) 1), (Z.eqb_spec (month k) 12); cbn; lia.
Qed.

Lemma period_key_covers_witness :
  let t := mkTimestamp 2021 1 1 0 in
  let k := mkTimestamp 2020 12 1 0 in
  valid_date t ∧ valid_date k ∧ day k = 1
  ∧ sub_MonthBegin t = k ∧ ts_lt k t ∧ t = first_of_next_month k.
Proof.
  intros t k.
  assert (valid_date t) as Ht by (unfold valid_date; cbn; lia).
  assert (valid_date k) as Hk by (unfold valid_date; cbn; lia).
  assert (day k = 1) as Hk1 by reflexivity.
  destruct (period_key_covers t k Ht Hk Hk1) as [(_ & _ & Hlt) [_ Hback]].
  assert (t = first_of_next_month k) as Hn by reflexivity.
  assert (sub_MonthBegin t = k) as Hs by (apply Hback; by right).
  rewrite Hs in Hlt. done.
Defined.

(** ** The frames handed to the chart are in date order *)

(** X4.  In a completed run both frames handed to the chart, the weighted
    occupancy of the deal and the percentile bands of the vintage, have
    their rows in strictly ascending order of date: one row per period,
    earlier periods first. *)
Theorem frames_in_date_order (properties : list Row) (selected_year : Z)
    (selected_company : string) (out : Output) :
  script properties selected_year selected_company = Ok out →
  StronglySorted ts_lt (map fst (out_bank_weighted_occupancy out))
  ∧ StronglySorted ts_lt (map fst (out_percentiles out)).
Proof.
  intros H. apply script_Ok in H as (cleaned & _ & _ & Hb & Hp).
  apply bank_weighted_occupancy_inv in Hb as [Hb _].
  rewrite (groupby_apply_keys _ _ _ Hb), (groupby_apply_keys _ _ _ Hp).
  split; apply group_keys_ascending.
Qed.

Lemma frames_in_date_order_witness :
  let c := "BANK 2020-BNK25" in
  let properties :=
    ([mkRow c (Parsed (mkTimestamp 2020 4 30 0)) (Some (90 # 1)) "CA" (Some 50);
      mkRow c (Parsed (mkTimestamp 2020 3 31 0)) (Some (95 # 1)) "NY" (Some 100);
      mkRow c (Parsed (mkTimestamp 2019 12 31 0)) (Some (1 # 2)) "TX" (Some 300)]
     ++ older_deals)%list in
  ∃ out,
    script properties 2020 c = Ok out
    ∧ map fst (out_bank_weighted_occupancy out)
      = [mkTimestamp 2019 12 1 0; mkTimestamp 2020 3 1 0; mkTimestamp 2020 4 1 0]
    ∧ StronglySorted ts_lt (map fst (out_bank_weighted_occupancy out))
    ∧ StronglySorted ts_lt (map fst (out_percentiles out)).
Proof.
  intros c properties.
  assert (∃ out, script properties 2020 c = Ok out
                 ∧ map fst (out_bank_weighted_occupancy out)
                   = [mkTimestamp 2019 12 1 0; mkTimestamp 2020 3 1 0;
                      mkTimestamp 2020 4 1 0]) as (out & H & Hk)
    by (eexists; split; vm_compute; reflexivity).
  exists out. split; [exact H|]. split; [exact Hk|].
  exact (frames_in_date_order properties 2020 c out H).
Defined.

(** ** Line 37: the vintage dropdown *)

(** X5.  The vintage dropdown is created with the default index 2: a table
    whose deal names embed only one or two distinct vintages makes line 37
    raise, and the run ends there, whatever is selected. *)
Theorem vintage_dropdown_needs_three (properties : list Row) (selected_year : Z)
    (selected_company : string) (years : list Z) :
  unique_years properties = Ok years →
  (1 ≤ length years ≤ 2)%nat →
  script properties selected_year selected_company = Raise StreamlitAPIException.
Proof.
  intros Hy Hlen. unfold script. rewrite Hy. cbn. unfold selectbox.
  rewrite bool_decide_eq_true_2; [done|].
  split; [|lia]. intros ->. cbn in Hlen. lia.
Qed.

Lemma vintage_dropdown_needs_three_witness :
  let properties :=
    [mkRow "BANK 2020-BNK25" (Parsed (mkTimestamp 2020 3 31 0)) (Some (95 # 1)) "NY"
       (Some 100);
     mkRow "BANK 2020-BNK26" (Parsed (mkTimestamp 2020 3 31 0)) (Some (90 # 1)) "NY"
       (Some 100);
     mkRow "COMM 2019-GC11" (Parsed (mkTimestamp 2020 3 31 0)) (Some (1 # 4)) "NY"
       (Some 10)] in
  unique_years properties = Ok [2019; 2020]
  ∧ (1 ≤ length [2019; 2020] ≤ 2)%nat
  ∧ script properties 2020 "BANK 2020-BNK25" = Raise StreamlitAPIException.
Proof.
  intros properties.
  assert (unique_years properties = Ok [2019; 2020]) as Hy by (vm_compute; reflexivity).
  assert (1 ≤ length [2019; 2020] ≤ 2)%nat as Hlen by (cbn; lia).
  split; [exact Hy|]. split; [exact Hlen|].
  exact (vintage_dropdown_needs_three properties 2020 "BANK 2020-BNK25" [2019; 2020]
           Hy Hlen).
Defined.

(** ** Line 31: names the pattern cannot read *)

(** X6.  The pattern needs a non-digit before the run, so it never reads a
    year standing at the very start of a name: a deal name without a digit
    after its fourth character ("2020 BANK", "2020", a name without digits)
    has no match, line 31 raises [IndexError] and the run ends there. *)
Theorem no_vintage_without_later_digit (properties : list Row) (r : Row)
    (selected_year : Z) (selected_company : string) :
  r ∈ properties →
  (∀ k d, (4 ≤ k)%nat → get k (COMPANY_NAME r) = Some d → is_digit d = false) →
  vintage_of (COMPANY_NAME r) = Raise IndexError
  ∧ script properties selected_year selected_company = Raise IndexError.
Proof.
  intros Hr Hnodigit.
  assert (vintage_of (COMPANY_NAME r) = Raise IndexError) as Hv.
  { pose proof (vintage_of_spec (COMPANY_NAME r)) as V.
    destruct (vintage_of (COMPANY_NAME r)) as [y|e]; [|by destruct V as [-> _]].
    destruct V as [(i & ((c & Hi & _) & Hd & _) & _) _]. exfalso.
    destruct (Hd 3%nat) as (d & Hg & Hdig); [lia|].
    apply is_digit_true in Hdig.
    rewrite (Hnodigit (i + 3)%nat d) in Hdig; [done|lia|done]. }
  split; [done|].
  assert (unique_years properties = Raise IndexError) as E.
  { unfold unique_years.
    rewrite (mapM_result_Raise vintage_of _ IndexError); [done| |].
    - intros name e _. unfold vintage_of. destruct (findall name); cbn; congruence.
    - exists (COMPANY_NAME r). split; [apply elem_of_names; eauto | done]. }
  unfold script. by rewrite E.
Qed.

Lemma no_vintage_without_later_digit_witness :
  let r := mkRow "2020 BANK" (Parsed (mkTimestamp 2020 3 31 0)) (Some (1 # 2)) "NY"
             (Some 100) in
  let properties := (r :: older_deals)%list in
  r ∈ properties
  ∧ (∀ k d, (4 ≤ k)%nat → get k (COMPANY_NAME r) = Some d → is_digit d = false)
  ∧ vintage_of (COMPANY_NAME r) = Raise IndexError
  ∧ script properties 2020 "2020 BANK" = Raise IndexError.
Proof.
  intros r properties.
  assert (r ∈ properties) as Hr by left.
  assert (∀ k d, (4 ≤ k)%nat → get k (COMPANY_NAME r) = Some d → is_digit d = false)
    as Hnodigit.
  { intros k d Hk.
    do 9 (destruct k as [|k]; [try lia; cbn; intros [= <-]; reflexivity|]).
    cbn. discriminate. }
  split; [exact Hr|]. split; [exact Hnodigit|].
  exact (no_vintage_without_later_digit properties r 2020 "2020 BANK" Hr Hnodigit).
Defined.

(** ** Lines 31 to 47: what the two dropdowns offer *)

Lemma offered_vintage_has_row (properties : list Row) (years : list Z) (y : Z) :
  unique_years properties = Ok years → y ∈ years →
  ∃ r, r ∈ properties ∧ vintage_of (COMPANY_NAME r) = Ok y.
Proof.
  unfold unique_years. intros H Hy.
  pose proof (mapM_result vintage_of (unique (map COMPANY_NAME properties))) as M.
  destruct (mapM vintage_of _) as [ys|e]; [|done]. cbn in H. injection H as <-.
  apply (proj2 (proj2 (sorted_set_spec ys))) in Hy.
  apply list_elem_of_lookup in Hy as [i Hi].
  destruct (Forall2_lookup_r _ _ _ _ _ M Hi) as (name & Hname & Hv).
  apply list_elem_of_lookup_2, elem_of_names in Hname as (r & Hr & <-).
  by exists r.
Qed.

Lemma first_match_range (prev : option ascii) (s m : string) :
  first_match prev s = Some m → 0 ≤ int m ≤ 9999.
Proof.
  revert prev. induction s as [|c s IH]; intros prev; [done|].
  cbn [first_match].
  destruct (match_here prev (String c s)) as [m'|] eqn:E; [|apply IH].
  intros [= ->]. revert E. unfold match_here.
  destruct s as [|b [|c' [|d rest]]]; try done.
  destruct (is_digit c) eqn:Ha, (is_digit b) eqn:Hb, (is_digit c') eqn:Hc,
    (is_digit d) eqn:Hd; rewrite ?andb_false_r; cbn [andb]; try done.
  destruct (_ && _); [|done]. intros [= <-].
  assert (forallb (λ a, forallb (λ b, forallb (λ c, forallb (λ d,
            let n := int (String a (String b (String c (String d "")))) in
            (0 <=? n) && (n <=? 9999))
            digits) digits) digits) digits = true) as H by (vm_compute; reflexivity).
  rewrite forallb_forall in H. specialize (H c (is_digit_digits c Ha)).
  rewrite forallb_forall in H. specialize (H b (is_digit_digits b Hb)).
  rewrite forallb_forall in H. specialize (H c' (is_digit_digits c' Hc)).
  rewrite forallb_forall in H. specialize (H d (is_digit_digits d Hd)).
  cbv zeta in H. apply andb_true_iff in H as [H1 H2]. lia.
Qed.

(** X7.  For a vintage offered in the first dropdown, the second dropdown
    lists no deal twice and offers exactly the deal names of the table
    that contain the decimal writing of the year; the year itself is a
    number from 0 to 9999, whatever the four digits were meant to say.
    When the names write their vintage with the digits 0 to 9, the second
    dropdown is not empty: it offers a deal of that very vintage. *)
Theorem companies_of_offered_vintage (properties : list Row) (years : list Z) (y : Z) :
  unique_years properties = Ok years → y ∈ years →
  0 ≤ y ≤ 9999
  ∧ NoDup (unique_companies (year_data properties y))
  ∧ (∀ name, name ∈ unique_companies (year_data properties y)
             ↔ ∃ r, r ∈ properties ∧ COMPANY_NAME r = name
                    ∧ contains (str y) name = true)
  ∧ ((∀ r m c, r ∈ properties → first_item (findall (COMPANY_NAME r)) = Ok m →
               In c (list_ascii_of_string m) → In c digits) →
     ∃ name, name ∈ unique_companies (year_data properties y)
             ∧ vintage_of name = Ok y).
Proof.
  intros Hy Hin.
  destruct (offered_vintage_has_row _ _ _ Hy Hin) as (r & Hr & Hv).
  assert (∀ name, name ∈ unique_companies (year_data properties y)
             ↔ ∃ r, r ∈ properties ∧ COMPANY_NAME r = name
                    ∧ contains (str y) name = true) as Hspec.
  { intros name. unfold unique_companies. rewrite elem_of_names. split.
    - intros (r' & Hr' & <-). apply elem_of_year_data in Hr'. naive_solver.
    - intros (r' & Hr' & <- & Hc). exists r'. split; [|done].
      by apply elem_of_year_data. }
  split; [|split; [apply NoDup_unique|split; [done|]]].
  - unfold vintage_of, findall in Hv.
    pose proof (head_findall_from None (COMPANY_NAME r)) as Hh.
    destruct (findall_from 0 None (COMPANY_NAME r)) as [|m l]; [done|].
    cbn in Hv, Hh. injection Hv as <-. symmetry in Hh.
    by eapply first_match_range.
  - intros Hdigits. exists (COMPANY_NAME r). split; [|done].
    apply Hspec. exists r. split; [done|]. split; [done|].
    unfold vintage_of in Hv.
    destruct (first_item (findall (COMPANY_NAME r))) as [m|] eqn:Hm; [|done].
    cbn in Hv. injection Hv as <-.
    apply first_match_kept; [done|]. intros c. by apply (Hdigits r m c).
Qed.

Lemma companies_of_offered_vintage_witness :
  let properties :=
    ([mkRow "BANK 2020-BNK25" (Parsed (mkTimestamp 2020 3 31 0)) (Some (95 # 1)) "NY"
        (Some 100);
      mkRow "COMM 2019-GC2020" (Parsed (mkTimestamp 2020 3 31 0)) (Some (95 # 1)) "NY"
        (Some 100);
      mkRow "BANK 2020-BNK25" (Parsed (mkTimestamp 2020 4 30 0)) (Some (90 # 1)) "NY"
        (Some 100)] ++ older_deals)%list in
  unique_years properties = Ok [2018; 2019; 2020]
  ∧ 2020 ∈ [2018; 2019; 2020]
  ∧ (∀ r m c, r ∈ properties → first_item (findall (COMPANY_NAME r)) = Ok m →
              In c (list_ascii_of_string m) → In c digits)
  ∧ unique_companies (year_data properties 2020) = ["BANK 2020-BNK25"; "COMM 2019-GC2020"]
  ∧ NoDup (unique_companies (year_data properties 2020))
  ∧ ∃ name, name ∈ unique_companies (year_data properties 2020)
            ∧ vintage_of name = Ok 2020.
Proof.
  intros properties.
  assert (unique_years properties = Ok [2018; 2019; 2020]) as Hy
    by (vm_compute; reflexivity).
  assert (2020 ∈ [2018; 2019; 2020]) as Hin by (right; right; left).
  assert (∀ r m c, r ∈ properties → first_item (findall (COMPANY_NAME r)) = Ok m →
              In c (list_ascii_of_string m) → In c digits) as Hd.
  { intros r m c Hr. unfold properties, older_deals in Hr. cbn [app] in Hr.
    rewrite !elem_of_cons, elem_of_nil in Hr.
    destruct Hr as [->|[->|[->|[->|[->|[]]]]]]; vm_compute; intros [= <-]; tauto. }
  split; [exact Hy|]. split; [exact Hin|]. split; [exact Hd|].
  split; [vm_compute; reflexivity|].
  destruct (companies_of_offered_vintage properties [2018; 2019; 2020] 2020 Hy Hin)
    as (_ & Hnodup & _ & Hsome).
  split; [exact Hnodup | exact (Hsome Hd)].
Defined.

(** ** The deal line and the bands share their dates *)

(** X8.  The rows of the selected deal are rows of the vintage, so in a
    completed run every date that has a point on the deal's line also has a
    row of percentile bands. *)
Theorem deal_periods_have_bands (properties : list Row) (selected_year : Z)
    (selected_company : string) (out : Output) :
  script properties selected_year selected_company = Ok out →
  ∀ p v, (p, v) ∈ out_bank_weighted_occupancy out →
         ∃ b, (p, b) ∈ out_percentiles out.
Proof.
  intros H p v Hpv. apply script_Ok in H as (cleaned & _ & _ & Hb & Hp).
  apply bank_weighted_occupancy_inv in Hb as [Hb _].
  assert (p ∈ group_keys (deal_series cleaned selected_company)) as Hk.
  { rewrite <- (groupby_apply_keys _ _ _ Hb).
    change (map fst ?l) with (fst <$> l). apply list_elem_of_fmap. by exists (p, v). }
  apply shifted_group_keys in Hk as (r & t & Hr & Ht & ->).
  apply elem_of_bank_data in Hr as [_ Hr].
  assert (sub_MonthBegin t ∈ group_keys (vintage_series cleaned)) as Hk'.
  { apply shifted_group_keys. by exists r, t. }
  destruct (groupby_apply_lookup _ _ _ _ Hp Hk') as (b & Hin & _). by exists b.
Qed.

Lemma deal_periods_have_bands_witness :
  let c := "BANK 2020-BNK25" in
  let properties :=
    ([mkRow c (Parsed (mkTimestamp 2020 4 30 0)) (Some (90 # 1)) "CA" (Some 50);
      mkRow "COMM 2020-X1" (Parsed (mkTimestamp 2020 3 31 0)) (Some (95 # 1)) "NY"
        (Some 100)] ++ older_deals)%list in
  ∃ out,
    script properties 2020 c = Ok out
    ∧ map fst (out_bank_weighted_occupancy out) = [mkTimestamp 2020 4 1 0]
    ∧ map fst (out_percentiles out) = [mkTimestamp 2020 3 1 0; mkTimestamp 2020 4 1 0]
    ∧ ∀ p v, (p, v) ∈ out_bank_weighted_occupancy out →
             ∃ b, (p, b) ∈ out_percentiles out.
Proof.
  intros c properties.
  assert (∃ out, script properties 2020 c = Ok out
                 ∧ map fst (out_bank_weighted_occupancy out) = [mkTimestamp 2020 4 1 0]
                 ∧ map fst (out_percentiles out)
                   = [mkTimestamp 2020 3 1 0; mkTimestamp 2020 4 1 0])
    as (out & H & Hb & Hp)
    by (eexists; split; [|split]; vm_compute; reflexivity).
  exists out. split; [exact H|]. split; [exact Hb|]. split; [exact Hp|].
  exact (deal_periods_have_bands properties 2020 c out H).
Defined.

(** ** The weighted occupancy is an average *)

Lemma inject_Z_sum (ws : list Z) :
  (inject_Z (foldr Z.add 0%Z ws) == foldr Qplus 0 (map inject_Z ws))%Q.
Proof.
  induction ws as [|w ws IH]; [reflexivity|].
  cbn. by rewrite inject_Z_plus, IH.
Qed.

Lemma weighted_sum_bounds (rows : list (Z * Q)) (lo hi : Q) :
  (∀ row, row ∈ rows → 0 ≤ row.1 ∧ (lo <= row.2 <= hi)%Q) →
  (lo * inject_Z (foldr Z.add 0%Z (map fst rows))
   <= foldr Qplus 0 (map (λ row, inject_Z row.1 * row.2) rows))%Q
  ∧ (foldr Qplus 0 (map (λ row, inject_Z row.1 * row.2) rows)
     <= hi * inject_Z (foldr Z.add 0%Z (map fst rows)))%Q.
Proof.
  induction rows as [|[w x] rows IH]; intros H.
  - cbn. change (inject_Z 0) with 0%Q. split; lra.
  - destruct IH as [IHlo IHhi]; [intros row Hrow; apply H; by right|].
    destruct (H (w, x)) as [Hw [Hlo Hhi]]; [by left|]. cbn in Hw, Hlo, Hhi.
    assert (0 <= inject_Z w)%Q as Hw'.
    { change 0%Q with (inject_Z 0). by rewrite <- Zle_Qle. }
    cbn. rewrite inject_Z_plus. split; nra.
Qed.

Lemma weighted_mean_bounds (rows : list (Z * Q)) (lo hi : Q) :
  (∀ row, row ∈ rows → 0 ≤ row.1 ∧ (lo <= row.2 <= hi)%Q) →
  0 < foldr Z.add 0 (map fst rows) →
  (lo <= weighted_mean rows <= hi)%Q.
Proof.
  intros H Hpos. destruct (weighted_sum_bounds rows lo hi H) as [Hlo Hhi].
  assert (0 < inject_Z (foldr Z.add 0%Z (map fst rows)))%Q as Hpos'.
  { change 0%Q with (inject_Z 0). by rewrite <- Zlt_Qlt. }
  unfold weighted_mean. split.
  - by apply Qle_shift_div_l.
  - by apply Qle_shift_div_r.
Qed.

Lemma foldr_add_nonneg (ws : list Z) : (∀ w, w ∈ ws → 0 ≤ w) → 0 ≤ foldr Z.add 0 ws.
Proof.
  induction ws as [|w ws IH]; intros H; [done|].
  cbn. assert (0 ≤ w) by (apply H; by left).
  assert (0 ≤ foldr Z.add 0 ws) by (apply IH; intros w' Hw'; apply H; by right). lia.
Qed.

(** A row of a grouped series comes from a row of the vintage that had a
    date, with the columns cleaning gives it. *)
Lemma group_row_origin (year_data : list Row) (cleaned series : list TypedRow)
    (c : string) (p : Timestamp) (r' : TypedRow) :
  clean year_data = Ok cleaned →
  series = shift_dates cleaned ∨ series = shift_dates (bank_data cleaned c) →
  r' ∈ group series p →
  ∃ r, r ∈ year_data
       ∧ occupancy r' = fillna 0%Q (rescale (PHYSICALOCCUPANCYSECURITIZATIONPERCENTAGE r))
       ∧ to_int64 (Some (default 0 (MOST_RECENT_VALUE r))) = Ok (most_recent_value r').
Proof.
  intros Hc Hs Hr'. apply elem_of_group in Hr' as [_ Hr'].
  destruct (aggregated_rows cleaned c r') as (r1 & -> & Hr1).
  { destruct Hs as [->| ->]; [by left | by right]. }
  destruct (cleaned_row_origin _ _ r1 Hc Hr1) as (r0 & Hr0 & _ & _ & Ho & _ & Hv).
  exists r0. by cbn.
Qed.

Lemma to_int64_in_range (v : Z) : - 2 ^ 63 ≤ v < 2 ^ 63 → to_int64 (Some v) = Ok v.
Proof.
  intros H. unfold to_int64.
  destruct (Z.leb_spec (- 2 ^ 63) v); [|lia].
  by destruct (Z.ltb_spec v (2 ^ 63)); [|lia].
Qed.

(** X9.  In a completed run in which the rows of the selected deal have
    appraised values that are missing or lie between 0 and [2^63 - 1], and
    occupancies that are missing or lie within [0,100], the weighted
    occupancy of every period is a number (not NaN) between 0 and 1. *)
Theorem weighted_occupancy_in_unit_interval (properties : list Row)
    (selected_year : Z) (selected_company : string) (out : Output) :
  script properties selected_year selected_company = Ok out →
  (∀ r v, r ∈ year_data properties selected_year →
          COMPANY_NAME r = selected_company →
          MOST_RECENT_VALUE r = Some v → 0 ≤ v < 2 ^ 63) →
  (∀ r x, r ∈ year_data properties selected_year →
          COMPANY_NAME r = selected_company →
          PHYSICALOCCUPANCYSECURITIZATIONPERCENTAGE r = Some x → 0 <= x <= 100)%Q →
  ∀ p v, (p, v) ∈ out_bank_weighted_occupancy out →
         ∃ q, v = Some q ∧ (0 <= q <= 1)%Q.
Proof.
  intros H Hval Hocc p v Hpv.
  apply script_Ok in H as (cleaned & _ & Hc & Hb & _).
  apply bank_weighted_occupancy_inv in Hb as [Hb _].
  destruct (groupby_apply_elem _ _ _ p v Hb Hpv) as [Hp Havg].
  change (deal_series cleaned selected_company)
    with (shift_dates (deal_rows cleaned selected_company)) in Havg.
  set (deal := deal_rows cleaned selected_company) in *.
  rewrite group_shift_dates, occupancy_shift_dates, weights_shift_dates in Havg.
  set (rows := period_rows deal p) in *.
  assert (∀ r', r' ∈ deal → r' ∈ cleaned) as Hsub.
  { intros r' Hr'. unfold deal, deal_rows in Hr'. apply list_elem_of_filter in Hr'. tauto. }
  assert (∀ r', r' ∈ rows →
            ∃ r, r ∈ year_data properties selected_year
                 ∧ COMPANY_NAME r = selected_company ∧ cleaned_from r r') as Horigin.
  { intros r' Hr'. apply elem_of_period_rows in Hr' as [_ Hr'].
    unfold deal, deal_rows in Hr'. apply list_elem_of_filter in Hr' as [Hn Hr'].
    destruct (cleaned_row_origin _ _ r' Hc Hr') as (r & Hr & Hcf).
    exists r. split; [done|]. split; [|done]. destruct Hcf as [Hn' _]. congruence. }
  destruct (period_occupancies _ cleaned deal p Hc Hsub) as [xs Hxs].
  fold rows in Hxs. rewrite Hxs in Havg. fold (weights rows) in Havg.
  assert (length xs = length (weights rows)) as Hlen.
  { unfold weights. rewrite <- (length_map Some xs), <- Hxs. by rewrite !length_map. }
  assert (∀ w, w ∈ weights rows → 0 ≤ w) as Hw.
  { intros w Hw. unfold weights in Hw. change (map ?f ?l) with (f <$> l) in Hw.
    apply list_elem_of_fmap in Hw as (r' & -> & Hr').
    destruct (Horigin r' Hr') as (r & Hr & Hn & _ & _ & _ & _ & Hv).
    destruct (MOST_RECENT_VALUE r) as [v0|] eqn:E.
    - pose proof (Hval r v0 Hr Hn E) as Hv0.
      change (default 0 (Some v0)) with v0 in Hv.
      rewrite to_int64_in_range in Hv by lia. injection Hv as <-. lia.
    - change (to_int64 (Some (default 0 None))) with (Ok 0 : result Z) in Hv.
      injection Hv as <-. lia. }
  assert (0 < foldr Z.add 0 (weights rows)) as Hpos.
  { pose proof (foldr_add_nonneg _ Hw) as H0.
    assert (foldr Z.add 0 (weights rows) ≠ 0); [|lia].
    intros E. rewrite (np_average_zero_weights _ _ E) in Havg. done. }
  destruct (np_average_weighted_mean xs (weights rows) Hlen) as (q & Hq & Eq); [lia|].
  rewrite Hq in Havg. injection Havg as <-. exists q. split; [done|].
  rewrite Eq. apply weighted_mean_bounds.
  - intros [w x] Hrow. cbn. split.
    + apply Hw. by eapply elem_of_zip_l.
    + apply elem_of_zip_r in Hrow.
      assert (Some x ∈ map occupancy rows) as Hx.
      { rewrite Hxs. change (map Some xs) with (Some <$> xs).
        apply list_elem_of_fmap. by exists x. }
      change (map ?f ?l) with (f <$> l) in Hx.
      apply list_elem_of_fmap in Hx as (r' & Hx & Hr').
      destruct (Horigin r' Hr') as (r & Hr & Hn & _ & _ & Ho & _).
      destruct (rescale_in_unit_interval (PHYSICALOCCUPANCYSECURITIZATIONPERCENTAGE r))
        as (y & Hy & Hy01); [intros x0 Hx0; by eapply Hocc|].
      rewrite Ho, Hy in Hx. by injection Hx as ->.
  - change (map fst (zip ?a ?b)) with ((zip a b).*1). rewrite fst_zip; [done|lia].
Qed.

Lemma weighted_occupancy_in_unit_interval_witness :
  let c := "BANK 2020-BNK25" in
  let kept :=
    [mkRow c (Parsed (mkTimestamp 2020 3 31 0)) (Some (95 # 1)) "NY" (Some 100);
     mkRow c (Parsed (mkTimestamp 2020 3 15 0)) (Some (1 # 2)) "CA" (Some 300);
     mkRow c (Parsed (mkTimestamp 2020 3 2 0)) None "TX" None;
     mkRow c (Parsed (mkTimestamp 2020 5 2 0)) (Some (100 # 1)) "TX" (Some 1)] in
  let properties := (kept ++ older_deals)%list in
  (∀ r v, r ∈ year_data properties 2020 → COMPANY_NAME r = c →
          MOST_RECENT_VALUE r = Some v → 0 ≤ v < 2 ^ 63)
  ∧ (∀ r x, r ∈ year_data properties 2020 → COMPANY_NAME r = c →
            PHYSICALOCCUPANCYSECURITIZATIONPERCENTAGE r = Some x → 0 <= x <= 100)%Q
  ∧ ∃ out,
      script properties 2020 c = Ok out
      ∧ out_bank_weighted_occupancy out
        = [(mkTimestamp 2020 3 1 0,
            Some ((((95 # 1) / 100) * 100 + ((1 # 2) * 300 + (0 * 0 + 0))) / 400)%Q);
           (mkTimestamp 2020 5 1 0, Some ((((100 # 1) / 100) * 1 + 0) / 1)%Q)]
      ∧ ∀ p v, (p, v) ∈ out_bank_weighted_occupancy out →
          ∃ q, v = Some q ∧ (0 <= q <= 1)%Q.
Proof.
  intros c kept properties.
  assert (∃ out, script properties 2020 c = Ok out
          ∧ out_bank_weighted_occupancy out
            = [(mkTimestamp 2020 3 1 0,
                Some ((((95 # 1) / 100) * 100 + ((1 # 2) * 300 + (0 * 0 + 0))) / 400)%Q);
               (mkTimestamp 2020 5 1 0, Some ((((100 # 1) / 100) * 1 + 0) / 1)%Q)])
    as (out & H & Hout) by (eexists; split; vm_compute; reflexivity).
  assert (year_data properties 2020 = kept) as Hyd by (vm_compute; reflexivity).
  assert (∀ r v, r ∈ year_data properties 2020 → COMPANY_NAME r = c →
                 MOST_RECENT_VALUE r = Some v → 0 ≤ v < 2 ^ 63) as Hval.
  { intros r v Hr _. rewrite Hyd in Hr. unfold kept in Hr.
    rewrite !elem_of_cons, elem_of_nil in Hr.
    destruct Hr as [->|[->|[->|[->|[]]]]]; cbn; intros [= <-]; lia. }
  assert (∀ r x, r ∈ year_data properties 2020 → COMPANY_NAME r = c →
                 PHYSICALOCCUPANCYSECURITIZATIONPERCENTAGE r = Some x →
                 0 <= x <= 100)%Q as Hocc.
  { intros r x Hr _. rewrite Hyd in Hr. unfold kept in Hr.
    rewrite !elem_of_cons, elem_of_nil in Hr.
    destruct Hr as [->|[->|[->|[->|[]]]]]; cbn; intros [= <-]; split; discriminate. }
  split; [exact Hval|]. split; [exact Hocc|].
  exists out. split; [exact H|]. split; [exact Hout|].
  exact (weighted_occupancy_in_unit_interval properties 2020 c out H Hval Hocc).
Defined.

(** ** The bands are ordered and stay within the occupancies *)

Lemma ascending_nth (s : list Q) (i k : nat) :
  StronglySorted Qle s → (i ≤ k < length s)%nat → (nth i s 0 <= nth k s 0)%Q.
Proof.
  intros Hsort. revert i k. induction Hsort as [|x l _ IH Hx]; intros i k Hik; cbn in Hik.
  - lia.
  - destruct i as [|i], k as [|k]; cbn; try lia.
    + apply Qle_refl.
    + rewrite Forall_forall in Hx. apply Hx, list_elem_of_In, nth_In. lia.
    + apply IH. lia.
Qed.

Lemma floor_fraction (h : Q) :
  (0 <= h - inject_Z (Qfloor h))%Q ∧ (h - inject_Z (Qfloor h) <= 1)%Q.
Proof.
  pose proof (Qfloor_le h) as H1. pose proof (Qlt_floor h) as H2.
  rewrite inject_Z_plus in H2. change (inject_Z 1) with 1%Q in H2.
  split; lra.
Qed.

Lemma floor_rank (n : nat) (h : Q) :
  (1 ≤ n)%nat → (0 <= h <= inject_Z (Z.of_nat n - 1))%Q →
  (Z.to_nat (Qfloor h) ≤ n - 1)%nat ∧ 0 ≤ Qfloor h.
Proof.
  intros Hn [H0 Hh].
  assert (0 ≤ Qfloor h) by (change 0 with (Qfloor 0); by apply Qfloor_resp_le).
  assert (Qfloor h ≤ Z.of_nat n - 1).
  { rewrite <- (Qfloor_Z (Z.of_nat n - 1)). by apply Qfloor_resp_le. }
  split; lia.
Qed.

(** The interpolated value lies between the value at the rank rounded down
    and the next one. *)
Lemma interpolate_between (s : list Q) (h : Q) :
  StronglySorted Qle s → (1 ≤ length s)%nat →
  (0 <= h <= inject_Z (Z.of_nat (length s) - 1))%Q →
  (nth (Z.to_nat (Qfloor h)) s 0 <= interpolate s h)%Q
  ∧ (interpolate s h <= nth (S (Z.to_nat (Qfloor h)) `min` (length s - 1)) s 0)%Q.
Proof.
  intros Hsort Hn Hh. destruct (floor_rank _ h Hn Hh) as [Hj _].
  destruct (floor_fraction h) as [Hg0 Hg1].
  unfold interpolate. set (j := Z.to_nat (Qfloor h)) in *.
  set (g := (h - inject_Z (Qfloor h))%Q) in *.
  destruct (decide (S j < length s)%nat) as [Hlt|Hge].
  - rewrite (nth_indep s (n := S j) _ 0%Q) by lia.
    replace (S j `min` (length s - 1))%nat with (S j) by lia.
    assert (nth j s 0 <= nth (S j) s 0)%Q by (apply ascending_nth; [done|lia]).
    split; nra.
  - rewrite (nth_overflow s (n := S j)) by lia.
    replace (S j `min` (length s - 1))%nat with j by lia.
    split; nra.
Qed.

Lemma interpolate_mono (s : list Q) (h1 h2 : Q) :
  StronglySorted Qle s → (1 ≤ length s)%nat →
  (0 <= h1)%Q → (h1 <= h2)%Q → (h2 <= inject_Z (Z.of_nat (length s) - 1))%Q →
  (interpolate s h1 <= interpolate s h2)%Q.
Proof.
  intros Hsort Hn H0 H12 H2n.
  assert (0 <= h1 <= inject_Z (Z.of_nat (length s) - 1))%Q as Hh1 by (split; lra).
  assert (0 <= h2 <= inject_Z (Z.of_nat (length s) - 1))%Q as Hh2 by (split; lra).
  destruct (floor_rank _ h1 Hn Hh1) as [Hj1 Hf1], (floor_rank _ h2 Hn Hh2) as [Hj2 Hf2].
  pose proof (Qfloor_resp_le _ _ H12) as Hf.
  destruct (Z.eq_dec (Qfloor h1) (Qfloor h2)) as [E|Hne].
  - unfold interpolate. rewrite E.
    set (j := Z.to_nat (Qfloor h2)) in *.
    assert (nth j s 0 <= nth (S j) s (nth j s 0))%Q as Hd.
    { destruct (decide (S j < length s)%nat).
      - rewrite (nth_indep s (n := S j) _ 0%Q) by lia. apply ascending_nth; [done|lia].
      - rewrite (nth_overflow s (n := S j)) by lia. apply Qle_refl. }
    nra.
  - destruct (interpolate_between s h1 Hsort Hn Hh1) as [_ Hup].
    destruct (interpolate_between s h2 Hsort Hn Hh2) as [Hlow _].
    replace (S (Z.to_nat (Qfloor h1)) `min` (length s - 1))%nat
      with (S (Z.to_nat (Qfloor h1))) in Hup by lia.
    assert (nth (S (Z.to_nat (Qfloor h1))) s 0 <= nth (Z.to_nat (Qfloor h2)) s 0)%Q
      by (apply ascending_nth; [done|lia]).
    lra.
Qed.

Lemma quantile_interpolate (xs : list Q) (p : Q) :
  xs ≠ [] → (0 <= p <= 100)%Q →
  quantile xs (p / 100)
  == interpolate (merge_sort Qle xs) (inject_Z (Z.of_nat (length xs) - 1) * (p / 100)).
Proof.
  intros Hne Hp.
  rewrite (quantile_percentile_reference xs (merge_sort Qle xs) p Hne Hp).
  - unfold percentile_reference, interpolate.
    by rewrite (Permutation_length (merge_sort_Permutation Qle xs)).
  - apply (Sorted_merge_sort Qle).
  - apply merge_sort_Permutation.
Qed.

Lemma elem_of_merge_sort_Qle (x : Q) (xs : list Q) : x ∈ merge_sort Qle xs → x ∈ xs.
Proof. intros H. by rewrite merge_sort_Permutation in H. Qed.

Lemma ascending_merge_sort (xs : list Q) : StronglySorted Qle (merge_sort Qle xs).
Proof. apply (StronglySorted_merge_sort Qle). Qed.

Lemma quantile_mono (xs : list Q) (p p' : Q) :
  xs ≠ [] → (0 <= p)%Q → (p <= p')%Q → (p' <= 100)%Q →
  (quantile xs (p / 100) <= quantile xs (p' / 100))%Q.
Proof.
  intros Hne H0 Hpp H100.
  rewrite !quantile_interpolate by (done || split; lra).
  assert (1 ≤ Z.of_nat (length xs)) as Hn by (destruct xs; [done | cbn; lia]).
  assert (length (merge_sort Qle xs) = length xs) as L
    by apply (Permutation_length (merge_sort_Permutation Qle xs)).
  destruct (virtual_index_bounds _ p Hn) as [Ha _]; [split; lra|].
  destruct (virtual_index_bounds _ p' Hn) as [_ Hb]; [split; lra|].
  assert (p / 100 <= p' / 100)%Q as Hc.
  { unfold Qdiv. apply Qmult_le_compat_r; [done | discriminate]. }
  assert (0 <= inject_Z (Z.of_nat (length xs) - 1))%Q as Hn'.
  { change 0%Q with (inject_Z 0). rewrite <- Zle_Qle. lia. }
  apply interpolate_mono; rewrite ?L; try done; [apply ascending_merge_sort|lia|nra].
Qed.

Lemma quantile_bounds (xs : list Q) (p lo hi : Q) :
  xs ≠ [] → (0 <= p <= 100)%Q →
  (∀ x, x ∈ xs → lo <= x <= hi)%Q →
  (lo <= quantile xs (p / 100) <= hi)%Q.
Proof.
  intros Hne Hp Hx. rewrite quantile_interpolate by done.
  assert (1 ≤ Z.of_nat (length xs)) as Hn by (destruct xs; [done | cbn; lia]).
  assert (length (merge_sort Qle xs) = length xs) as L
    by apply (Permutation_length (merge_sort_Permutation Qle xs)).
  pose proof (virtual_index_bounds _ p Hn Hp) as Hh.
  set (h := (inject_Z (Z.of_nat (length xs) - 1) * (p / 100))%Q) in *.
  destruct (interpolate_between (merge_sort Qle xs) h) as [Hlo Hhi];
    [apply ascending_merge_sort | lia | by rewrite L |].
  destruct (floor_rank (length xs) h) as [Hj _]; [lia|done|].
  assert (∀ i, (i < length xs)%nat → lo <= nth i (merge_sort Qle xs) 0 <= hi)%Q as Hnth.
  { intros i Hi. apply Hx.
    apply elem_of_merge_sort_Qle, list_elem_of_In, nth_In. lia. }
  rewrite L in Hhi.
  destruct (Hnth (Z.to_nat (Qfloor h))) as [H1 _]; [lia|].
  destruct (Hnth (S (Z.to_nat (Qfloor h)) `min` (length xs - 1))%nat) as [_ H2]; [lia|].
  split; lra.
Qed.

(** The bands of a period, as lines 84 to 91 compute them from the
    occupancies of its rows. *)
Lemma bands_of_period (year_data : list Row) (cleaned : list TypedRow)
    (pct : list (Timestamp * Bands)) (p : Timestamp) (b : Bands) :
  clean year_data = Ok cleaned →
  percentiles (vintage_series cleaned) = Ok pct →
  (p, b) ∈ pct →
  ∃ xs, xs ≠ []
        ∧ map occupancy (group (vintage_series cleaned) p) = map Some xs
        ∧ b = mkBands (Some (quantile xs (25 / 100))) (Some (quantile xs (50 / 100)))
                (Some (quantile xs (75 / 100))).
Proof.
  intros Hc Hp Hin. set (series := vintage_series cleaned) in *.
  pose proof (groupby_apply_keys _ _ _ Hp) as Hkeys.
  apply groupby_apply_Ok in Hp.
  apply list_elem_of_lookup in Hin as [i Hi].
  destruct (Forall2_lookup_r _ _ _ _ _ Hp Hi) as (k & Hk & Hpk & Hb).
  cbn in Hpk, Hb. subst k. apply list_elem_of_lookup_2 in Hk.
  destruct (group_occupancies _ cleaned series "" p Hc) as [xs Hxs]; [by left|].
  exists xs. split; [|split; [done|]].
  - apply elem_of_group_keys in Hk as (r & Hr & Hd).
    assert (r ∈ group series p) as Hg by (by apply elem_of_group).
    intros ->. destruct (group series p); [by apply elem_of_nil in Hg | done].
  - rewrite Hxs in Hb. injection Hb as <-.
    unfold np_percentile. change (map Some xs) with (Some <$> xs).
    by rewrite (mapM_fmap_Some id Some xs).
Qed.

(** X10.  In a completed run every row of bands holds three numbers (no
    NaN) in ascending order, p25 <= p50 <= p75, and they lie between any two
    bounds enclosing the normalized occupancies of the period's rows: in
    [0,1] when the table's occupancies are missing or within [0,100]. *)
Theorem percentile_bands_ordered (properties : list Row) (selected_year : Z)
    (selected_company : string) (out : Output) :
  script properties selected_year selected_company = Ok out →
  ∃ cleaned,
    clean (year_data properties selected_year) = Ok cleaned
    ∧ ∀ p b, (p, b) ∈ out_percentiles out →
        ∃ a25 a50 a75,
          b = mkBands (Some a25) (Some a50) (Some a75)
          ∧ (a25 <= a50)%Q ∧ (a50 <= a75)%Q
          ∧ (∀ lo hi,
               (∀ r' x, r' ∈ group (vintage_series cleaned) p →
                        occupancy r' = Some x → lo <= x <= hi)%Q →
               (lo <= a25)%Q ∧ (a75 <= hi)%Q)
          ∧ ((∀ r x, r ∈ year_data properties selected_year →
                     PHYSICALOCCUPANCYSECURITIZATIONPERCENTAGE r = Some x →
                     0 <= x <= 100)%Q →
             (0 <= a25)%Q ∧ (a75 <= 1)%Q).
Proof.
  intros H. apply script_Ok in H as (cleaned & _ & Hc & _ & Hp).
  exists cleaned. split; [done|]. intros p b Hin.
  destruct (bands_of_period _ _ _ p b Hc Hp Hin) as (xs & Hne & Hxs & ->).
  eexists _, _, _. split; [reflexivity|].
  split; [apply quantile_mono; done|]. split; [apply quantile_mono; done|].
  assert (∀ lo hi,
            (∀ r' x, r' ∈ group (vintage_series cleaned) p →
                     occupancy r' = Some x → lo <= x <= hi)%Q →
            (lo <= quantile xs (25 / 100))%Q ∧ (quantile xs (75 / 100) <= hi)%Q)
    as Hbounds.
  { intros lo hi Hocc.
    assert (∀ x, x ∈ xs → lo <= x <= hi)%Q as Hx.
    { intros x Hx.
      assert (Some x ∈ map occupancy (group (vintage_series cleaned) p)) as Hs.
      { rewrite Hxs. change (map Some xs) with (Some <$> xs).
        apply list_elem_of_fmap. by exists x. }
      change (map ?f ?l) with (f <$> l) in Hs.
      apply list_elem_of_fmap in Hs as (r' & Hs & Hr'). by eapply Hocc. }
    split.
    - apply (quantile_bounds xs 25 lo hi); done.
    - apply (quantile_bounds xs 75 lo hi); done. }
  split; [exact Hbounds|].
  intros Hrange. apply Hbounds. intros r' x Hr' Hx.
  destruct (group_row_origin _ cleaned (vintage_series cleaned) "" p r' Hc)
    as (r & Hr & Ho & _); [by left|done|].
  destruct (rescale_in_unit_interval (PHYSICALOCCUPANCYSECURITIZATIONPERCENTAGE r))
    as (v & Hv & Hv01); [intros x0 Hx0; by eapply Hrange|].
  rewrite Ho, Hv in Hx. by injection Hx as <-.
Qed.

Lemma percentile_bands_ordered_witness :
  let c := "BANK 2020-BNK25" in
  let kept :=
    [mkRow c (Parsed (mkTimestamp 2020 3 31 0)) (Some (95 # 1)) "NY" (Some 100);
     mkRow c (Parsed (mkTimestamp 2020 3 15 0)) (Some (1 # 2)) "CA" (Some 300);
     mkRow "COMM 2020-X1" (Parsed (mkTimestamp 2020 3 2 0)) None "TX" None;
     mkRow "COMM 2020-X1" (Parsed (mkTimestamp 2020 4 30 0)) (Some (80 # 1)) "TX" None] in
  let properties := (kept ++ older_deals)%list in
  (∃ out, script properties 2020 c = Ok out
          ∧ map fst (out_percentiles out) = [mkTimestamp 2020 3 1 0; mkTimestamp 2020 4 1 0])
  ∧ ∃ out,
      script properties 2020 c = Ok out
      ∧ ∀ p b, (p, b) ∈ out_percentiles out →
          ∃ a25 a50 a75,
            b = mkBands (Some a25) (Some a50) (Some a75)
            ∧ (0 <= a25)%Q ∧ (a25 <= a50)%Q ∧ (a50 <= a75)%Q ∧ (a75 <= 1)%Q.
Proof.
  intros c kept properties.
  assert (∃ out, script properties 2020 c = Ok out
          ∧ map fst (out_percentiles out)
            = [mkTimestamp 2020 3 1 0; mkTimestamp 2020 4 1 0])
    as (out & H & Hout) by (eexists; split; vm_compute; reflexivity).
  assert (year_data properties 2020 = kept) as Hyd by (vm_compute; reflexivity).
  assert (∀ r x, r ∈ year_data properties 2020 →
                 PHYSICALOCCUPANCYSECURITIZATIONPERCENTAGE r = Some x →
                 0 <= x <= 100)%Q as Hrange.
  { intros r x Hr. rewrite Hyd in Hr. unfold kept in Hr.
    rewrite !elem_of_cons, elem_of_nil in Hr.
    destruct Hr as [->|[->|[->|[->|[]]]]]; cbn; intros [= <-]; split; discriminate. }
  split; [by exists out|]. exists out. split; [exact H|].
  destruct (percentile_bands_ordered properties 2020 c out H) as (cleaned & _ & Hall).
  intros p b Hpb.
  destruct (Hall p b Hpb) as (a25 & a50 & a75 & Hb & H1 & H2 & _ & H01).
  destruct (H01 Hrange) as [Hlo Hhi].
  exists a25, a50, a75. repeat split; assumption.
Defined.

(** ** Lines 93 and 94: the bands fit the y axis *)

Lemma series_min_spec (vals : list Q) :
  vals ≠ [] →
  ∃ m, series_min (map Some vals) = Some m ∧ m ∈ vals ∧ ∀ v, v ∈ vals → (m <= v)%Q.
Proof.
  induction vals as [|v vals IH]; [done|]. intros _.
  destruct vals as [|v' vals].
  - exists v. split; [done|]. split; [by left|].
    intros x Hx. apply list_elem_of_singleton in Hx as ->. apply Qle_refl.
  - destruct IH as (m & Hm & Hin & Hle); [done|].
    cbn [map series_min foldr] in *. unfold series_min in Hm. rewrite Hm.
    destruct (Qle_bool v m) eqn:E.
    + apply Qle_bool_iff in E. exists v. split; [done|]. split; [by left|].
      intros x Hx. apply elem_of_cons in Hx as [->|Hx]; [apply Qle_refl|].
      eapply Qle_trans; [exact E | by apply Hle].
    + assert (m <= v)%Q as E'.
      { destruct (Qlt_le_dec m v) as [?|Hvm]; [by apply Qlt_le_weak|].
        apply Qle_bool_iff in Hvm. congruence. }
      exists m. split; [done|]. split; [by right|].
      intros x Hx. apply elem_of_cons in Hx as [->|Hx]; [done | by apply Hle].
Qed.

Lemma series_max_spec (vals : list Q) :
  vals ≠ [] →
  ∃ m, series_max (map Some vals) = Some m ∧ m ∈ vals ∧ ∀ v, v ∈ vals → (v <= m)%Q.
Proof.
  induction vals as [|v vals IH]; [done|]. intros _.
  destruct vals as [|v' vals].
  - exists v. split; [done|]. split; [by left|].
    intros x Hx. apply list_elem_of_singleton in Hx as ->. apply Qle_refl.
  - destruct IH as (m & Hm & Hin & Hle); [done|].
    cbn [map series_max foldr] in *. unfold series_max in Hm. rewrite Hm.
    destruct (Qle_bool m v) eqn:E.
    + apply Qle_bool_iff in E. exists v. split; [done|]. split; [by left|].
      intros x Hx. apply elem_of_cons in Hx as [->|Hx]; [apply Qle_refl|].
      eapply Qle_trans; [by apply Hle | exact E].
    + assert (v <= m)%Q as E'.
      { destruct (Qlt_le_dec v m) as [?|Hvm]; [by apply Qlt_le_weak|].
        apply Qle_bool_iff in Hvm. congruence. }
      exists m. split; [done|]. split; [by right|].
      intros x Hx. apply elem_of_cons in Hx as [->|Hx]; [done | by apply Hle].
Qed.

(** A column of a frame whose cells all hold a number. *)
Lemma column_values {A} (col : A → option Q) (frame : list A) :
  (∀ row, row ∈ frame → is_Some (col row)) →
  ∃ vals, map col frame = map Some vals
          ∧ (frame ≠ [] → vals ≠ [])
          ∧ ∀ v, v ∈ vals ↔ ∃ row, row ∈ frame ∧ col row = Some v.
Proof.
  induction frame as [|row frame IH]; intros H.
  - exists []. split; [done|]. split; [done|]. intros v. split.
    + intros Hv. by apply elem_of_nil in Hv.
    + intros (row & Hrow & _). by apply elem_of_nil in Hrow.
  - destruct (H row) as [v Hv]; [by left|].
    destruct IH as (vals & Hvals & _ & Hin); [intros r Hr; apply H; by right|].
    exists (v :: vals). split; [cbn; by rewrite Hv, Hvals|]. split; [done|].
    intros x. rewrite elem_of_cons, Hin. split.
    + intros [->|(r & Hr & Hx)]; [exists row; split; [by left|done]|].
      exists r. split; [by right | done].
    + intros (r & Hr & Hx). apply elem_of_cons in Hr as [->|Hr].
      * left. congruence.
      * right. by exists r.
Qed.

(** The bands of a vintage whose occupancies are missing or within
    [0,100] are ordered numbers between 0 and 1. *)
Lemma bands_in_unit_interval (year_data : list Row) (cleaned : list TypedRow)
    (pct : list (Timestamp * Bands)) (p : Timestamp) (b : Bands) :
  clean year_data = Ok cleaned →
  percentiles (vintage_series cleaned) = Ok pct →
  (∀ r x, r ∈ year_data →
          PHYSICALOCCUPANCYSECURITIZATIONPERCENTAGE r = Some x → 0 <= x <= 100)%Q →
  (p, b) ∈ pct →
  ∃ a25 a50 a75,
    b = mkBands (Some a25) (Some a50) (Some a75)
    ∧ (0 <= a25)%Q ∧ (a25 <= a50)%Q ∧ (a50 <= a75)%Q ∧ (a75 <= 1)%Q.
Proof.
  intros Hc Hp Hrange Hin.
  destruct (bands_of_period _ _ _ p b Hc Hp Hin) as (xs & Hne & Hxs & ->).
  eexists _, _, _. split; [reflexivity|].
  assert (∀ x, x ∈ xs → 0 <= x <= 1)%Q as Hx.
  { intros x Hx.
    assert (Some x ∈ map occupancy (group (vintage_series cleaned) p)) as Hs.
    { rewrite Hxs. change (map Some xs) with (Some <$> xs).
      apply list_elem_of_fmap. by exists x. }
    change (map ?f ?l) with (f <$> l) in Hs.
    apply list_elem_of_fmap in Hs as (r' & Hs & Hr').
    destruct (group_row_origin _ cleaned (vintage_series cleaned) "" p r' Hc)
      as (r & Hr & Ho & _); [by left|done|].
    destruct (rescale_in_unit_interval (PHYSICALOCCUPANCYSECURITIZATIONPERCENTAGE r))
      as (v & Hv & Hv01); [intros x0 Hx0; by eapply Hrange|].
    rewrite Ho, Hv in Hs. by injection Hs as ->. }
  split; [apply (quantile_bounds xs 25 0 1); done|].
  split; [apply quantile_mono; done|]. split; [apply quantile_mono; done|].
  apply (quantile_bounds xs 75 0 1); done.
Qed.

(** A completed run has drawn at least one band. *)
Lemma completed_run_has_bands (properties : list Row) (selected_year : Z)
    (selected_company : string) (out : Output) :
  script properties selected_year selected_company = Ok out →
  out_percentiles out ≠ [].
Proof.
  intros H. apply script_Ok in H as (cleaned & _ & _ & Hb & Hp).
  apply bank_weighted_occupancy_inv in Hb as [_ Hne].
  destruct (group_keys (deal_series cleaned selected_company)) as [|p l] eqn:E; [done|].
  assert (p ∈ group_keys (deal_series cleaned selected_company)) as Hk
    by (rewrite E; left).
  apply shifted_group_keys in Hk as (r & t & Hr & Ht & ->).
  apply elem_of_bank_data in Hr as [_ Hr].
  assert (sub_MonthBegin t ∈ group_keys (vintage_series cleaned)) as Hk'.
  { apply shifted_group_keys. by exists r, t. }
  destruct (groupby_apply_lookup _ _ _ _ Hp Hk') as (b & Hin & _).
  intros E'. rewrite E' in Hin. by apply elem_of_nil in Hin.
Qed.

(** X11.  In a completed run over a vintage whose occupancies are missing
    or within [0,100], the bounds computed for the y axis are numbers and
    every band of every period lies strictly between them, inside the
    domain given to the scale of the y axis.  The lower bound lies below
    the smallest p25 by no more than 0.02 and the upper bound above the
    largest p75 by no more than 0.002. *)
Theorem chart_domain_holds_bands (properties : list Row) (selected_year : Z)
    (selected_company : string) (out : Output) :
  script properties selected_year selected_company = Ok out →
  (∀ r x, r ∈ year_data properties selected_year →
          PHYSICALOCCUPANCYSECURITIZATIONPERCENTAGE r = Some x → 0 <= x <= 100)%Q →
  ∃ lo hi,
    min_occupancy (out_percentiles out) = Some lo
    ∧ max_occupancy (out_percentiles out) = Some hi
    ∧ (∀ p b, (p, b) ∈ out_percentiles out →
         ∃ a25 a50 a75,
           b = mkBands (Some a25) (Some a50) (Some a75)
           ∧ (lo < a25)%Q ∧ (a25 <= a50)%Q ∧ (a50 <= a75)%Q ∧ (a75 < hi)%Q)
    ∧ (- (2 # 100) <= lo)%Q ∧ (hi <= 1 + (2 # 1000))%Q
    ∧ (∃ p b a, (p, b) ∈ out_percentiles out ∧ p25 b = Some a
                ∧ (a - (2 # 100) <= lo)%Q)
    ∧ (∃ p b a, (p, b) ∈ out_percentiles out ∧ p75 b = Some a
                ∧ (hi <= a + (2 # 1000))%Q).
Proof.
  intros H Hrange. pose proof (completed_run_has_bands _ _ _ _ H) as Hne.
  apply script_Ok in H as (cleaned & _ & Hc & _ & Hp).
  set (pct := out_percentiles out) in *.
  assert (∀ row, row ∈ pct →
            ∃ a25 a50 a75, row.2 = mkBands (Some a25) (Some a50) (Some a75)
                           ∧ (0 <= a25)%Q ∧ (a25 <= a50)%Q ∧ (a50 <= a75)%Q
                           ∧ (a75 <= 1)%Q) as Hrows.
  { intros [p b] Hin. by eapply bands_in_unit_interval. }
  destruct (column_values (λ row : Timestamp * Bands, p25 row.2) pct)
    as (v25 & E25 & N25 & I25).
  { intros row Hrow. destruct (Hrows row Hrow) as (a & ? & ? & -> & _). by eexists. }
  destruct (column_values (λ row : Timestamp * Bands, p75 row.2) pct)
    as (v75 & E75 & N75 & I75).
  { intros row Hrow. destruct (Hrows row Hrow) as (? & ? & a & -> & _). by eexists. }
  destruct (series_min_spec v25 (N25 Hne)) as (m & Hm & Hmin & Hmle).
  destruct (series_max_spec v75 (N75 Hne)) as (M & HM & HMin & HMle).
  exists (m - (1 # 100))%Q, (M + (1 # 1000))%Q.
  split; [unfold min_occupancy; fold pct; by rewrite E25, Hm|].
  split; [unfold max_occupancy; fold pct; by rewrite E75, HM|].
  apply I25 in Hmin as ([pm bm] & Hinm & Hbm).
  apply I75 in HMin as ([pM bM] & HinM & HbM).
  destruct (Hrows _ Hinm) as (m25 & m50 & m75 & Em & Hm0 & _).
  destruct (Hrows _ HinM) as (M25 & M50 & M75 & EM & _ & _ & _ & HM1).
  cbn in Hbm, HbM, Em, EM. rewrite Em in Hbm. rewrite EM in HbM.
  cbn in Hbm, HbM. injection Hbm as ->. injection HbM as ->.
  split; [|split; [|split; [|split]]].
  - intros p b Hin.
    destruct (Hrows (p, b) Hin) as (a25 & a50 & a75 & Hb & _ & H1 & H2 & _).
    cbn in Hb. subst b. exists a25, a50, a75. split; [done|].
    set (row := (p, mkBands (Some a25) (Some a50) (Some a75))) in *.
    assert (m <= a25)%Q by (apply Hmle, I25; by exists row).
    assert (a75 <= M)%Q by (apply HMle, I75; by exists row).
    repeat split; lra.
  - lra.
  - lra.
  - exists pm, bm, m. rewrite Em. split; [by rewrite <- Em|]. split; [done|]. lra.
  - exists pM, bM, M. rewrite EM. split; [by rewrite <- EM|]. split; [done|]. lra.
Qed.

Lemma chart_domain_holds_bands_witness :
  let c := "BANK 2020-BNK25" in
  let properties :=
    ([mkRow c (Parsed (mkTimestamp 2020 3 31 0)) (Some (95 # 1)) "NY" (Some 100);
      mkRow c (Parsed (mkTimestamp 2020 3 15 0)) (Some (1 # 2)) "CA" (Some 300);
      mkRow "COMM 2020-X1" (Parsed (mkTimestamp 2020 4 30 0)) (Some (80 # 1)) "TX" None]
     ++ older_deals)%list in
  (∀ r x, r ∈ year_data properties 2020 →
          PHYSICALOCCUPANCYSECURITIZATIONPERCENTAGE r = Some x → 0 <= x <= 100)%Q
  ∧ ∃ out lo hi,
      script properties 2020 c = Ok out
      ∧ map fst (out_percentiles out) = [mkTimestamp 2020 3 1 0; mkTimestamp 2020 4 1 0]
      ∧ min_occupancy (out_percentiles out) = Some lo
      ∧ max_occupancy (out_percentiles out) = Some hi
      ∧ (60 # 100 < lo)%Q ∧ (lo < 61 # 100)%Q ∧ (83 # 100 < hi)%Q ∧ (hi < 84 # 100)%Q
      ∧ ∀ p b, (p, b) ∈ out_percentiles out →
          ∃ a25 a50 a75,
            b = mkBands (Some a25) (Some a50) (Some a75)
            ∧ (lo < a25)%Q ∧ (a25 <= a50)%Q ∧ (a50 <= a75)%Q ∧ (a75 < hi)%Q.
Proof.
  intros c properties.
  assert (∀ r x, r ∈ year_data properties 2020 →
            PHYSICALOCCUPANCYSECURITIZATIONPERCENTAGE r = Some x → 0 <= x <= 100)%Q
    as Hrange.
  { intros r x Hr.
    assert (year_data properties 2020
            = [mkRow c (Parsed (mkTimestamp 2020 3 31 0)) (Some (95 # 1)) "NY" (Some 100);
               mkRow c (Parsed (mkTimestamp 2020 3 15 0)) (Some (1 # 2)) "CA" (Some 300);
               mkRow "COMM 2020-X1" (Parsed (mkTimestamp 2020 4 30 0)) (Some (80 # 1))
                 "TX" None]) as Hyd by (vm_compute; reflexivity).
    rewrite Hyd in Hr. rewrite !elem_of_cons, elem_of_nil in Hr.
    destruct Hr as [->|[->|[->|[]]]]; cbn; intros [= <-]; split; discriminate. }
  split; [exact Hrange|].
  assert (∃ out, script properties 2020 c = Ok out
                 ∧ map fst (out_percentiles out)
                   = [mkTimestamp 2020 3 1 0; mkTimestamp 2020 4 1 0])
    as (out & H & Hk) by (eexists; split; vm_compute; reflexivity).
  destruct (chart_domain_holds_bands properties 2020 c out H Hrange)
    as (lo & hi & Hlo & Hhi & Hall & _).
  exists out, lo, hi. split; [exact H|]. split; [exact Hk|].
  split; [exact Hlo|]. split; [exact Hhi|].
  assert (script properties 2020 c = Ok out) as H' by exact H.
  vm_compute in H'. injection H' as <-.
  vm_compute in Hlo, Hhi. injection Hlo as <-. injection Hhi as <-.
  split; [reflexivity|]. split; [reflexivity|].
  split; [reflexivity|]. split; [reflexivity|]. exact Hall.
Defined.

(** ** Line 79: a deal without a dated row *)

(** X12.  Line 79 names the two columns of the deal's frame, which takes a
    frame with at least one period.  Once line 31, the dropdowns and the
    cleaning have gone through, the run ends in [ValueError] exactly when
    the selected deal has no row with a reporting date among the rows of
    the vintage. *)
Theorem deal_without_dated_row_is_fatal (properties : list Row) (selected_year : Z)
    (selected_company : string) (years : list Z) (cleaned : list TypedRow) :
  unique_years properties = Ok years →
  (3 ≤ length years)%nat →
  clean (year_data properties selected_year) = Ok cleaned →
  script properties selected_year selected_company = Raise ValueError
  ↔ ∀ r, r ∈ year_data properties selected_year →
         COMPANY_NAME r = selected_company →
         REPORTINGPERIODENDDATE r = Missing.
Proof.
  intros Hy H3 Hc.
  pose proof (script_after_cleaning _ selected_year selected_company _ _ Hy H3 Hc) as S.
  set (bank := deal_series cleaned selected_company) in *.
  assert (group_keys bank = []
          ↔ ∀ r, r ∈ year_data properties selected_year →
                 COMPANY_NAME r = selected_company →
                 REPORTINGPERIODENDDATE r = Missing) as Hkeys.
  { split.
    - intros E r Hr Hn.
      destruct (REPORTINGPERIODENDDATE r) as [|text|t] eqn:Ht; [done| |]; exfalso.
      + unfold clean in Hc. rewrite dropna_cleaning in Hc.
        rewrite (astype_unparseable _ (normalize (fill_value r)) text) in Hc;
          [done| |exact Ht].
        change (map ?f ?l) with (f <$> l). apply list_elem_of_fmap.
        exists r. split; [done|]. unfold dropna, has_date.
        apply list_elem_of_filter. by rewrite Ht.
      + destruct (cleaned_row_exists _ _ r t Hc Hr Ht)
          as (r' & Hr' & Hn' & (t' & Ht' & Hd') & _).
        assert (sub_MonthBegin t' ∈ group_keys bank) as Hin.
        { apply shifted_group_keys. exists r', t'.
          split; [apply elem_of_bank_data; split; congruence | done]. }
        rewrite E in Hin. by apply elem_of_nil in Hin.
    - intros Hall. destruct (group_keys bank) as [|p l] eqn:E; [done|]. exfalso.
      assert (p ∈ group_keys bank) as Hin by (rewrite E; left).
      apply shifted_group_keys in Hin as (r' & t & Hr' & Ht & _).
      apply elem_of_bank_data in Hr' as [Hn' Hr'].
      destruct (cleaned_row_origin _ _ r' Hc Hr')
        as (r & Hr & Hn & (t0 & Ht0 & _) & _).
      rewrite (Hall r Hr) in Ht0; [done | congruence]. }
  rewrite <- Hkeys. clear Hkeys.
  unfold bank_weighted_occupancy in S.
  destruct (groupby_apply _ bank) as [frame|e] eqn:Hg; cbn in S.
  - pose proof (groupby_apply_keys _ _ _ Hg) as K. rewrite <- K.
    destruct frame as [|row frame]; cbn in S.
    + by rewrite S.
    + destruct S as (out & -> & _). split; done.
  - rewrite S. unfold groupby_apply in Hg.
    pose proof (mapM_result
                  (λ k, v ← np_average (map occupancy (group bank k))
                              (map most_recent_value (group bank k)); Ok (k, v))
                  (group_keys bank)) as M.
    rewrite Hg in M. destruct M as (k & Hk & Hraise).
    destruct (np_average _ _) eqn:Ha; cbn in Hraise; [done|].
    injection Hraise as ->. apply np_average_raises in Ha as ->.
    split; [done|]. intros E. rewrite E in Hk. by apply elem_of_nil in Hk.
Qed.

Lemma deal_without_dated_row_is_fatal_witness :
  let c := "BANK 2020-BNK25" in
  let properties :=
    ([mkRow c Missing (Some (95 # 1)) "NY" (Some 100);
      mkRow "COMM 2020-X1" (Parsed (mkTimestamp 2020 4 30 0)) (Some (80 # 1)) "TX" (Some 10)]
     ++ older_deals)%list in
  let cleaned :=
    [mkTypedRow "COMM 2020-X1" (Some (mkTimestamp 2020 4 30 0))
       (Some ((80 # 1) / 100)%Q) "TX" 10] in
  unique_years properties = Ok [2018; 2019; 2020]
  ∧ clean (year_data properties 2020) = Ok cleaned
  ∧ unique_companies (year_data properties 2020) = [c; "COMM 2020-X1"]
  ∧ (∀ r, r ∈ year_data properties 2020 → COMPANY_NAME r = c →
          REPORTINGPERIODENDDATE r = Missing)
  ∧ script properties 2020 c = Raise ValueError
  ∧ ∃ out, script properties 2020 "COMM 2020-X1" = Ok out.
Proof.
  intros c properties cleaned.
  assert (unique_years properties = Ok [2018; 2019; 2020]) as Hy
    by (vm_compute; reflexivity).
  assert (3 ≤ length [2018; 2019; 2020])%nat as H3 by (cbn; lia).
  assert (clean (year_data properties 2020) = Ok cleaned) as Hc by (vm_compute; reflexivity).
  assert (∀ r, r ∈ year_data properties 2020 → COMPANY_NAME r = c →
               REPORTINGPERIODENDDATE r = Missing) as Hall.
  { intros r Hr.
    assert (year_data properties 2020
            = [mkRow c Missing (Some (95 # 1)) "NY" (Some 100);
               mkRow "COMM 2020-X1" (Parsed (mkTimestamp 2020 4 30 0)) (Some (80 # 1))
                 "TX" (Some 10)]) as Hyd by (vm_compute; reflexivity).
    rewrite Hyd in Hr. rewrite !elem_of_cons, elem_of_nil in Hr.
    destruct Hr as [->|[->|[]]]; [done|]. intros E. by vm_compute in E. }
  split; [exact Hy|]. split; [exact Hc|]. split; [vm_compute; reflexivity|].
  split; [exact Hall|].
  split; [|eexists; vm_compute; reflexivity].
  exact (proj2 (deal_without_dated_row_is_fatal properties 2020 c [2018; 2019; 2020]
                  cleaned Hy H3 Hc) Hall).
Defined.
